(** * IncidentRouter: the assignment decision engine

    A shallow embedding of the two assignment pipelines of the repository:

    - the SaaS-workflow variant: [weight_calculator.py] (scoring and
      ranking), [assignment_processor.py] (the loop over the queue
      messages, availability filter, commit and decision log), [utils.py],
      [servicenow_client.py], [database.py];
    - the queue-worker variant: [processor.py] (pre-check, scoring with
      jitter, post-check, commit, history row).

    Conventions of the embedding.

    - Python [float] values are modelled by exact rationals ([Q]); every
      constant of the source ([0.5], [0.02], [240] ...) is kept. Rounding of
      binary floating point is outside the model.
    - Python [int] values are [Z]; [str] is [string]; a value that may be
      [None] is an [option].
    - Code that reads the clock, talks to ServiceNow or the database, logs or
      raises is written in the monad [Eff W] : explicit passing of a world
      [W] together with a result that is either a value or a raised
      exception.  The world holds the external tables, the list of requests
      issued so far and the log; both lists are kept newest first.
    - Every request to an external system may fail: the world carries a
      script, consumed one entry per request, that says whether the request
      fails; in the queue-worker variant an entry may also let another
      writer set the holder of an incident just before the request is
      served, which is how a race is played.
    - The clock of a world is one instant: every read of [datetime.now()]
      during a run sees it.
    - [logger.debug] and purely informational [logger.info] lines that carry
      no outcome are not modelled. *)

From Stdlib Require Import ZArith QArith Qround List Ascii String Bool Lia Lqa.
From Stdlib Require Import Permutation Sorted.
From stdpp Require Import base option gmap strings pretty.
Import ListNotations.

Set Default Proof Using "Type".
Local Open Scope Z_scope.

(** ** Results and the effect monad *)

Inductive exn : Type :=
| ValueError (msg : string)
| TypeError (msg : string)
| HTTPError (msg : string)
| WeightCalculationError (msg : string)
| NoAvailableMembersError (msg : string)
| ServiceNowError (msg : string)
| DatabaseError (msg : string)
| OperationalError (msg : string).

(** [str(e)] *)
Definition exn_str (e : exn) : string :=
  match e with
  | ValueError m | TypeError m | HTTPError m | WeightCalculationError m
  | NoAvailableMembersError m | ServiceNowError m | DatabaseError m
  | OperationalError m => m
  end.

Inductive result (A : Type) : Type :=
| Ok (a : A)
| Raise (e : exn).
Arguments Ok {A} a.
Arguments Raise {A} e.

Definition is_ok {A} (r : result A) : bool :=
  match r with Ok _ => true | Raise _ => false end.

Definition Eff (W A : Type) : Type := W -> result A * W.

Definition ret {W A} (a : A) : Eff W A := fun w => (Ok a, w).

Definition raise {W A} (e : exn) : Eff W A := fun w => (Raise e, w).

Definition bind {W A B} (c : Eff W A) (k : A -> Eff W B) : Eff W B :=
  fun w => match c w with
           | (Ok a, w') => k a w'
           | (Raise e, w') => (Raise e, w')
           end.

(** [try: c except ...: h]. The handler answers [None] for an exception that
    no [except] clause matches, which then propagates. *)
Definition catch {W A} (c : Eff W A) (h : exn -> option (Eff W A)) : Eff W A :=
  fun w => match c w with
           | (Ok a, w') => (Ok a, w')
           | (Raise e, w') =>
               match h e with
               | Some k => k w'
               | None => (Raise e, w')
               end
           end.

(** [try: c finally: f] is not needed: the source's [finally] blocks only
    close connections. *)

Definition lift {W A} (r : result A) : Eff W A := fun w => (r, w).

Definition get_world {W} : Eff W W := fun w => (Ok w, w).

Definition modify {W} (f : W -> W) : Eff W unit := fun w => (Ok tt, f w).

Declare Scope eff_scope.
Delimit Scope eff_scope with eff.
Notation "x <- c ;; k" := (bind c (fun x => k))
  (at level 100, c at next level, right associativity) : eff_scope.
Notation "c ;;; k" := (bind c (fun _ => k))
  (at level 100, right associativity) : eff_scope.

(** ** Rational helpers: Python's [min], [max] and comparisons on floats *)

Definition Qlt_bool (a b : Q) : bool := negb (Qle_bool b a).

(** [max(a, b)]: the first argument unless the second is strictly larger. *)
Definition py_max (a b : Q) : Q := if Qlt_bool a b then b else a.

(** [min(a, b)]: the first argument unless the second is strictly smaller. *)
Definition py_min (a b : Q) : Q := if Qlt_bool b a then b else a.

(** ** [list.sort(key=..., reverse=...)]

    Python's sort is stable, also with [reverse=True]: elements with equal
    keys keep their input order.  A stable sort has one possible output, so
    the insertion sort below is the function the interpreter computes.
    [before x y] says that [x] may stand in front of [y]: [key x >= key y]
    for a descending sort, [key x <= key y] for an ascending one. *)

Fixpoint insert_stable {A : Type} (before : A -> A -> bool) (x : A) (l : list A)
  : list A :=
  match l with
  | [] => [x]
  | y :: l' =>
      if before x y then x :: y :: l' else y :: insert_stable before x l'
  end.

Definition sort_stable {A : Type} (before : A -> A -> bool) (l : list A)
  : list A :=
  fold_right (insert_stable before) [] l.

(** ** [datetime.time] and [datetime.datetime] *)

Record time : Type :=
  Time { hour : Z; minute : Z; second : Z; microsecond : Z }.

(** Naive [time] objects compare as the tuples
    [(hour, minute, second, microsecond)]. *)
Definition time_cmp (a b : time) : comparison :=
  match hour a ?= hour b with
  | Eq =>
      match minute a ?= minute b with
      | Eq =>
          match second a ?= second b with
          | Eq => microsecond a ?= microsecond b
          | c => c
          end
      | c => c
      end
  | c => c
  end.

(** [a <= b] and [a >= b] on [time] *)
Definition time_leb (a b : time) : bool :=
  match time_cmp a b with Gt => false | _ => true end.

Definition time_geb (a b : time) : bool :=
  match time_cmp a b with Lt => false | _ => true end.

Definition time_le (a b : time) : Prop := time_cmp a b <> Gt.
Definition time_lt (a b : time) : Prop := time_cmp a b = Lt.

(** Of a [datetime] the code reads [weekday()] (0 = Monday ... 6 = Sunday)
    and [time()]. *)
Record datetime : Type := DateTime { weekday : Z; time_of : time }.

(** ** What the interpreter and the deployment supply *)

(** [time.fromisoformat] ([None] stands for the [ValueError] it raises on a
    string it cannot parse) and the format specification [:.4f]. *)
Class Runtime : Type := {
  fromisoformat : string -> option time;
  format_4f : Q -> string
}.

(** [config.py]: the three coefficients are read from the environment. *)
Class Config : Type := {
  WORKLOAD_WEIGHT : Q;
  ROLE_WEIGHT : Q;
  AVAILABILITY_WEIGHT : Q
}.

Definition PRIORITY_WEIGHTS : gmap string Q :=
  list_to_map
    [("1"%string, 5.0%Q); ("2"%string, 3.0%Q); ("3"%string, 2.0%Q);
     ("4"%string, 1.0%Q); ("5"%string, 0.5%Q)].

Definition ROLE_MULTIPLIERS : gmap string Q :=
  list_to_map
    [("L3"%string, 1.5%Q); ("L2"%string, 1.2%Q); ("L1"%string, 1.0%Q);
     ("TRAINEE"%string, 0.8%Q)].

(** ** [models.py] and the dictionaries of the ServiceNow client *)

Record MemberData : Type := {
  assignment_group_id : string;
  member_id : string;
  member_name : string;
  role : string;
  experience_level : option Z;      (* Integer, default 1, nullable *)
  shift_start : string;             (* "HH:MM" *)
  shift_end : string;
  weekend_shift_flag : bool;
  is_active : bool
}.

(** A row of the ServiceNow [incident] table.  [priority] is [None] when the
    key is absent from the returned dictionary; an empty [assigned_to] is an
    unassigned incident. *)
Record Incident : Type := {
  sys_id : string;
  number : string;
  priority : option string;
  state : string;
  assigned_to : string
}.

(** A row of [sys_user_grmember], as [{'user': {'sys_id', 'user_name'}}]. *)
Record GroupMember : Type := {
  user_sys_id : string;
  user_user_name : string
}.

Record CalculationDetails : Type := {
  workload_incidents : nat;
  workload_score_raw : Q;
  role_score_raw : Q;
  availability_score_raw : Q;
  weights_applied : Q * Q * Q;
  incident_priority : string;
  member_role : string;
  member_experience : option Z
}.

Record MemberWeight : Type := {
  mw_member_id : string;
  mw_member_name : string;
  workload_score : Q;
  role_score : Q;
  availability_score : Q;
  final_weight : Q;
  calculation_details : CalculationDetails
}.

(** [get_weights_summary]: the snapshot serialised into
    [calculated_weights]. *)
Record WeightRow : Type := {
  wr_member_id : string;
  wr_member_name : string;
  wr_final_weight : Q;
  wr_workload_score : Q;
  wr_role_score : Q;
  wr_availability_score : Q
}.

Record WeightsSummary : Type := {
  total_members_evaluated : nat;
  weight_distribution : list WeightRow;
  selected_member : option string;
  calculation_timestamp : datetime
}.

(** A row of [assignment_history] ([create_assignment_log_entry]). *)
Record AssignmentLog : Type := {
  al_incident_number : string;
  al_assignment_group_id : string;
  al_assigned_member_id : string;
  al_assigned_member_name : string;
  al_incident_priority : option string;
  al_calculated_weights : WeightsSummary;
  al_workload_score : Q;
  al_role_score : Q;
  al_availability_score : Q;
  al_final_weight : Q;
  al_assignment_reason : string
}.

(** A row of [processing_log]. *)
Record ProcessingLog : Type := {
  pl_incident_number : string;
  pl_assignment_group_id : string;
  pl_stage : string;
  pl_level : string;
  pl_message : string
}.

(** The message of the queue: [format_incident_for_sqs]. *)
Record IncidentData : Type := {
  id_incident_number : string;
  id_assignment_group : string;
  id_priority : option string
}.

(** ** The world of the SaaS-workflow variant *)

Inductive Level : Type := INFO | WARNING | ERROR.

Inductive Call : Type :=
| SnGetGroup (name : string)
| SnGetGroupMembers (group_sys_id : string)
| SnGetUser (user_name : string)
| SnGetMemberIncidents (member_sys_id : string)
| SnFindIncident (number : string)
| SnPutIncident (sys_id member_sys_id : string)
| DbGetMembers (group : string)
| DbLogAssignment (row : AssignmentLog)
| DbLogProcessing (row : ProcessingLog).

Record World : Type := {
  w_now : datetime;                          (* the clock *)
  w_faults : list bool;                      (* failures of coming requests *)
  sn_groups : gmap string string;            (* sys_user_group: name -> sys_id *)
  sn_grmembers : gmap string (list GroupMember);
  sn_users : gmap string string;             (* sys_user: user_name -> sys_id *)
  sn_incidents : list Incident;              (* the incident table *)
  db_members : list MemberData;              (* member_data *)
  db_history : list AssignmentLog;           (* assignment_history *)
  db_processing : list ProcessingLog;        (* processing_log *)
  w_calls : list (Call * bool);              (* requests issued and whether
                                                they were served, newest first *)
  w_log : list (Level * string)              (* logger output, newest first *)
}.

Definition set_faults (f : list bool) (w : World) : World :=
  {| w_now := w_now w; w_faults := f; sn_groups := sn_groups w;
     sn_grmembers := sn_grmembers w; sn_users := sn_users w;
     sn_incidents := sn_incidents w; db_members := db_members w;
     db_history := db_history w; db_processing := db_processing w;
     w_calls := w_calls w; w_log := w_log w |}.

Definition set_incidents (i : list Incident) (w : World) : World :=
  {| w_now := w_now w; w_faults := w_faults w; sn_groups := sn_groups w;
     sn_grmembers := sn_grmembers w; sn_users := sn_users w;
     sn_incidents := i; db_members := db_members w;
     db_history := db_history w; db_processing := db_processing w;
     w_calls := w_calls w; w_log := w_log w |}.

Definition set_history (h : list AssignmentLog) (w : World) : World :=
  {| w_now := w_now w; w_faults := w_faults w; sn_groups := sn_groups w;
     sn_grmembers := sn_grmembers w; sn_users := sn_users w;
     sn_incidents := sn_incidents w; db_members := db_members w;
     db_history := h; db_processing := db_processing w;
     w_calls := w_calls w; w_log := w_log w |}.

Definition set_processing (p : list ProcessingLog) (w : World) : World :=
  {| w_now := w_now w; w_faults := w_faults w; sn_groups := sn_groups w;
     sn_grmembers := sn_grmembers w; sn_users := sn_users w;
     sn_incidents := sn_incidents w; db_members := db_members w;
     db_history := db_history w; db_processing := p;
     w_calls := w_calls w; w_log := w_log w |}.

Definition set_calls (c : list (Call * bool)) (w : World) : World :=
  {| w_now := w_now w; w_faults := w_faults w; sn_groups := sn_groups w;
     sn_grmembers := sn_grmembers w; sn_users := sn_users w;
     sn_incidents := sn_incidents w; db_members := db_members w;
     db_history := db_history w; db_processing := db_processing w;
     w_calls := c; w_log := w_log w |}.

Definition set_log (l : list (Level * string)) (w : World) : World :=
  {| w_now := w_now w; w_faults := w_faults w; sn_groups := sn_groups w;
     sn_grmembers := sn_grmembers w; sn_users := sn_users w;
     sn_incidents := sn_incidents w; db_members := db_members w;
     db_history := db_history w; db_processing := db_processing w;
     w_calls := w_calls w; w_log := l |}.

(** [logger.warning(msg)] and the like *)
Definition logger (lvl : Level) (msg : string) : Eff World unit :=
  fun w => (Ok tt, set_log ((lvl, msg) :: w_log w) w).

(** [datetime.now()] *)
Definition datetime_now : Eff World datetime := fun w => (Ok (w_now w), w).

(** One request to an external system: it is recorded, and it fails when the
    script says so. *)
Definition request (c : Call) (failure : exn) : Eff World unit :=
  fun w =>
    match w_faults w with
    | true :: rest =>
        (Raise failure, set_faults rest (set_calls ((c, false) :: w_calls w) w))
    | false :: rest =>
        (Ok tt, set_faults rest (set_calls ((c, true) :: w_calls w) w))
    | [] => (Ok tt, set_calls ((c, true) :: w_calls w) w)
    end.

(** ** [weight_calculator.py] *)

(** [str.upper] on the ASCII letters *)
Definition upper_ascii (c : ascii) : ascii :=
  let n := nat_of_ascii c in
  if ((97 <=? n) && (n <=? 122))%nat then ascii_of_nat (n - 32) else c.

Fixpoint upper (s : string) : string :=
  match s with
  | EmptyString => EmptyString
  | String c s' => String (upper_ascii c) (upper s')
  end.

Definition priority_weight (incident : Incident) : Q :=
  let p := default "4"%string (priority incident) in
  default 1.0%Q (PRIORITY_WEIGHTS !! p).

(** The loop of [_calculate_workload_score] *)
Definition weighted_count (current_incidents : list Incident) : Q :=
  fold_left (fun acc incident => (acc + priority_weight incident)%Q)
            current_incidents 0.0%Q.

Definition _calculate_workload_score (current_incidents : list Incident) : Q :=
  match current_incidents with
  | [] => 1.0%Q
  | _ => (1.0 / (1.0 + weighted_count current_incidents * 0.5))%Q
  end.

(** [experience_level * 0.02] raises [TypeError] on a NULL column. *)
Definition _calculate_role_score (role : string) (experience_level : option Z)
  : result Q :=
  let base_multiplier := default 1.0%Q (ROLE_MULTIPLIERS !! upper role) in
  match experience_level with
  | None =>
      Raise (TypeError
               "unsupported operand type(s) for *: 'NoneType' and 'float'")
  | Some n =>
      let experience_bonus := py_min (inject_Z n * 0.02)%Q 0.2%Q in
      Ok (base_multiplier * (1.0 + experience_bonus))%Q
  end.

Definition _is_time_in_shift (current_time shift_start shift_end : time)
  : bool :=
  if time_leb shift_start shift_end
  then time_leb shift_start current_time && time_leb current_time shift_end
  else time_geb current_time shift_start || time_leb current_time shift_end.

(** The first half of [_calculate_shift_proximity]:
    [(distance_to_start, distance_to_end)] after the day-crossing
    adjustment. *)
Definition shift_distances (current_time shift_start shift_end : time)
  : Z * Z :=
  let current_minutes := hour current_time * 60 + minute current_time in
  let start_minutes := hour shift_start * 60 + minute shift_start in
  let end_minutes := hour shift_end * 60 + minute shift_end in
  let '(end_minutes, current_minutes) :=
    if start_minutes >? end_minutes
    then (end_minutes + 24 * 60,
          if current_minutes <? start_minutes
          then current_minutes + 24 * 60 else current_minutes)
    else (end_minutes, current_minutes) in
  (Z.abs (current_minutes - start_minutes),
   Z.abs (current_minutes - end_minutes)).

Definition _calculate_shift_proximity
  (current_time shift_start shift_end : time) : Q :=
  let '(distance_to_start, distance_to_end) :=
    shift_distances current_time shift_start shift_end in
  let min_distance := Z.min distance_to_start distance_to_end in
  let max_distance := 4 * 60 in
  py_max 0.1%Q (1.0 - inject_Z min_distance / inject_Z max_distance)%Q.

Section WeightCalculator.
Context `{Runtime} `{Config}.
Local Open Scope eff_scope.

Definition _calculate_availability_score (member : MemberData)
  : Eff World Q :=
  now1 <- datetime_now ;;
  now2 <- datetime_now ;;
  let current_time := time_of now1 in
  let current_day := weekday now2 in
  let is_weekend := current_day >=? 5 in
  if is_weekend && negb (weekend_shift_flag member) then ret 0.1%Q
  else
    match fromisoformat (shift_start member),
          fromisoformat (shift_end member) with
    | Some shift_start, Some shift_end =>
        if _is_time_in_shift current_time shift_start shift_end
        then ret 1.0%Q
        else ret (_calculate_shift_proximity current_time shift_start
                                             shift_end)
    | _, _ =>
        logger WARNING
          ("Invalid shift time format for member " +:+ member_id member) ;;;
        ret 0.5%Q
    end.

(** The body of the [try] in the loop of [calculate_member_weights] *)
Definition score_member (member_workloads : gmap string (list Incident))
  (incident_priority : string) (member : MemberData)
  : Eff World MemberWeight :=
  let workload_score :=
    _calculate_workload_score
      (default [] (member_workloads !! member_id member)) in
  role_score <-
    lift (_calculate_role_score (role member) (experience_level member)) ;;
  availability_score <- _calculate_availability_score member ;;
  let final_weight :=
    (workload_score * WORKLOAD_WEIGHT + role_score * ROLE_WEIGHT
     + availability_score * AVAILABILITY_WEIGHT)%Q in
  ret {| mw_member_id := member_id member;
         mw_member_name := member_name member;
         workload_score := workload_score;
         role_score := role_score;
         availability_score := availability_score;
         final_weight := final_weight;
         calculation_details :=
           {| workload_incidents :=
                length (default [] (member_workloads !! member_id member));
              workload_score_raw := workload_score;
              role_score_raw := role_score;
              availability_score_raw := availability_score;
              weights_applied :=
                (WORKLOAD_WEIGHT, ROLE_WEIGHT, AVAILABILITY_WEIGHT);
              incident_priority := incident_priority;
              member_role := role member;
              member_experience := experience_level member |} |}.

(** The [for] loop: a member whose scoring raises is logged and skipped. *)
Fixpoint score_members (member_workloads : gmap string (list Incident))
  (incident_priority : string) (members : list MemberData)
  (member_weights : list MemberWeight) : Eff World (list MemberWeight) :=
  match members with
  | [] => ret member_weights
  | member :: rest =>
      member_weights' <-
        catch
          (mw <- score_member member_workloads incident_priority member ;;
           ret (member_weights ++ [mw]))
          (fun e =>
             Some (logger ERROR
                     ("Error calculating weight for member "
                      +:+ member_id member +:+ ": " +:+ exn_str e) ;;;
                   ret member_weights)) ;;
      score_members member_workloads incident_priority rest member_weights'
  end.

(** [key=lambda x: x.final_weight, reverse=True] *)
Definition by_weight_desc (x y : MemberWeight) : bool :=
  Qle_bool (final_weight y) (final_weight x).

Definition calculate_member_weights (available_members : list MemberData)
  (member_workloads : gmap string (list Incident))
  (incident_priority : string) : Eff World (list MemberWeight) :=
  match available_members with
  | [] =>
      raise (WeightCalculationError
               "No available members to calculate weights for")
  | _ =>
      member_weights <-
        score_members member_workloads incident_priority available_members
                      [] ;;
      match member_weights with
      | [] =>
          raise (WeightCalculationError
                   "Failed to calculate weights for any members")
      | _ => ret (sort_stable by_weight_desc member_weights)
      end
  end.

Definition reason_parts (best_member : MemberWeight) : list string :=
  [ if Qlt_bool 0.8 (workload_score best_member)
    then "low current workload"%string
    else if Qlt_bool 0.5 (workload_score best_member)
         then "moderate workload"%string
         else "manageable workload"%string ]
  ++ (if Qlt_bool 1.2 (role_score best_member)
      then ["high experience level"%string]
      else if Qlt_bool 1.0 (role_score best_member)
           then ["suitable experience"%string]
           else [])
  ++ (if Qlt_bool 0.9 (availability_score best_member)
      then ["currently available"%string]
      else if Qlt_bool 0.5 (availability_score best_member)
           then ["partially available"%string]
           else []).

Definition select_best_member (member_weights : list MemberWeight)
  : Eff World (MemberWeight * string) :=
  match member_weights with
  | [] =>
      raise (WeightCalculationError "No member weights provided for selection")
  | best_member :: _ =>
      let assignment_reason :=
        "Selected " +:+ mw_member_name best_member +:+ " due to: "
        +:+ String.concat ", " (reason_parts best_member)
        +:+ ". Final weight: " +:+ format_4f (final_weight best_member) in
      ret (best_member, assignment_reason)
  end.

(** One entry of [weight_distribution] *)
Definition weight_row (weight : MemberWeight) : WeightRow :=
  {| wr_member_id := mw_member_id weight;
     wr_member_name := mw_member_name weight;
     wr_final_weight := final_weight weight;
     wr_workload_score := workload_score weight;
     wr_role_score := role_score weight;
     wr_availability_score := availability_score weight |}.

Definition get_weights_summary (member_weights : list MemberWeight)
  : Eff World WeightsSummary :=
  now <- datetime_now ;;
  ret {| total_members_evaluated := length member_weights;
         weight_distribution := map weight_row member_weights;
         selected_member := option_map mw_member_id (head member_weights);
         calculation_timestamp := now |}.

End WeightCalculator.

(** ** Availability filters: [assignment_processor.py] and [utils.py] *)

Section AvailabilityFilter.
Context `{Runtime} `{Config}.
Local Open Scope eff_scope.

Definition is_member_currently_available (member : MemberData)
  (current_time : datetime) : Eff World bool :=
  let is_weekend := weekday current_time >=? 5 in
  if is_weekend && negb (weekend_shift_flag member) then ret false
  else
    match fromisoformat (shift_start member),
          fromisoformat (shift_end member) with
    | Some shift_start, Some shift_end =>
        let current_time_only := time_of current_time in
        let in_shift :=
          if time_leb shift_start shift_end
          then time_leb shift_start current_time_only
               && time_leb current_time_only shift_end
          else time_geb current_time_only shift_start
               || time_leb current_time_only shift_end in
        if negb in_shift
        then
          availability_score <- _calculate_availability_score member ;;
          if Qlt_bool availability_score 0.3 then ret false else ret true
        else ret true
    | _, _ =>
        logger WARNING
          ("Invalid shift time format for member " +:+ member_id member) ;;;
        ret true
    end.

End AvailabilityFilter.

(** [utils.filter_available_members] works on dictionaries: a key may be
    absent, and [.get] then supplies the default. *)
Record MemberDict : Type := {
  md_member_id : string;
  md_is_active : option bool;
  md_weekend_shift_flag : option bool
}.

Definition filter_available_members (members : list MemberDict)
  (current_time : option datetime) : Eff World (list MemberDict) :=
  bind (match current_time with
        | None => datetime_now
        | Some t => ret t
        end)
       (fun current_time =>
          ret (List.filter
                 (fun member =>
                    if negb (default true (md_is_active member)) then false
                    else
                      let is_weekend := weekday current_time >=? 5 in
                      if is_weekend
                         && negb (default false (md_weekend_shift_flag member))
                      then false
                      else true)
                 members)).

(** ** An instance of the interpreter's functions, for the examples

    It reads exactly ["HH:MM"], the format [models.py] documents for the shift
    columns, and prints a rational with four decimals, rounding half to
    even. *)

Definition digit_of (c : ascii) : option Z :=
  let n := nat_of_ascii c in
  if ((48 <=? n) && (n <=? 57))%nat then Some (Z.of_nat (n - 48)) else None.

Definition parse_hhmm (s : string) : option time :=
  match s with
  | String a (String b (String ":" (String c (String d EmptyString)))) =>
      match digit_of a, digit_of b, digit_of c, digit_of d with
      | Some a, Some b, Some c, Some d =>
          let h := a * 10 + b in
          let m := c * 10 + d in
          if (h <? 24) && (m <? 60) then Some (Time h m 0 0) else None
      | _, _, _, _ => None
      end
  | _ => None
  end.

Definition round_half_even (q : Q) : Z :=
  let f := Qfloor q in
  let r := (q - inject_Z f)%Q in
  if Qlt_bool r (1 # 2) then f
  else if Qlt_bool (1 # 2) r then f + 1
       else if Z.even f then f else f + 1.

Definition pad4 (s : string) : string :=
  match String.length s with
  | 0%nat => "0000" +:+ s
  | 1%nat => "000" +:+ s
  | 2%nat => "00" +:+ s
  | 3%nat => "0" +:+ s
  | _ => s
  end.

Definition print_4f (q : Q) : string :=
  let n := round_half_even (q * 10000)%Q in
  let a := Z.abs n in
  (if n <? 0 then "-" else "") +:+ pretty (a / 10000) +:+ "."
  +:+ pad4 (pretty (a mod 10000)).

Definition example_runtime : Runtime :=
  {| fromisoformat := parse_hhmm; format_4f := print_4f |}.

(** The defaults of [config.py] *)
Definition default_config : Config :=
  {| WORKLOAD_WEIGHT := 0.4; ROLE_WEIGHT := 0.3; AVAILABILITY_WEIGHT := 0.3 |}.

(** ** [servicenow_client.py] *)

Section Saas.
Context `{Runtime} `{Config}.
Local Open Scope eff_scope.

(** [_make_request]: a failed request is logged and raised as
    [ServiceNowError]. *)
Definition _make_request (c : Call) : Eff World unit :=
  catch (request c (ServiceNowError "API request failed"))
        (fun e =>
           Some (logger ERROR "ServiceNow API request failed" ;;; raise e)).

Definition get_group_members (assignment_group_name : string)
  : Eff World (list GroupMember) :=
  _make_request (SnGetGroup assignment_group_name) ;;;
  w <- get_world ;;
  match sn_groups w !! assignment_group_name with
  | None =>
      logger WARNING
        ("Assignment group not found: " +:+ assignment_group_name) ;;;
      ret []
  | Some group_sys_id =>
      _make_request (SnGetGroupMembers group_sys_id) ;;;
      w <- get_world ;;
      ret (default [] (sn_grmembers w !! group_sys_id))
  end.

(** [state!=6^state!=7^state!=8] *)
Definition open_state (i : Incident) : bool :=
  negb (String.eqb (state i) "6") && negb (String.eqb (state i) "7")
  && negb (String.eqb (state i) "8").

Definition get_member_incidents (member_sys_id : string)
  : Eff World (list Incident) :=
  _make_request (SnGetMemberIncidents member_sys_id) ;;;
  w <- get_world ;;
  ret (List.filter
         (fun i => String.eqb (assigned_to i) member_sys_id && open_state i)
         (sn_incidents w)).

(** The [PUT] of [assign_incident]: the row gets its holder and the state
    "In Progress". *)
Definition put_assignment (incident_sys_id member_sys_id : string)
  (table : list Incident) : list Incident :=
  map (fun i =>
         if String.eqb (sys_id i) incident_sys_id
         then {| sys_id := sys_id i; number := number i;
                 priority := priority i; state := "2";
                 assigned_to := member_sys_id |}
         else i) table.

Definition assign_incident (incident_number member_sys_id : string)
  : Eff World bool :=
  _make_request (SnFindIncident incident_number) ;;;
  w <- get_world ;;
  match List.filter (fun i => String.eqb (number i) incident_number)
                    (sn_incidents w) with
  | [] =>
      logger ERROR ("Incident not found: " +:+ incident_number) ;;;
      ret false
  | incident :: _ =>
      let incident_sys_id := sys_id incident in
      catch
        (_make_request (SnPutIncident incident_sys_id member_sys_id) ;;;
         modify (fun w =>
                   set_incidents
                     (put_assignment incident_sys_id member_sys_id
                                     (sn_incidents w)) w) ;;;
         logger INFO
           ("Successfully assigned incident " +:+ incident_number +:+ " to "
            +:+ member_sys_id) ;;;
         ret true)
        (fun e =>
           match e with
           | ServiceNowError _ =>
               Some (logger ERROR
                       ("Failed to assign incident " +:+ incident_number) ;;;
                     ret false)
           | _ => None
           end)
  end.

Definition get_user_by_username (username : string)
  : Eff World (option string) :=
  _make_request (SnGetUser username) ;;;
  w <- get_world ;;
  ret (sn_users w !! username).

(** ** [database.py] *)

(** [get_session]: a failure inside the session is logged, rolled back and
    raised as [DatabaseError]. *)
Definition db_request (c : Call) : Eff World unit :=
  catch (request c (DatabaseError "Database operation failed"))
        (fun e => Some (logger ERROR "Database session error" ;;; raise e)).

Definition get_members_by_group (group : string)
  : Eff World (list MemberData) :=
  db_request (DbGetMembers group) ;;;
  w <- get_world ;;
  ret (List.filter
         (fun m => String.eqb (assignment_group_id m) group && is_active m)
         (db_members w)).

Definition log_assignment (assignment_data : AssignmentLog)
  : Eff World unit :=
  db_request (DbLogAssignment assignment_data) ;;;
  modify (fun w => set_history (assignment_data :: db_history w) w).

Definition log_processing (incident_number assignment_group_id stage level
                           message : string) : Eff World unit :=
  let row := {| pl_incident_number := incident_number;
                pl_assignment_group_id := assignment_group_id;
                pl_stage := stage; pl_level := level;
                pl_message := message |} in
  db_request (DbLogProcessing row) ;;;
  modify (fun w => set_processing (row :: db_processing w) w).

(** ** [assignment_processor.py] *)

Definition get_group_members_from_servicenow (assignment_group : string)
  : Eff World (list GroupMember) :=
  catch (get_group_members assignment_group)
        (fun e =>
           match e with
           | ServiceNowError _ =>
               Some (logger ERROR
                       "Failed to get group members from ServiceNow" ;;;
                     raise e)
           | _ => None
           end).

(** The second loop of [get_available_members] *)
Fixpoint filter_currently_available (members : list MemberData)
  (current_time : datetime) : Eff World (list MemberData) :=
  match members with
  | [] => ret []
  | member :: rest =>
      available <- is_member_currently_available member current_time ;;
      filtered <- filter_currently_available rest current_time ;;
      ret (if (available : bool) then member :: filtered else filtered)
  end.

Definition get_available_members (assignment_group : string)
  (servicenow_members : list GroupMember) : Eff World (list MemberData) :=
  catch
    (db_members <- get_members_by_group assignment_group ;;
     match db_members with
     | [] =>
         logger WARNING
           ("No members found in database for group " +:+ assignment_group) ;;;
         ret []
     | _ =>
         let servicenow_member_ids := map user_user_name servicenow_members in
         let available_members :=
           List.filter
             (fun m => existsb (String.eqb (member_id m)) servicenow_member_ids)
             db_members in
         current_time <- datetime_now ;;
         filter_currently_available available_members current_time
     end)
    (fun e =>
       match e with
       | DatabaseError _ =>
           Some (logger ERROR "Database error getting available members" ;;;
                 raise e)
       | _ => None
       end).

Fixpoint get_member_workloads (available_members : list MemberData)
  (member_workloads : gmap string (list Incident))
  : Eff World (gmap string (list Incident)) :=
  match available_members with
  | [] => ret member_workloads
  | member :: rest =>
      member_workloads' <-
        catch
          (user <- get_user_by_username (member_id member) ;;
           match user with
           | None =>
               logger WARNING
                 ("Could not find ServiceNow user for " +:+ member_id member) ;;;
               ret (<[member_id member := []]> member_workloads)
           | Some user_sys_id =>
               incidents <- get_member_incidents user_sys_id ;;
               ret (<[member_id member := incidents]> member_workloads)
           end)
          (fun e =>
             match e with
             | ServiceNowError _ =>
                 Some (logger ERROR
                         ("Failed to get workload for member "
                          +:+ member_id member) ;;;
                       ret (<[member_id member := []]> member_workloads))
             | _ => None
             end) ;;
      get_member_workloads rest member_workloads'
  end.

Definition find_servicenow_member (servicenow_members : list GroupMember)
  (member_id : string) : option GroupMember :=
  List.find (fun m => String.eqb (user_user_name m) member_id)
            servicenow_members.

Definition assign_incident_to_member (incident_number member_sys_id : string)
  : Eff World bool :=
  catch (assign_incident incident_number member_sys_id)
        (fun e =>
           match e with
           | ServiceNowError _ =>
               Some (logger ERROR
                       ("Failed to assign incident " +:+ incident_number) ;;;
                     ret false)
           | _ => None
           end).

(** [utils.create_assignment_log_entry] *)
Definition create_assignment_log_entry (incident_data : IncidentData)
  (selected_member : MemberWeight) (weight_details : WeightsSummary)
  (assignment_reason : string) : AssignmentLog :=
  {| al_incident_number := id_incident_number incident_data;
     al_assignment_group_id := id_assignment_group incident_data;
     al_assigned_member_id := mw_member_id selected_member;
     al_assigned_member_name := mw_member_name selected_member;
     al_incident_priority := id_priority incident_data;
     al_calculated_weights := weight_details;
     al_workload_score := workload_score selected_member;
     al_role_score := role_score selected_member;
     al_availability_score := availability_score selected_member;
     al_final_weight := final_weight selected_member;
     al_assignment_reason := assignment_reason |}.

Definition log_assignment_decision (incident_data : IncidentData)
  (selected_member : MemberWeight) (member_weights : list MemberWeight)
  (assignment_reason : string) : Eff World unit :=
  catch
    (weight_summary <- get_weights_summary member_weights ;;
     let assignment_log :=
       create_assignment_log_entry incident_data selected_member
                                   weight_summary assignment_reason in
     log_assignment assignment_log ;;;
     log_processing (id_incident_number incident_data)
                    (id_assignment_group incident_data)
                    "ASSIGN" "INFO" "Assignment completed successfully" ;;;
     logger INFO
       ("Assignment decision logged for incident "
        +:+ id_incident_number incident_data))
    (fun e =>
       match e with
       | DatabaseError _ =>
           Some (logger ERROR "Failed to log assignment decision")
       | _ => None
       end).

Definition process_incident_assignment (incident_data : IncidentData)
  : Eff World bool :=
  let incident_number := id_incident_number incident_data in
  let assignment_group := id_assignment_group incident_data in
  catch
    (log_processing incident_number assignment_group "ASSIGN" "INFO"
                    "Starting assignment processing" ;;;
     servicenow_members <-
       get_group_members_from_servicenow assignment_group ;;
     match servicenow_members with
     | [] =>
         logger WARNING
           ("No members found in ServiceNow for group "
            +:+ assignment_group) ;;;
         ret false
     | _ =>
         available_members <-
           get_available_members assignment_group servicenow_members ;;
         match available_members with
         | [] =>
             raise (NoAvailableMembersError
                      ("No available members for group "
                       +:+ assignment_group))
         | _ =>
             member_workloads <- get_member_workloads available_members ∅ ;;
             member_weights <-
               calculate_member_weights
                 available_members member_workloads
                 (default "4"%string (id_priority incident_data)) ;;
             sel <- select_best_member member_weights ;;
             let '(selected_member, assignment_reason) := sel in
             match find_servicenow_member servicenow_members
                                          (mw_member_id selected_member) with
             | None =>
                 logger ERROR
                   ("Could not find ServiceNow user for member "
                    +:+ mw_member_id selected_member) ;;;
                 ret false
             | Some servicenow_member =>
                 assignment_success <-
                   assign_incident_to_member
                     incident_number (user_sys_id servicenow_member) ;;
                 if (assignment_success : bool)
                 then
                   log_assignment_decision incident_data selected_member
                                           member_weights assignment_reason ;;;
                   logger INFO
                     ("Successfully assigned incident " +:+ incident_number
                      +:+ " to " +:+ mw_member_name selected_member) ;;;
                   ret true
                 else
                   logger ERROR
                     ("Failed to assign incident " +:+ incident_number
                      +:+ " in ServiceNow") ;;;
                   ret false
             end
         end
     end)
    (fun e =>
       Some
         (match e with
          | NoAvailableMembersError _ =>
              logger WARNING
                ("No available members for incident " +:+ incident_number
                 +:+ ": " +:+ exn_str e) ;;;
              log_processing incident_number assignment_group "ASSIGN"
                             "WARNING" "No available members for assignment"
          | WeightCalculationError _ =>
              logger ERROR
                ("Weight calculation failed for incident "
                 +:+ incident_number +:+ ": " +:+ exn_str e) ;;;
              log_processing incident_number assignment_group "CALCULATE"
                             "ERROR" "Weight calculation failed"
          | ServiceNowError _ =>
              logger ERROR
                ("ServiceNow error for incident " +:+ incident_number
                 +:+ ": " +:+ exn_str e) ;;;
              log_processing incident_number assignment_group "ASSIGN"
                             "ERROR" "ServiceNow assignment failed"
          | _ =>
              logger ERROR
                ("Unexpected error processing incident "
                 +:+ incident_number +:+ ": " +:+ exn_str e) ;;;
              log_processing incident_number assignment_group "ASSIGN"
                             "ERROR" "Unexpected processing error"
          end ;;;
          ret false)).

End Saas.

(** ** [processor.py]: the queue-worker variant *)

Module Processor.
Local Open Scope eff_scope.

Definition PRIORITY_WEIGHT : gmap string Q :=
  list_to_map
    [("1"%string, 6.0%Q); ("2"%string, 3.0%Q); ("3"%string, 1.0%Q);
     ("4"%string, 0.5%Q); ("5"%string, 0.5%Q)].

Definition SEVERITY_MULT : gmap string Q :=
  list_to_map [("1"%string, 1.3%Q); ("2"%string, 1.1%Q); ("3"%string, 1.0%Q)].

Definition ROLE_MULT : gmap string Q :=
  list_to_map
    [("L1"%string, 1.20%Q); ("L2"%string, 1.00%Q); ("L3"%string, 0.90%Q);
     ("SME"%string, 0.85%Q)].

(** A row of the ServiceNow [incident] table.  [opened_at] is the parsed
    creation time in seconds, [None] when both parsers of
    [compute_base_workload] reject the string. *)
Record Incident : Type := {
  sys_id : string;
  number : string;
  assigned_to : string;
  active : bool;
  priority : option string;
  severity : option string;
  opened_at : option Z
}.

(** A row of [MEMBER_DATA] *)
Record MemberRow : Type := {
  member_sys_id : string;
  member_name : option string;
  role : option string;
  weight_modifier : option Q;
  assignment_group_sys_id : string;
  row_active : bool;
  shift_days : option string;
  weekend_shift_flag : bool;
  shift_start_time : option time;
  shift_end_time : option time
}.

Record Score : Type := {
  s_member_sys_id : string;
  s_member_name : option string;
  base_workload : Q;
  role_mult : Q;
  weight_mod : Q;
  recent_count : Z;
  final_weight : Q
}.

Record Snapshot : Type := { scores : list Score; chosen : string }.

(** A value as the [INSERT] of [record_assignment_history] hands it to a
    column: the result of [NOW()] or a text. *)
Inductive SqlValue : Type :=
| SqlNow (seconds : Z)
| SqlText (s : string).

(** A row of [ASSIGNMENT_HISTORY], column by column. *)
Record HistoryRow : Type := {
  h_incident_sys_id : string;
  h_incident_number : string;
  h_assigned_to_member_sys_id : SqlValue;
  h_assignment_timestamp : SqlValue;
  h_algorithm_snapshot : Snapshot;
  h_success : bool;
  h_created_by : string
}.

(** The body of a queue message, after [json.loads].  [opened_at] is [None]
    when the field is absent or empty, [Some None] when
    [datetime.fromisoformat] rejects it. *)
Record Message : Type := {
  m_sys_id : string;
  m_number : string;
  m_assignment_group_sys_id : string;
  m_opened_at : option (option datetime)
}.

Inductive Call : Type :=
| GetIncident (incident_sys_id : string) (reply : option Incident)
| GetGroupMembers (group_sys_id : string)
| SelectMemberRows (member_ids : list string) (group_sys_id : string)
| GetAssignedIncidents (member_sys_id : string)
| CountRecentAssignments (member_sys_id : string)
| PatchIncident (incident_sys_id member_sys_id : string)
| InsertHistory (row : HistoryRow).

(** What happens when the next request reaches its server: it is served, it
    fails, or another writer first sets the holder of an incident and the
    request is then served. *)
Inductive Turn : Type :=
| Serve
| Fail
| Race (incident_sys_id holder : string).

Record World : Type := {
  utcnow : datetime;
  utcnow_seconds : Z;
  turns : list Turn;
  randoms : list Q;                       (* coming values of random.random() *)
  MAX_CANDIDATES : nat;
  incident_table : list Incident;
  grmember_table : list (string * option string);
  member_data : list MemberRow;
  history : list HistoryRow;
  calls : list (Call * bool);             (* newest first *)
  log : list (Level * string)             (* newest first *)
}.

Definition set_turns (t : list Turn) (w : World) : World :=
  {| utcnow := utcnow w; utcnow_seconds := utcnow_seconds w; turns := t;
     randoms := randoms w; MAX_CANDIDATES := MAX_CANDIDATES w;
     incident_table := incident_table w; grmember_table := grmember_table w;
     member_data := member_data w; history := history w; calls := calls w;
     log := log w |}.

Definition set_randoms (r : list Q) (w : World) : World :=
  {| utcnow := utcnow w; utcnow_seconds := utcnow_seconds w;
     turns := turns w; randoms := r; MAX_CANDIDATES := MAX_CANDIDATES w;
     incident_table := incident_table w; grmember_table := grmember_table w;
     member_data := member_data w; history := history w; calls := calls w;
     log := log w |}.

Definition set_incident_table (t : list Incident) (w : World) : World :=
  {| utcnow := utcnow w; utcnow_seconds := utcnow_seconds w;
     turns := turns w; randoms := randoms w;
     MAX_CANDIDATES := MAX_CANDIDATES w; incident_table := t;
     grmember_table := grmember_table w; member_data := member_data w;
     history := history w; calls := calls w; log := log w |}.

Definition set_history (h : list HistoryRow) (w : World) : World :=
  {| utcnow := utcnow w; utcnow_seconds := utcnow_seconds w;
     turns := turns w; randoms := randoms w;
     MAX_CANDIDATES := MAX_CANDIDATES w; incident_table := incident_table w;
     grmember_table := grmember_table w; member_data := member_data w;
     history := h; calls := calls w; log := log w |}.

Definition set_calls (c : list (Call * bool)) (w : World) : World :=
  {| utcnow := utcnow w; utcnow_seconds := utcnow_seconds w;
     turns := turns w; randoms := randoms w;
     MAX_CANDIDATES := MAX_CANDIDATES w; incident_table := incident_table w;
     grmember_table := grmember_table w; member_data := member_data w;
     history := history w; calls := c; log := log w |}.

Definition set_log (l : list (Level * string)) (w : World) : World :=
  {| utcnow := utcnow w; utcnow_seconds := utcnow_seconds w;
     turns := turns w; randoms := randoms w;
     MAX_CANDIDATES := MAX_CANDIDATES w; incident_table := incident_table w;
     grmember_table := grmember_table w; member_data := member_data w;
     history := history w; calls := calls w; log := l |}.

Definition logger (lvl : Level) (msg : string) : Eff World unit :=
  fun w => (Ok tt, set_log ((lvl, msg) :: log w) w).

Definition find_incident (incident_sys_id : string) (table : list Incident)
  : option Incident :=
  List.find (fun i => String.eqb (sys_id i) incident_sys_id) table.

Definition set_holder (incident_sys_id holder : string)
  (table : list Incident) : list Incident :=
  map (fun i =>
         if String.eqb (sys_id i) incident_sys_id
         then {| sys_id := sys_id i; number := number i;
                 assigned_to := holder; active := active i;
                 priority := priority i; severity := severity i;
                 opened_at := opened_at i |}
         else i) table.

(** A concurrent writer assigns; it does not clear a holder. *)
Definition interfere (t : Turn) (table : list Incident) : list Incident :=
  match t with
  | Race incident_sys_id holder =>
      if String.eqb holder "" then table
      else set_holder incident_sys_id holder table
  | _ => table
  end.

(** One request.  The turn of the script is consumed, the interference it
    names is applied, and the request is served unless the turn is [Fail] or
    the server rejects it ([accepts] is false on the table it finds). *)
Definition request (c : list Incident -> Call)
  (accepts : list Incident -> bool) (failure : exn) : Eff World unit :=
  fun w =>
    let '(t, rest) :=
      match turns w with
      | [] => (Serve, [])
      | t :: rest => (t, rest)
      end in
    let table := interfere t (incident_table w) in
    let served :=
      match t with Fail => false | _ => accepts table end in
    let w' :=
      set_calls ((c table, served) :: calls w)
                (set_incident_table table (set_turns rest w)) in
    if served then (Ok tt, w') else (Raise failure, w').

Definition always (table : list Incident) : bool := true.

(** [x or d] on an optional string *)
Definition str_or (x : option string) (d : string) : string :=
  match x with
  | Some s => if String.eqb s "" then d else s
  | None => d
  end.

Definition truthy (s : string) : bool := negb (String.eqb s "").

Fixpoint dedupe (l : list string) : list string :=
  match l with
  | [] => []
  | x :: l' => if existsb (String.eqb x) l' then dedupe l' else x :: dedupe l'
  end.

(** [list(set(...))]: the order Python gives the set is not specified; the
    model keeps the last occurrence of each member. *)
Definition fetch_group_members_from_servicenow (group_sys_id : string)
  : Eff World (list string) :=
  request (fun _ => GetGroupMembers group_sys_id) always
          (HTTPError "sys_user_grmember") ;;;
  w <- get_world ;;
  let rows :=
    List.filter (fun r => String.eqb (fst r) group_sys_id)
                (grmember_table w) in
  let members := map snd rows in
  ret (dedupe (omap (fun m => match m with
                              | Some u => if truthy u then Some u else None
                              | None => None
                              end) members)).

(** [strftime('%a')] *)
Definition weekday_name (d : Z) : string :=
  nth (Z.to_nat d) ["Mon"; "Tue"; "Wed"; "Thu"; "Fri"; "Sat"; "Sun"]%string
      ""%string.

(** [weekday in shift_days] on strings *)
Definition contains (needle haystack : string) : bool :=
  match String.index 0 needle haystack with
  | Some _ => true
  | None => false
  end.

(** The shift filter in the loop of [fetch_member_rows_from_db] *)
Definition row_in_shift (incident_local : datetime) (r : MemberRow) : bool :=
  let incident_time := time_of incident_local in
  let weekday_ := weekday_name (weekday incident_local) in
  let shift_days_ := default ""%string (shift_days r) in
  if negb (contains weekday_ shift_days_) then false
  else
    match shift_start_time r, shift_end_time r with
    | Some start_, Some end_ =>
        if time_leb start_ incident_time && time_leb incident_time end_
        then true
        else if negb (time_leb start_ end_)
             then time_geb incident_time start_
                  || time_leb incident_time end_
             else false
    | _, _ => false
    end.

Definition fetch_member_rows_from_db (member_ids : list string)
  (group_sys_id : string) (incident_dt : datetime)
  : Eff World (list MemberRow) :=
  match member_ids with
  | [] => ret []
  | _ =>
      request (fun _ => SelectMemberRows member_ids group_sys_id) always
              (OperationalError "MEMBER_DATA") ;;;
      w <- get_world ;;
      let rows :=
        List.filter
          (fun r =>
             existsb (String.eqb (member_sys_id r)) member_ids
             && String.eqb (assignment_group_sys_id r) group_sys_id
             && row_active r)
          (member_data w) in
      ret (List.filter (row_in_shift incident_dt) rows)
  end.

Definition fetch_assigned_incidents_for_member (member : string)
  : Eff World (list Incident) :=
  request (fun _ => GetAssignedIncidents member) always
          (HTTPError "incident") ;;;
  w <- get_world ;;
  ret (firstn 200
         (List.filter (fun i => String.eqb (assigned_to i) member && active i)
                      (incident_table w))).

Definition compute_base_workload (assigned_incidents : list Incident)
  (now_dt : Z) : Q :=
  fold_left
    (fun base inc =>
       let p := str_or (priority inc) "3" in
       let s := str_or (severity inc) "3" in
       let opened_dt := default now_dt (opened_at inc) in
       let age_hours :=
         py_max 0.0 (inject_Z (now_dt - opened_dt) / 3600.0)%Q in
       let age_factor := (1.0 + age_hours / 24.0)%Q in
       let p_weight := default 1.0%Q (PRIORITY_WEIGHT !! p) in
       let s_mult := default 1.0%Q (SEVERITY_MULT !! s) in
       let contrib := (p_weight * s_mult * age_factor)%Q in
       (base + contrib)%Q)
    assigned_incidents 0.0%Q.

Definition recent_row (member : string) (cutoff : Z) (h : HistoryRow) : bool :=
  match h_assigned_to_member_sys_id h, h_assignment_timestamp h with
  | SqlText m, SqlNow t => String.eqb m member && (cutoff <=? t)
  | _, _ => false
  end.

Definition get_recent_assignment_count (member : string) (hours : Z)
  : Eff World Z :=
  request (fun _ => CountRecentAssignments member) always
          (OperationalError "ASSIGNMENT_HISTORY") ;;;
  w <- get_world ;;
  ret (Z.of_nat
         (length (List.filter
                    (recent_row member (utcnow_seconds w - hours * 3600))
                    (history w)))).

(** [random.uniform(a, b)] is [a + (b - a) * random()]. *)
Definition random_uniform (a b : Q) : Eff World Q :=
  fun w =>
    match randoms w with
    | u :: rest => (Ok (a + (b - a) * u)%Q, set_randoms rest w)
    | [] => (Ok a, w)
    end.

(** The loop of [select_best_member] *)
Fixpoint score_candidates (candidates : list MemberRow) (now_dt : Z)
  (scores : list Score) : Eff World (list Score) :=
  match candidates with
  | [] => ret scores
  | c :: rest =>
      let member_id := member_sys_id c in
      let role := str_or (role c) "L2" in
      let weight_mod :=
        match weight_modifier c with
        | Some q => if Qeq_bool q 0 then 1.0%Q else q
        | None => 1.0%Q
        end in
      assigned <- fetch_assigned_incidents_for_member member_id ;;
      let base_workload := compute_base_workload assigned now_dt in
      recent_count <- get_recent_assignment_count member_id 24 ;;
      let role_mult := default 1.0%Q (ROLE_MULT !! role) in
      let final :=
        (base_workload * role_mult * weight_mod
         + 0.1 * inject_Z recent_count)%Q in
      jitter <- random_uniform 0 0.01 ;;
      let final := (final + jitter)%Q in
      score_candidates rest now_dt
        (scores ++ [ {| s_member_sys_id := member_id;
                        s_member_name := member_name c;
                        base_workload := base_workload;
                        role_mult := role_mult;
                        weight_mod := weight_mod;
                        recent_count := recent_count;
                        final_weight := final |} ])
  end.

(** [key=lambda x: x['final_weight']]: ascending *)
Definition by_weight_asc (x y : Score) : bool :=
  Qle_bool (final_weight x) (final_weight y).

Definition select_best_member (candidates : list MemberRow)
  (incident_info : Message) : Eff World (option string * list Score) :=
  w <- get_world ;;
  let now_dt := utcnow_seconds w in
  scores <- score_candidates candidates now_dt [] ;;
  match sort_stable by_weight_asc scores with
  | [] => ret (None, [])
  | best :: rest => ret (Some (s_member_sys_id best), best :: rest)
  end.

(** The [PATCH] of a row that does not exist is answered 404. *)
Definition assign_incident_to_member (incident_sys_id member : string)
  : Eff World unit :=
  request (fun _ => PatchIncident incident_sys_id member)
          (fun table =>
             match find_incident incident_sys_id table with
             | Some _ => true
             | None => false
             end)
          (HTTPError "incident") ;;;
  modify (fun w =>
            set_incident_table
              (set_holder incident_sys_id member (incident_table w)) w).

(** The statement names seven columns and gives [NOW()] third: the member
    lands in [assignment_timestamp] and the time in
    [assigned_to_member_sys_id]. *)
Definition record_assignment_history (incident_sys_id incident_number
  member : string) (snapshot : Snapshot) : Eff World unit :=
  w <- get_world ;;
  let row := {| h_incident_sys_id := incident_sys_id;
                h_incident_number := incident_number;
                h_assigned_to_member_sys_id := SqlNow (utcnow_seconds w);
                h_assignment_timestamp := SqlText member;
                h_algorithm_snapshot := snapshot;
                h_success := true;
                h_created_by := "lambda_processor" |} in
  request (fun _ => InsertHistory row) always
          (OperationalError "ASSIGNMENT_HISTORY") ;;;
  modify (fun w => set_history (row :: history w) w).

(** A missing row is answered with an empty result. *)
Definition confirm_incident_unassigned (incident_sys_id : string)
  : Eff World (option Incident) :=
  request (fun table =>
             GetIncident incident_sys_id
                         (find_incident incident_sys_id table))
          always (HTTPError "incident") ;;;
  w <- get_world ;;
  ret (find_incident incident_sys_id (incident_table w)).

(** [inc.get('assigned_to')] as a condition *)
Definition held (inc : option Incident) : bool :=
  match inc with
  | Some i => truthy (assigned_to i)
  | None => false
  end.

(** The end of the loop body of [lambda_handler], from the comment "final
    confirm and assign" on: post-check, commit, history row. *)
Definition confirm_and_assign (body : Message) (selected_member : string)
  (score_snapshot : list Score) : Eff World unit :=
  let incident_sys_id := m_sys_id body in
  let incident_number := m_number body in
  inc_latest <- confirm_incident_unassigned incident_sys_id ;;
  if held inc_latest
  then
    logger INFO
      ("Incident " +:+ incident_number
       +:+ " was assigned during processing, skipping")
  else
    assign_incident_to_member incident_sys_id selected_member ;;;
    let algorithm_snapshot :=
      {| scores := score_snapshot; chosen := selected_member |} in
    record_assignment_history incident_sys_id incident_number
                              selected_member algorithm_snapshot ;;;
    logger INFO
      ("Assigned incident " +:+ incident_number +:+ " to "
       +:+ selected_member).

(** The loop body up to there, once the pre-check found the incident
    unassigned: gather the candidates and pick one. *)
Definition gather_and_select (body : Message) : Eff World unit :=
  let incident_number := m_number body in
  let group_id := m_assignment_group_sys_id body in
  group_members <- fetch_group_members_from_servicenow group_id ;;
  match group_members with
  | [] => logger WARNING ("No members in group " +:+ group_id)
  | _ =>
      incident_dt <-
        match m_opened_at body with
        | None => (w <- get_world ;; ret (utcnow w))
        | Some None => raise (ValueError "Invalid isoformat string")
        | Some (Some dt) => ret dt
        end ;;
      member_rows <-
        fetch_member_rows_from_db group_members group_id incident_dt ;;
      match member_rows with
      | [] =>
          logger WARNING
            ("No available members in MEMBER_DATA for group " +:+ group_id)
      | _ =>
          w <- get_world ;;
          let candidates := firstn (MAX_CANDIDATES w) member_rows in
          sel <- select_best_member candidates body ;;
          let '(selected_member, score_snapshot) := sel in
          match selected_member with
          | Some selected_member =>
              if truthy selected_member
              then confirm_and_assign body selected_member score_snapshot
              else
                logger WARNING
                  ("No candidate selected for incident " +:+ incident_number)
          | None =>
              logger WARNING
                ("No candidate selected for incident " +:+ incident_number)
          end
      end
  end.

(** The body of the loop of [lambda_handler], for one record.  The source is
    one block; it is cut in three here at its own comments. *)
Definition process_record (body : Message) : Eff World unit :=
  let incident_sys_id := m_sys_id body in
  let incident_number := m_number body in
  catch
    (inc <- confirm_incident_unassigned incident_sys_id ;;
     match inc with
     | None =>
         logger WARNING
           ("Incident " +:+ incident_sys_id +:+ " not found, skipping")
     | Some _ =>
         if held inc
         then logger INFO ("Incident " +:+ incident_number
                           +:+ " already assigned, skipping")
         else gather_and_select body
     end)
    (fun e =>
       Some (logger ERROR
               ("Processing incident " +:+ incident_number +:+ " failed: "
                +:+ exn_str e))).

Fixpoint lambda_handler (records : list Message) : Eff World unit :=
  match records with
  | [] => ret tt
  | rec :: rest => process_record rec ;;; lambda_handler rest
  end.

End Processor.

(** ** [process_sqs_messages] and the queue functions of [utils.py]

    A request to SQS that fails raises [ClientError], which each of
    [receive_from_sqs] and [delete_sqs_message] catches on the spot; the
    request therefore answers whether it was served.  The payloads are the
    dictionaries [format_incident_for_sqs] writes. *)

(** The body of a message as [parse_sqs_message] and its caller see it *)
Inductive Body : Type :=
| Malformed                              (* no ['Body'], or not JSON *)
| Falsy                                  (* JSON that counts as false *)
| Payload (incident_data : IncidentData).

Record SqsMessage : Type := {
  sm_body : Body;
  sm_receipt_handle : string
}.

(** The [results] dictionary *)
Record Results : Type := {
  messages_processed : nat;
  assignments_successful : nat;
  assignments_failed : nat;
  errors : list string
}.

Inductive SqsCall : Type :=
| ReceiveMessage (max_messages : nat)
| DeleteMessage (receipt_handle : string).

(** One invocation: the world of the SaaS variant, the queue, and the
    [results] dictionary, which the loop updates in place. *)
Record Invocation : Type := {
  iv_world : World;
  iv_queue : list SqsMessage;
  iv_faults : list bool;                 (* failures of coming SQS requests *)
  iv_calls : list (SqsCall * bool);      (* newest first *)
  iv_results : Results
}.

Definition set_world (w : World) (s : Invocation) : Invocation :=
  {| iv_world := w; iv_queue := iv_queue s; iv_faults := iv_faults s;
     iv_calls := iv_calls s; iv_results := iv_results s |}.

Definition set_queue (q : list SqsMessage) (s : Invocation) : Invocation :=
  {| iv_world := iv_world s; iv_queue := q; iv_faults := iv_faults s;
     iv_calls := iv_calls s; iv_results := iv_results s |}.

Definition set_sqs (f : list bool) (c : list (SqsCall * bool))
  (s : Invocation) : Invocation :=
  {| iv_world := iv_world s; iv_queue := iv_queue s; iv_faults := f;
     iv_calls := c; iv_results := iv_results s |}.

Definition set_results (r : Results) (s : Invocation) : Invocation :=
  {| iv_world := iv_world s; iv_queue := iv_queue s; iv_faults := iv_faults s;
     iv_calls := iv_calls s; iv_results := r |}.

(** A computation of the SaaS variant, run inside an invocation *)
Definition in_world {A} (c : Eff World A) : Eff Invocation A :=
  fun s => let '(r, w') := c (iv_world s) in (r, set_world w' s).

Definition sqs_request (c : SqsCall) : Eff Invocation bool :=
  fun s =>
    match iv_faults s with
    | true :: rest => (Ok false, set_sqs rest ((c, false) :: iv_calls s) s)
    | false :: rest => (Ok true, set_sqs rest ((c, true) :: iv_calls s) s)
    | [] => (Ok true, set_sqs [] ((c, true) :: iv_calls s) s)
    end.

Section SqsLoop.
Context `{Runtime} `{Config}.
Local Open Scope eff_scope.

(** SQS hands out at most [max_messages] of the visible messages; the model
    hands out the first ones.  A message stays in the queue until it is
    deleted. *)
Definition receive_from_sqs (max_messages : nat)
  : Eff Invocation (list SqsMessage) :=
  served <- sqs_request (ReceiveMessage max_messages) ;;
  if (served : bool)
  then s <- get_world ;; ret (firstn max_messages (iv_queue s))
  else in_world (logger ERROR "Failed to receive messages from SQS") ;;;
       ret [].

Definition delete_sqs_message (receipt_handle : string)
  : Eff Invocation bool :=
  served <- sqs_request (DeleteMessage receipt_handle) ;;
  if (served : bool)
  then modify (fun s =>
                 set_queue
                   (List.filter
                      (fun m => negb (String.eqb (sm_receipt_handle m)
                                                 receipt_handle))
                      (iv_queue s)) s) ;;;
       ret true
  else in_world (logger ERROR "Failed to delete message from SQS") ;;;
       ret false.

Definition parse_sqs_message (message : SqsMessage)
  : Eff Invocation (option IncidentData) :=
  match sm_body message with
  | Malformed =>
      in_world (logger ERROR "Failed to parse SQS message") ;;; ret None
  | Falsy => ret None
  | Payload incident_data => ret (Some incident_data)
  end.

(** [results[key] += 1] and [results['errors'].append(e)] *)
Definition update_results (f : Results -> Results) : Eff Invocation unit :=
  modify (fun s => set_results (f (iv_results s)) s).

Definition count_processed (r : Results) : Results :=
  {| messages_processed := S (messages_processed r);
     assignments_successful := assignments_successful r;
     assignments_failed := assignments_failed r; errors := errors r |}.

Definition count_successful (r : Results) : Results :=
  {| messages_processed := messages_processed r;
     assignments_successful := S (assignments_successful r);
     assignments_failed := assignments_failed r; errors := errors r |}.

Definition count_failed (r : Results) : Results :=
  {| messages_processed := messages_processed r;
     assignments_successful := assignments_successful r;
     assignments_failed := S (assignments_failed r); errors := errors r |}.

Definition append_error (e : string) (r : Results) : Results :=
  {| messages_processed := messages_processed r;
     assignments_successful := assignments_successful r;
     assignments_failed := assignments_failed r;
     errors := errors r ++ [e] |}.

(** The body of the loop of [process_sqs_messages] *)
Definition process_message (message : SqsMessage) : Eff Invocation unit :=
  catch
    (incident_data <- parse_sqs_message message ;;
     match incident_data with
     | None =>
         in_world (logger ERROR "Failed to parse SQS message") ;;;
         update_results (append_error "Invalid message format")
     | Some incident_data =>
         update_results count_processed ;;;
         success <- in_world (process_incident_assignment incident_data) ;;
         if (success : bool)
         then
           update_results count_successful ;;;
           delete_sqs_message (sm_receipt_handle message) ;;;
           ret tt
         else update_results count_failed
     end)
    (fun e =>
       Some (in_world (logger ERROR
                         ("Error processing SQS message: " +:+ exn_str e)) ;;;
             update_results count_failed ;;;
             update_results (append_error (exn_str e)))).

Fixpoint process_messages (messages : list SqsMessage)
  : Eff Invocation unit :=
  match messages with
  | [] => ret tt
  | message :: rest => process_message message ;;; process_messages rest
  end.

Definition process_sqs_messages : Eff Invocation Results :=
  modify (set_results
            {| messages_processed := 0; assignments_successful := 0;
               assignments_failed := 0; errors := [] |}) ;;;
  messages <- receive_from_sqs 10 ;;
  match messages with
  | [] =>
      in_world (logger INFO "No messages received from SQS") ;;;
      s <- get_world ;;
      ret (iv_results s)
  | _ =>
      in_world (logger INFO "Processing messages from SQS") ;;;
      process_messages messages ;;;
      in_world (logger INFO "Processing summary") ;;;
      s <- get_world ;;
      ret (iv_results s)
  end.

End SqsLoop.

(** ** Vocabulary of the statements

    These definitions name conditions that the source writes inline; the
    properties below relate them to the functions above. *)

(** [is_weekend and not member.weekend_shift_flag] *)
Definition weekend_excluded (now : datetime) (member : MemberData) : bool :=
  (weekday now >=? 5) && negb (weekend_shift_flag member).

(** The warning both availability functions log for a shift string that does
    not parse. *)
Definition invalid_shift_warning (member : MemberData) : Level * string :=
  (WARNING, "Invalid shift time format for member " +:+ member_id member).

(** Both shift strings, when both parse. *)
Definition parsed_shift `{Runtime} (member : MemberData)
  : option (time * time) :=
  match fromisoformat (shift_start member),
        fromisoformat (shift_end member) with
  | Some s, Some e => Some (s, e)
  | _, _ => None
  end.

(** The sum of the priority table entries of the open items. *)
Definition priority_sum (l : list Incident) : Q :=
  fold_right (fun incident s => (priority_weight incident + s)%Q) 0%Q l.

(** The members of a batch that [score_member] scores without raising, in
    input order. *)
Definition scored_members `{Runtime} `{Config}
  (wl : gmap string (list Incident)) (p : string) (w : World)
  (members : list MemberData) : list MemberWeight :=
  omap (fun m => match fst (score_member wl p m w) with
                 | Ok mw => Some mw
                 | Raise _ => None
                 end) members.

(** The requests of the queue worker that the commit protocol is about:
    the two holder checks, the commit and the history row. *)
Definition protocol_call (c : Processor.Call * bool) : bool :=
  match fst c with
  | Processor.GetIncident _ _ | Processor.PatchIncident _ _
  | Processor.InsertHistory _ => true
  | _ => false
  end.

Definition protocol_events (w : Processor.World)
  : list (Processor.Call * bool) :=
  List.filter protocol_call (Processor.calls w).

(** The protocol requests that the end of an attempt (post-check, commit,
    history row) can issue for the selected member and the score snapshot,
    newest first. *)
Inductive commit_shape (id member : string) (snapshot : list Processor.Score)
  : list (Processor.Call * bool) -> Prop :=
| postcheck_failed r2 :
    commit_shape id member snapshot [(Processor.GetIncident id r2, false)]
| postcheck_held r2 :
    Processor.held r2 = true ->
    commit_shape id member snapshot [(Processor.GetIncident id r2, true)]
| commit_rejected r2 :
    Processor.held r2 = false ->
    commit_shape id member snapshot
      [(Processor.PatchIncident id member, false);
       (Processor.GetIncident id r2, true)]
| committed r2 row served :
    Processor.held r2 = false ->
    Processor.h_algorithm_snapshot row
    = {| Processor.scores := snapshot; Processor.chosen := member |} ->
    commit_shape id member snapshot
      [(Processor.InsertHistory row, served);
       (Processor.PatchIncident id member, true);
       (Processor.GetIncident id r2, true)].

(** The protocol requests one processing attempt of the queue worker can
    issue, newest first.  An attempt that reaches the post-check does so
    with the winner and the ranking of [select_best_member]. *)
Inductive attempt_shape (body : Processor.Message)
  : list (Processor.Call * bool) -> Prop :=
| precheck_failed r1 :
    attempt_shape body
      [(Processor.GetIncident (Processor.m_sys_id body) r1, false)]
| stopped_after_precheck r1 :
    attempt_shape body
      [(Processor.GetIncident (Processor.m_sys_id body) r1, true)]
| reached_postcheck r1 tail member snapshot candidates w0 :
    Processor.held r1 = false ->
    fst (Processor.select_best_member candidates body w0)
    = Ok (Some member, snapshot) ->
    commit_shape (Processor.m_sys_id body) member snapshot tail ->
    attempt_shape body
      (tail ++ [(Processor.GetIncident (Processor.m_sys_id body) r1, true)]).

(** A computation that issues no protocol request and leaves the history
    table alone. *)
Definition quiet {A} (c : Eff Processor.World A) : Prop :=
  forall w,
    protocol_events (snd (c w)) = protocol_events w
    /\ Processor.history (snd (c w)) = Processor.history w.

(** The number of history rows an attempt asks the database to write, and
    whether its commit was served. *)
Definition history_requests (added : list (Processor.Call * bool)) : nat :=
  length (List.filter
            (fun c => match fst c with
                      | Processor.InsertHistory _ => true
                      | _ => false
                      end) added).

Definition commit_served (added : list (Processor.Call * bool)) : bool :=
  existsb (fun c => match c with
                    | (Processor.PatchIncident _ _, true) => true
                    | _ => false
                    end) added.

Definition commit_requests (added : list (Processor.Call * bool)) : nat :=
  length (List.filter
            (fun c => match fst c with
                      | Processor.PatchIncident _ _ => true
                      | _ => false
                      end) added).

(** The requests of the SaaS-workflow variant that commit an assignment or
    write a decision record. *)
Definition saas_protocol_call (c : Call * bool) : bool :=
  match fst c with
  | SnPutIncident _ _ | DbLogAssignment _ => true
  | _ => false
  end.

Definition saas_protocol_events (w : World) : list (Call * bool) :=
  List.filter saas_protocol_call (w_calls w).

(** The protocol requests one run of [process_incident_assignment] can
    issue, newest first.  A decision record carries the ranking of
    [calculate_member_weights] and the winner and rationale of
    [select_best_member]. *)
Inductive saas_attempt_shape `{Runtime} `{Config}
  (incident_data : IncidentData) : list (Call * bool) -> Prop :=
| saas_no_commit : saas_attempt_shape incident_data []
| saas_commit_rejected id member :
    saas_attempt_shape incident_data [(SnPutIncident id member, false)]
| saas_committed id member row served members wl p w0 w1 ranked best reason :
    fst (calculate_member_weights members wl p w0) = Ok ranked ->
    fst (select_best_member ranked w1) = Ok (best, reason) ->
    weight_distribution (al_calculated_weights row) = map weight_row ranked ->
    al_assigned_member_id row = mw_member_id best ->
    al_assignment_reason row = reason ->
    al_incident_number row = id_incident_number incident_data ->
    saas_attempt_shape incident_data
      [(DbLogAssignment row, served); (SnPutIncident id member, true)].

(** A computation of the SaaS variant that issues no protocol request and
    leaves the history table alone. *)
Definition calm {A} (c : Eff World A) : Prop :=
  forall w,
    saas_protocol_events (snd (c w)) = saas_protocol_events w
    /\ db_history (snd (c w)) = db_history w.

Definition decision_requests (added : list (Call * bool)) : nat :=
  length (List.filter
            (fun c => match fst c with
                      | DbLogAssignment _ => true
                      | _ => false
                      end) added).

Definition saas_commit_served (added : list (Call * bool)) : bool :=
  existsb (fun c => match c with
                    | (SnPutIncident _ _, true) => true
                    | _ => false
                    end) added.

Definition saas_commit_requests (added : list (Call * bool)) : nat :=
  length (List.filter
            (fun c => match fst c with
                      | SnPutIncident _ _ => true
                      | _ => false
                      end) added).

(** The part of a queue-worker score that does not depend on the jitter. *)
Definition unjittered_weight (s : Processor.Score) : Q :=
  (Processor.base_workload s * Processor.role_mult s * Processor.weight_mod s
   + 0.1 * inject_Z (Processor.recent_count s))%Q.

Definition jitter_of (s : Processor.Score) : Q :=
  (Processor.final_weight s - unjittered_weight s)%Q.

Definition bounded_jitter (s : Processor.Score) : Prop :=
  (0 <= jitter_of s /\ jitter_of s <= 0.01)%Q.

(** [random.random()] draws from the unit interval. *)
Definition unit_draws (l : list Q) : Prop :=
  Forall (fun u => (0 <= u /\ u <= 1)%Q) l.

(** [self.role_multipliers.get(role.upper(), 1.0)] *)
Definition role_base (role : string) : Q :=
  default 1.0%Q (ROLE_MULTIPLIERS !! upper role).

(** [t.hour * 60 + t.minute] *)
Definition minute_of_day (t : time) : Z := hour t * 60 + minute t.

(** What a run of the SaaS variant reads: the clock, the ServiceNow tables
    and the member table. *)
Definition tables (w : World) :=
  (w_now w, sn_groups w, sn_grmembers w, sn_users w, sn_incidents w,
   db_members w).

(** A computation that leaves all of them as they are. *)
Definition observer {A} (c : Eff World A) : Prop :=
  forall w, tables (snd (c w)) = tables w.

(** The verdict of [is_member_currently_available] as a predicate. *)
Definition passes_availability `{Runtime} `{Config} (w : World)
  (current_time : datetime) (member : MemberData) : bool :=
  match fst (is_member_currently_available member current_time w) with
  | Ok true => true
  | _ => false
  end.

(** The candidates of [get_available_members] before the availability
    check: the active rows of the group whose [member_id] is the
    [user_name] of a ServiceNow member. *)
Definition candidate_row (assignment_group : string)
  (servicenow_members : list GroupMember) (m : MemberData) : bool :=
  String.eqb (assignment_group_id m) assignment_group && is_active m
  && existsb (String.eqb (member_id m))
             (map user_user_name servicenow_members).

(** The holder checks and the served commits among the requests of the
    queue worker. *)
Definition holder_checks (added : list (Processor.Call * bool)) : nat :=
  length (List.filter
            (fun c => match fst c with
                      | Processor.GetIncident _ _ => true
                      | _ => false
                      end) added).

Definition served_commits (added : list (Processor.Call * bool)) : nat :=
  length (List.filter
            (fun c => match c with
                      | (Processor.PatchIncident _ _, true) => true
                      | _ => false
                      end) added).

(** What one incident adds in the loop of [compute_base_workload]. *)
Definition incident_load (now_dt : Z) (inc : Processor.Incident) : Q :=
  let p := Processor.str_or (Processor.priority inc) "3" in
  let s := Processor.str_or (Processor.severity inc) "3" in
  let opened_dt := default now_dt (Processor.opened_at inc) in
  let age_hours := py_max 0.0 (inject_Z (now_dt - opened_dt) / 3600.0)%Q in
  let age_factor := (1.0 + age_hours / 24.0)%Q in
  let p_weight := default 1.0%Q (Processor.PRIORITY_WEIGHT !! p) in
  let s_mult := default 1.0%Q (Processor.SEVERITY_MULT !! s) in
  (p_weight * s_mult * age_factor)%Q.

Definition load_sum (now_dt : Z) (l : list Processor.Incident) : Q :=
  fold_right (fun inc s => (incident_load now_dt inc + s)%Q) 0%Q l.

(** The rows of [ASSIGNMENT_HISTORY] whose member column holds a text: the
    only rows the query of [get_recent_assignment_count] can match. *)
Definition countable_rows (h : list Processor.HistoryRow)
  : list Processor.HistoryRow :=
  List.filter
    (fun r => match Processor.h_assigned_to_member_sys_id r with
              | Processor.SqlText _ => true
              | Processor.SqlNow _ => false
              end) h.

(** What a batch of the queue worker leaves alone: the clock, the
    configuration, the group and member tables, and the countable history
    rows. *)
Definition worker_frame (w : Processor.World) :=
  (Processor.utcnow w, Processor.utcnow_seconds w, Processor.MAX_CANDIDATES w,
   Processor.grmember_table w, Processor.member_data w,
   countable_rows (Processor.history w)).

Definition steady {A} (c : Eff Processor.World A) : Prop :=
  forall w, worker_frame (snd (c w)) = worker_frame w.

(** The served commits among the requests of the SaaS variant. *)
Definition saas_served_commits (added : list (Call * bool)) : nat :=
  length (List.filter
            (fun c => match c with
                      | (SnPutIncident _ _, true) => true
                      | _ => false
                      end) added).

(** The delete requests among the requests to SQS. *)
Definition delete_requests (added : list (SqsCall * bool)) : nat :=
  length (List.filter
            (fun c => match fst c with
                      | DeleteMessage _ => true
                      | ReceiveMessage _ => false
                      end) added).

(** A computation of the queue worker that asks for no commit, and whose
    requests were all served whenever it returns normally. *)
Definition strict {A} (c : Eff Processor.World A) : Prop :=
  forall w,
    exists added,
      Processor.calls (snd (c w)) = added ++ Processor.calls w
      /\ (is_ok (fst (c w)) = true -> Forall (fun r => snd r = true) added)
      /\ (forall id m s, ~ In (Processor.PatchIncident id m, s) added).

(** A computation of the queue worker in which a commit is asked for only
    after every earlier request was served: of its requests, only the commit
    and the history row can have failed. *)
Definition guarded {A} (c : Eff Processor.World A) : Prop :=
  forall w,
    exists added,
      Processor.calls (snd (c w)) = added ++ Processor.calls w
      /\ (forall id m s,
            In (Processor.PatchIncident id m, s) added ->
            forall c0, In (c0, false) added ->
                       c0 = Processor.PatchIncident id m
                       \/ exists row, c0 = Processor.InsertHistory row).

(** ** Worlds and rows for the examples *)

Definition example_world (now : datetime) : World :=
  {| w_now := now; w_faults := []; sn_groups := ∅; sn_grmembers := ∅;
     sn_users := ∅; sn_incidents := []; db_members := [];
     db_history := []; db_processing := []; w_calls := []; w_log := [] |}.

Definition example_member (name : string) (experience : option Z)
  (start_ end_ : string) (weekend : bool) : MemberData :=
  {| assignment_group_id := "Network"; member_id := name;
     member_name := name; role := "L2"; experience_level := experience;
     shift_start := start_; shift_end := end_;
     weekend_shift_flag := weekend; is_active := true |}.

Definition example_message : Processor.Message :=
  {| Processor.m_sys_id := "i1"; Processor.m_number := "INC0001";
     Processor.m_assignment_group_sys_id := "g1";
     Processor.m_opened_at := Some (Some (DateTime 2 (Time 10 0 0 0))) |}.

Definition example_incident (holder : string) : Processor.Incident :=
  {| Processor.sys_id := "i1"; Processor.number := "INC0001";
     Processor.assigned_to := holder; Processor.active := true;
     Processor.priority := Some "2"%string; Processor.severity := None;
     Processor.opened_at := Some 0 |}.

Definition example_row (id : string) : Processor.MemberRow :=
  {| Processor.member_sys_id := id; Processor.member_name := Some id;
     Processor.role := Some "L2"%string; Processor.weight_modifier := None;
     Processor.assignment_group_sys_id := "g1"; Processor.row_active := true;
     Processor.shift_days := Some "Mon,Tue,Wed,Thu,Fri"%string;
     Processor.weekend_shift_flag := false;
     Processor.shift_start_time := Some (Time 9 0 0 0);
     Processor.shift_end_time := Some (Time 17 0 0 0) |}.

(** A queue-worker world on a Wednesday at 10:00 with the incident [i1] of
    group [g1], whose members are [u1] and [u2]. *)
Definition example_queue_world (holder : string) (script : list Processor.Turn)
  (draws : list Q) : Processor.World :=
  {| Processor.utcnow := DateTime 2 (Time 10 0 0 0);
     Processor.utcnow_seconds := 36000;
     Processor.turns := script;
     Processor.randoms := draws;
     Processor.MAX_CANDIDATES := 50;
     Processor.incident_table := [example_incident holder];
     Processor.grmember_table :=
       [("g1"%string, Some "u1"%string); ("g1"%string, Some "u2"%string)];
     Processor.member_data := [example_row "u1"; example_row "u2"];
     Processor.history := [];
     Processor.calls := [];
     Processor.log := [] |}.

(** A SaaS world on a Wednesday at 10:00: group "Network" with the member
    "kim", on shift from 09:00 to 17:00, and the unassigned incident
    INC0001. *)
Definition example_saas_world : World :=
  {| w_now := DateTime 2 (Time 10 0 0 0);
     w_faults := [];
     sn_groups := {["Network"%string := "g1"%string]};
     sn_grmembers :=
       {["g1"%string :=
           [ {| user_sys_id := "u1"; user_user_name := "kim" |} ]]};
     sn_users := {["kim"%string := "u1"%string]};
     sn_incidents :=
       [ {| sys_id := "i1"; number := "INC0001";
            priority := Some "2"%string; state := "1";
            assigned_to := "" |} ];
     db_members := [example_member "kim" (Some 3) "09:00" "17:00" false];
     db_history := [];
     db_processing := [];
     w_calls := [];
     w_log := [] |}.

Definition example_incident_data : IncidentData :=
  {| id_incident_number := "INC0001"; id_assignment_group := "Network";
     id_priority := Some "2"%string |}.

(* ================================================================== *)
(** * Properties *)
(* ================================================================== *)

(** ** Rationals *)

Lemma Qlt_bool_iff a b : Qlt_bool a b = true <-> (a < b)%Q.
Proof.
  unfold Qlt_bool. rewrite negb_true_iff.
  destruct (Qle_bool b a) eqn:E.
  - apply Qle_bool_iff in E. split; [discriminate | intros H; lra].
  - split; [intros _ | reflexivity].
    destruct (Qlt_le_dec a b) as [H|H]; [exact H|].
    apply Qle_bool_iff in H. congruence.
Qed.

Lemma Qlt_bool_false_iff a b : Qlt_bool a b = false <-> (b <= a)%Q.
Proof.
  unfold Qlt_bool. rewrite negb_false_iff. apply Qle_bool_iff.
Qed.

Lemma py_max_spec a b : (a <= py_max a b /\ b <= py_max a b)%Q.
Proof.
  unfold py_max. destruct (Qlt_bool a b) eqn:E.
  - apply Qlt_bool_iff in E. lra.
  - apply Qlt_bool_false_iff in E. lra.
Qed.

Lemma py_min_spec a b : (py_min a b <= a /\ py_min a b <= b)%Q.
Proof.
  unfold py_min. destruct (Qlt_bool b a) eqn:E.
  - apply Qlt_bool_iff in E. lra.
  - apply Qlt_bool_false_iff in E. lra.
Qed.

(** ** The stable sort *)

Section StableSort.
Context {A : Type} (before : A -> A -> bool).

Lemma insert_stable_perm x l : Permutation (x :: l) (insert_stable before x l).
Proof.
  induction l as [|y l IH]; simpl; [reflexivity|].
  destruct (before x y); [reflexivity|].
  rewrite perm_swap. now apply perm_skip.
Qed.

Lemma sort_stable_perm l : Permutation l (sort_stable before l).
Proof.
  induction l as [|x l IH]; simpl; [reflexivity|].
  rewrite <- insert_stable_perm. now apply perm_skip.
Qed.

Lemma sort_stable_nil_inv l : sort_stable before l = [] -> l = [].
Proof.
  intros H. apply Permutation_nil. rewrite <- H. symmetry.
  apply sort_stable_perm.
Qed.

(** Stability: a class of mutually tied elements comes out in its input
    order. *)
Lemma insert_stable_filter (p : A -> bool) x l :
  (forall y, p x = true -> p y = true -> before x y = true) ->
  List.filter p (insert_stable before x l) = List.filter p (x :: l).
Proof.
  intros Htie. induction l as [|y l IH]; simpl; [reflexivity|].
  destruct (before x y) eqn:E; simpl; [reflexivity|].
  simpl in IH. rewrite IH.
  destruct (p x) eqn:Px; [|reflexivity].
  destruct (p y) eqn:Py; [|reflexivity].
  specialize (Htie y eq_refl Py). congruence.
Qed.

Lemma sort_stable_filter (p : A -> bool) l :
  (forall x y, p x = true -> p y = true -> before x y = true) ->
  List.filter p (sort_stable before l) = List.filter p l.
Proof.
  intros Htie. induction l as [|x l IH]; simpl; [reflexivity|].
  rewrite insert_stable_filter by (intros; now apply Htie).
  simpl. now rewrite IH.
Qed.

Hypothesis before_total : forall x y, before x y = true \/ before y x = true.
Hypothesis before_trans :
  forall x y z, before x y = true -> before y z = true -> before x z = true.

Lemma insert_stable_sorted x l :
  StronglySorted (fun a b => before a b = true) l ->
  StronglySorted (fun a b => before a b = true) (insert_stable before x l).
Proof using before_total before_trans.
  induction 1 as [|y l Hs IH Hy]; simpl.
  - repeat constructor.
  - destruct (before x y) eqn:E.
    + constructor; [now constructor|].
      constructor; [exact E|].
      eapply List.Forall_impl; [|exact Hy]. intros z Hz; simpl in Hz.
      eapply before_trans; eassumption.
    + constructor; [exact IH|].
      assert (Hyx : before y x = true)
        by (destruct (before_total x y); congruence).
      eapply Permutation_Forall; [apply insert_stable_perm|].
      now constructor.
Qed.

Lemma sort_stable_sorted l :
  StronglySorted (fun a b => before a b = true) (sort_stable before l).
Proof using before_total before_trans.
  induction l; simpl; [constructor | now apply insert_stable_sorted].
Qed.

End StableSort.

(** ** Times of day *)

Lemma time_cmp_antisym a b : time_cmp b a = CompOpp (time_cmp a b).
Proof.
  unfold time_cmp.
  rewrite (Z.compare_antisym (hour a) (hour b)).
  rewrite (Z.compare_antisym (minute a) (minute b)).
  rewrite (Z.compare_antisym (second a) (second b)).
  rewrite (Z.compare_antisym (microsecond a) (microsecond b)).
  destruct (hour a ?= hour b); simpl; try reflexivity.
  destruct (minute a ?= minute b); simpl; try reflexivity.
  destruct (second a ?= second b); simpl; reflexivity.
Qed.

Lemma time_geb_leb a b : time_geb a b = time_leb b a.
Proof.
  unfold time_geb, time_leb. rewrite (time_cmp_antisym a b).
  destruct (time_cmp a b); reflexivity.
Qed.

Lemma time_leb_le a b : time_leb a b = true <-> time_le a b.
Proof.
  unfold time_leb, time_le. destruct (time_cmp a b); split; congruence.
Qed.

Lemma time_leb_false_lt a b : time_leb a b = false <-> time_lt b a.
Proof.
  unfold time_leb, time_lt. rewrite (time_cmp_antisym a b).
  destruct (time_cmp a b); simpl; split; congruence.
Qed.

Lemma time_lt_not_le a b : time_lt b a <-> ~ time_le a b.
Proof.
  rewrite <- time_leb_false_lt, <- time_leb_le.
  destruct (time_leb a b); split; congruence.
Qed.

(** C7. For a shift (start, end) and a time of day t: when start <= end the
    candidate is on duty at t iff start <= t <= end; when start > end (an
    overnight shift) the candidate is on duty at t iff t >= start or
    t <= end. *)
Theorem is_time_in_shift_window (t shift_start shift_end : time) :
  (time_le shift_start shift_end ->
   (_is_time_in_shift t shift_start shift_end = true <->
    time_le shift_start t /\ time_le t shift_end)) /\
  (time_lt shift_end shift_start ->
   (_is_time_in_shift t shift_start shift_end = true <->
    time_le shift_start t \/ time_le t shift_end)).
Proof.
  unfold _is_time_in_shift. split.
  - intros Hle. apply time_leb_le in Hle. rewrite Hle.
    rewrite andb_true_iff, !time_leb_le. reflexivity.
  - intros Hlt. apply time_leb_false_lt in Hlt. rewrite Hlt.
    rewrite orb_true_iff, time_geb_leb, !time_leb_le. reflexivity.
Qed.

Lemma is_time_in_shift_window_witness :
  (_is_time_in_shift (Time 10 15 0 0) (Time 9 0 0 0) (Time 17 0 0 0) = true <->
   time_le (Time 9 0 0 0) (Time 10 15 0 0)
   /\ time_le (Time 10 15 0 0) (Time 17 0 0 0)) /\
  (_is_time_in_shift (Time 23 30 0 0) (Time 22 0 0 0) (Time 6 0 0 0) = true <->
   time_le (Time 22 0 0 0) (Time 23 30 0 0)
   \/ time_le (Time 23 30 0 0) (Time 6 0 0 0)).
Proof.
  split.
  - apply (proj1 (is_time_in_shift_window
                    (Time 10 15 0 0) (Time 9 0 0 0) (Time 17 0 0 0))).
    unfold time_le; simpl; discriminate.
  - apply (proj2 (is_time_in_shift_window
                    (Time 23 30 0 0) (Time 22 0 0 0) (Time 6 0 0 0))).
    reflexivity.
Defined.

(** ** The workload scorer *)

Lemma priority_weights_bounds :
  map_Forall (fun _ v => (0.5 <= v)%Q) PRIORITY_WEIGHTS.
Proof.
  apply map_Forall_to_list.
  let l := eval vm_compute in (map_to_list PRIORITY_WEIGHTS) in
  replace (map_to_list PRIORITY_WEIGHTS) with l by (vm_compute; reflexivity).
  repeat (constructor; [simpl; lra|]). constructor.
Qed.

Lemma priority_weight_pos incident : (0.5 <= priority_weight incident)%Q.
Proof.
  unfold priority_weight.
  destruct (PRIORITY_WEIGHTS !! default "4"%string (priority incident))
    as [v|] eqn:E; simpl.
  - exact (priority_weights_bounds _ _ E).
  - lra.
Qed.

Lemma fold_left_weight l acc :
  (fold_left (fun a i => a + priority_weight i) l acc == acc + priority_sum l)%Q.
Proof.
  revert acc. induction l as [|i l IH]; intros acc; simpl.
  - lra.
  - rewrite IH. lra.
Qed.

Lemma weighted_count_sum l : (weighted_count l == priority_sum l)%Q.
Proof. unfold weighted_count. rewrite fold_left_weight. lra. Qed.

Lemma priority_sum_nonneg l : (0 <= priority_sum l)%Q.
Proof.
  induction l as [|i l IH]; simpl; [lra|].
  pose proof (priority_weight_pos i). lra.
Qed.

Lemma weighted_count_nonneg l : (0 <= weighted_count l)%Q.
Proof. rewrite weighted_count_sum. apply priority_sum_nonneg. Qed.

Lemma workload_score_eq l :
  (_calculate_workload_score l == 1 / (1 + 0.5 * weighted_count l))%Q.
Proof.
  destruct l as [|i l].
  - vm_compute. reflexivity.
  - unfold _calculate_workload_score.
    pose proof (weighted_count_nonneg (i :: l)).
    field. lra.
Qed.


(** The table of the source: one P1 item gives 1 / 3.5. *)
Example workload_single_p1 :
  (_calculate_workload_score
     [ {| sys_id := "a"; number := "INC1"; priority := Some "1"%string;
          state := "2"; assigned_to := "u" |} ] == 2 # 7)%Q.
Proof. vm_compute. reflexivity. Qed.

(** ** The overnight scenario *)

(** C8, as the code has it. Shift 22:00-06:00: at 23:30 the candidate is on
    duty; at 12:00 the candidate is off duty, the distances after the
    day-crossing adjustment are 840 minutes to the start and 360 minutes to
    the end, so the nearer boundary is the 06:00 end at 360 minutes, and the
    score is the 0.1 floor. *)
Theorem overnight_shift_scenario :
  let shift_start := Time 22 0 0 0 in
  let shift_end := Time 6 0 0 0 in
  _is_time_in_shift (Time 23 30 0 0) shift_start shift_end = true /\
  _is_time_in_shift (Time 12 0 0 0) shift_start shift_end = false /\
  shift_distances (Time 12 0 0 0) shift_start shift_end = (840, 360) /\
  _calculate_shift_proximity (Time 12 0 0 0) shift_start shift_end = 0.1%Q.
Proof. repeat split. Qed.

(** C8 as the specification words it fails: the distance to the nearer
    boundary is not 600 minutes, and the nearer boundary is not the 22:00
    start. *)
Lemma overnight_shift_distance_not_600 :
  ~ (let '(distance_to_start, distance_to_end) :=
       shift_distances (Time 12 0 0 0) (Time 22 0 0 0) (Time 6 0 0 0) in
     Z.min distance_to_start distance_to_end = 600
     /\ distance_to_start <= distance_to_end).
Proof. vm_compute. intros [H _]. discriminate H. Qed.

(** ** Availability *)

Section AvailabilityProperties.
Context `{Runtime} `{Config}.

(** What one run of [_calculate_availability_score] does, case by case. *)
Lemma availability_score_run member w :
  _calculate_availability_score member w =
  if weekend_excluded (w_now w) member then (Ok 0.1%Q, w)
  else
    match parsed_shift member with
    | Some (s, e) =>
        (Ok (if _is_time_in_shift (time_of (w_now w)) s e then 1.0%Q
             else _calculate_shift_proximity (time_of (w_now w)) s e), w)
    | None =>
        (Ok 0.5%Q, set_log (invalid_shift_warning member :: w_log w) w)
    end.
Proof.
  unfold _calculate_availability_score, weekend_excluded, parsed_shift,
    bind, datetime_now, ret, logger; simpl.
  destruct ((weekday (w_now w) >=? 5) && negb (weekend_shift_flag member));
    [reflexivity|].
  destruct (fromisoformat (shift_start member)) as [s|];
    destruct (fromisoformat (shift_end member)) as [e|]; try reflexivity.
  destruct (_is_time_in_shift (time_of (w_now w)) s e); reflexivity.
Qed.

Lemma availability_score_now member w :
  w_now (snd (_calculate_availability_score member w)) = w_now w.
Proof.
  rewrite availability_score_run.
  destruct (weekend_excluded (w_now w) member); [reflexivity|].
  destruct (parsed_shift member) as [[s e]|]; reflexivity.
Qed.

Lemma availability_score_frame member w1 w2 :
  w_now w1 = w_now w2 ->
  fst (_calculate_availability_score member w1)
  = fst (_calculate_availability_score member w2).
Proof.
  intros E. rewrite !availability_score_run, E.
  destruct (weekend_excluded (w_now w2) member); [reflexivity|].
  destruct (parsed_shift member) as [[s e]|]; reflexivity.
Qed.

Lemma parsed_shift_none member :
  fromisoformat (shift_start member) = None
  \/ fromisoformat (shift_end member) = None ->
  parsed_shift member = None.
Proof.
  unfold parsed_shift. intros [E|E]; rewrite E; [reflexivity|].
  destruct (fromisoformat (shift_start member)); reflexivity.
Qed.

(** What one run of [is_member_currently_available] does. *)
Lemma is_member_currently_available_run member current_time w :
  is_member_currently_available member current_time w =
  if weekend_excluded current_time member then (Ok false, w)
  else
    match parsed_shift member with
    | Some (s, e) =>
        if _is_time_in_shift (time_of current_time) s e then (Ok true, w)
        else
          match _calculate_availability_score member w with
          | (Ok a, w') => (Ok (negb (Qlt_bool a 0.3)), w')
          | (Raise x, w') => (Raise x, w')
          end
    | None =>
        (Ok true, set_log (invalid_shift_warning member :: w_log w) w)
    end.
Proof.
  unfold is_member_currently_available, weekend_excluded, parsed_shift.
  destruct ((weekday current_time >=? 5) && negb (weekend_shift_flag member));
    [reflexivity|].
  destruct (fromisoformat (shift_start member)) as [s|];
    destruct (fromisoformat (shift_end member)) as [e|]; try reflexivity.
  unfold _is_time_in_shift.
  match goal with |- (if negb ?b then _ else _) _ = _ => destruct b end;
    simpl; [reflexivity|].
  unfold bind.
  destruct (_calculate_availability_score member w) as [[a|x] w'];
    [|reflexivity].
  destruct (Qlt_bool a 0.3); reflexivity.
Qed.

(** ** The role scorer and the scoring of one member *)

Lemma score_member_run wl p member w :
  score_member wl p member w =
  match _calculate_role_score (role member) (experience_level member) with
  | Raise x => (Raise x, w)
  | Ok r =>
      match _calculate_availability_score member w with
      | (Ok a, w') =>
          (Ok {| mw_member_id := member_id member;
                 mw_member_name := member_name member;
                 workload_score :=
                   _calculate_workload_score
                     (default [] (wl !! member_id member));
                 role_score := r;
                 availability_score := a;
                 final_weight :=
                   (_calculate_workload_score
                      (default [] (wl !! member_id member)) * WORKLOAD_WEIGHT
                    + r * ROLE_WEIGHT + a * AVAILABILITY_WEIGHT)%Q;
                 calculation_details :=
                   {| workload_incidents :=
                        length (default [] (wl !! member_id member));
                      workload_score_raw :=
                        _calculate_workload_score
                          (default [] (wl !! member_id member));
                      role_score_raw := r;
                      availability_score_raw := a;
                      weights_applied :=
                        (WORKLOAD_WEIGHT, ROLE_WEIGHT, AVAILABILITY_WEIGHT);
                      incident_priority := p;
                      member_role := role member;
                      member_experience := experience_level member |} |},
           w')
      | (Raise x, w') => (Raise x, w')
      end
  end.
Proof.
  unfold score_member, bind, lift, ret.
  destruct (_calculate_role_score (role member) (experience_level member))
    as [r|xr]; [|reflexivity].
  destruct (_calculate_availability_score member w) as [[a|x] w'];
    reflexivity.
Qed.

Lemma score_member_now wl p member w :
  w_now (snd (score_member wl p member w)) = w_now w.
Proof.
  rewrite score_member_run.
  destruct (_calculate_role_score (role member) (experience_level member))
    as [r|xr]; [|reflexivity].
  pose proof (availability_score_now member w) as E.
  destruct (_calculate_availability_score member w) as [[a|x] w'];
    exact E.
Qed.

Lemma score_member_frame wl p member w1 w2 :
  w_now w1 = w_now w2 ->
  fst (score_member wl p member w1) = fst (score_member wl p member w2).
Proof.
  intros E. rewrite !score_member_run.
  destruct (_calculate_role_score (role member) (experience_level member))
    as [r|xr]; [|reflexivity].
  pose proof (availability_score_frame member w1 w2 E) as F.
  destruct (_calculate_availability_score member w1) as [[a1|x1] w1'];
    destruct (_calculate_availability_score member w2) as [[a2|x2] w2'];
    simpl in F; inversion F; reflexivity.
Qed.

(** C9. A candidate whose shift start or end does not parse, and whom the
    weekend rule does not exclude, gets the availability score 0.5 exactly;
    a warning is logged; the availability filter keeps the candidate; and
    the scoring of the candidate does not raise on that account. *)
Theorem malformed_shift_fail_open (member : MemberData)
  (current_time : datetime) (w : World)
  (wl : gmap string (list Incident)) (p : string) :
  fromisoformat (shift_start member) = None
  \/ fromisoformat (shift_end member) = None ->
  weekend_excluded (w_now w) member = false ->
  weekend_excluded current_time member = false ->
  let w' := set_log (invalid_shift_warning member :: w_log w) w in
  _calculate_availability_score member w = (Ok 0.5%Q, w')
  /\ is_member_currently_available member current_time w = (Ok true, w')
  /\ (forall n, experience_level member = Some n ->
      exists mw, score_member wl p member w = (Ok mw, w')
                 /\ availability_score mw = 0.5%Q).
Proof.
  intros Hbad Hnow Hct w'. apply parsed_shift_none in Hbad.
  assert (Ha : _calculate_availability_score member w = (Ok 0.5%Q, w'))
    by (rewrite availability_score_run, Hnow, Hbad; reflexivity).
  split; [exact Ha|]. split.
  - rewrite is_member_currently_available_run, Hct, Hbad. reflexivity.
  - intros n Hn. rewrite score_member_run, Hn, Ha. simpl.
    eexists; split; reflexivity.
Qed.

End AvailabilityProperties.

Lemma malformed_shift_fail_open_witness :
  let member := example_member "kim" (Some 3) "9am" "17:00" false in
  let w := example_world (DateTime 2 (Time 10 0 0 0)) in
  let w' := set_log (invalid_shift_warning member :: w_log w) w in
  @_calculate_availability_score example_runtime member w = (Ok 0.5%Q, w')
  /\ @is_member_currently_available example_runtime member
       (DateTime 2 (Time 10 0 0 0)) w = (Ok true, w')
  /\ (forall n, experience_level member = Some n ->
      exists mw,
        @score_member example_runtime default_config ∅ "3" member w
        = (Ok mw, w')
        /\ availability_score mw = 0.5%Q).
Proof.
  apply (@malformed_shift_fail_open example_runtime default_config
           (example_member "kim" (Some 3) "9am" "17:00" false)
           (DateTime 2 (Time 10 0 0 0))
           (example_world (DateTime 2 (Time 10 0 0 0))) ∅ "3").
  - left. reflexivity.
  - reflexivity.
  - reflexivity.
Defined.

(** ** The availability filter *)

Section FilterProperties.
Context `{Runtime} `{Config}.

Lemma proximity_below_threshold t s e :
  Qlt_bool (_calculate_shift_proximity t s e) 0.3 = true <->
  168 < Z.min (fst (shift_distances t s e)) (snd (shift_distances t s e)).
Proof.
  unfold _calculate_shift_proximity.
  destruct (shift_distances t s e) as [ds de]; simpl.
  set (d := Z.min ds de). rewrite Qlt_bool_iff.
  change (inject_Z (4 * 60)) with (240 # 1).
  rewrite (Zlt_Qlt 168 d). change (inject_Z 168) with (168 # 1).
  generalize (inject_Z d). intros q.
  unfold Qdiv. change (/ (240 # 1))%Q with (1 # 240).
  unfold py_max. destruct (Qlt_bool 0.1 (1.0 - q * (1 # 240))) eqn:E.
  - apply Qlt_bool_iff in E. split; intros; lra.
  - apply Qlt_bool_false_iff in E. split; intros; lra.
Qed.

Lemma proximity_range t s e :
  (0.1 <= _calculate_shift_proximity t s e
   /\ _calculate_shift_proximity t s e <= 1)%Q.
Proof.
  unfold _calculate_shift_proximity.
  destruct (shift_distances t s e) as [ds de] eqn:E.
  assert (Hnn : 0 <= Z.min ds de).
  { unfold shift_distances in E.
    destruct (hour s * 60 + minute s >? hour e * 60 + minute e);
      inversion E; lia. }
  rewrite Zle_Qle in Hnn. change (inject_Z 0) with 0%Q in Hnn.
  change (inject_Z (4 * 60)) with (240 # 1).
  revert Hnn. generalize (inject_Z (Z.min ds de)). intros q Hq.
  unfold Qdiv. change (/ (240 # 1))%Q with (1 # 240).
  unfold py_max. destruct (Qlt_bool 0.1 (1.0 - q * (1 # 240))) eqn:F.
  - apply Qlt_bool_iff in F. lra.
  - lra.
Qed.

Lemma filter_available_members_kept (members : list MemberDict)
  (current_time : datetime) (w : World) :
  exists kept,
    fst (filter_available_members members (Some current_time) w) = Ok kept
    /\ forall m, In m kept <->
         In m members
         /\ default true (md_is_active m) = true
         /\ ~ (weekday current_time >= 5
               /\ default false (md_weekend_shift_flag m) = false).
Proof.
  eexists; split; [reflexivity|].
  intros m. rewrite filter_In.
  destruct (default true (md_is_active m)); simpl; [|intuition congruence].
  destruct (weekday current_time >=? 5) eqn:Hd; simpl.
  - apply Z.geb_le in Hd.
    destruct (default false (md_weekend_shift_flag m)); simpl;
      intuition (try congruence; try lia).
  - assert (~ weekday current_time >= 5)
      by (intros Hge; apply Z.ge_le in Hge; apply Z.geb_le in Hge;
          congruence).
    intuition.
Qed.


End FilterProperties.


(** ** The batch of [calculate_member_weights] *)

Lemma by_weight_desc_total x y :
  by_weight_desc x y = true \/ by_weight_desc y x = true.
Proof.
  unfold by_weight_desc. rewrite !Qle_bool_iff.
  destruct (Qlt_le_dec (final_weight x) (final_weight y)); [right|left]; lra.
Qed.

Lemma by_weight_desc_trans x y z :
  by_weight_desc x y = true -> by_weight_desc y z = true ->
  by_weight_desc x z = true.
Proof. unfold by_weight_desc. rewrite !Qle_bool_iff. lra. Qed.

Lemma StronglySorted_weaken {A} (R S : A -> A -> Prop) l :
  (forall a b, R a b -> S a b) -> StronglySorted R l -> StronglySorted S l.
Proof.
  intros HRS. induction 1 as [|a l Hs IH Ha]; constructor; [exact IH|].
  eapply List.Forall_impl; [|exact Ha]. intros b. apply HRS.
Qed.

Lemma sort_by_weight_sorted l :
  StronglySorted (fun a b => (final_weight b <= final_weight a)%Q)
                 (sort_stable by_weight_desc l).
Proof.
  eapply StronglySorted_weaken;
    [|apply sort_stable_sorted;
      [exact by_weight_desc_total | exact by_weight_desc_trans]].
  intros a b Hab. now apply Qle_bool_iff in Hab.
Qed.

Section BatchProperties.
Context `{Runtime} `{Config}.

Lemma scored_members_cons wl p w m members :
  scored_members wl p w (m :: members) =
  match fst (score_member wl p m w) with
  | Ok mw => mw :: scored_members wl p w members
  | Raise _ => scored_members wl p w members
  end.
Proof.
  unfold scored_members. simpl.
  destruct (fst (score_member wl p m w)); reflexivity.
Qed.

Lemma scored_members_frame wl p w1 w2 members :
  w_now w1 = w_now w2 ->
  scored_members wl p w1 members = scored_members wl p w2 members.
Proof.
  intros E. induction members as [|m members IH]; [reflexivity|].
  rewrite !scored_members_cons.
  rewrite (score_member_frame wl p m w1 w2 E), IH. reflexivity.
Qed.

(** The loop returns the accumulated weights followed by the members it
    could score, and leaves the clock alone. *)
Lemma score_members_run wl p members :
  forall acc w,
    exists w',
      score_members wl p members acc w
      = (Ok (acc ++ scored_members wl p w members), w')
      /\ w_now w' = w_now w.
Proof.
  induction members as [|m members IH]; intros acc w.
  - exists w. unfold ret, scored_members. simpl. now rewrite app_nil_r.
  - cbn [score_members]. rewrite scored_members_cons.
    unfold bind at 1. unfold catch, bind at 1.
    pose proof (score_member_now wl p m w) as Hnow.
    destruct (score_member wl p m w) as [[mw|x] w1] eqn:E; simpl in Hnow.
    + cbn [fst ret].
      destruct (IH (acc ++ [mw]) w1) as (w' & Hrun & Hw').
      exists w'. rewrite Hrun.
      rewrite (scored_members_frame wl p w1 w members Hnow).
      rewrite <- app_assoc. split; [reflexivity | congruence].
    + cbn [fst]. unfold bind, logger, ret.
      match goal with
      | |- context [score_members wl p members acc ?w2] =>
          destruct (IH acc w2) as (w' & Hrun & Hw');
          exists w'; rewrite Hrun;
          rewrite (scored_members_frame wl p w2 w members)
            by (simpl; exact Hnow)
      end.
      split; [reflexivity|]. simpl in Hw'. congruence.
Qed.

Lemma calculate_member_weights_run members wl p w :
  fst (calculate_member_weights members wl p w) =
  match scored_members wl p w members with
  | [] =>
      Raise (WeightCalculationError
               (match members with
                | [] => "No available members to calculate weights for"
                | _ => "Failed to calculate weights for any members"
                end))
  | l => Ok (sort_stable by_weight_desc l)
  end.
Proof.
  destruct members as [|m members]; [reflexivity|].
  unfold calculate_member_weights, bind.
  destruct (score_members_run wl p (m :: members) [] w) as (w' & Hrun & _).
  rewrite Hrun. simpl app.
  destruct (scored_members wl p w (m :: members)); reflexivity.
Qed.

Lemma scored_members_nil wl p w members :
  scored_members wl p w members = [] <->
  Forall (fun m => is_ok (fst (score_member wl p m w)) = false) members.
Proof.
  induction members as [|m members IH].
  - split; [constructor | reflexivity].
  - rewrite scored_members_cons.
    destruct (fst (score_member wl p m w)) eqn:E.
    + split; [discriminate|]. intros HF. inversion HF; subst.
      rewrite E in *. discriminate.
    + rewrite IH. split.
      * intros HF. constructor; [now rewrite E | exact HF].
      * intros HF. now inversion HF.
Qed.

(** C10. In [calculate_member_weights] a member whose scoring raises is
    skipped and the batch goes on; the function raises
    [WeightCalculationError] iff the member list is empty or the scoring of
    every member failed; otherwise it returns exactly the members that were
    scored, sorted by final weight in descending order. *)
Theorem calculate_member_weights_skips_failures
  (members : list MemberData) (wl : gmap string (list Incident))
  (p : string) (w : World) :
  let r := fst (calculate_member_weights members wl p w) in
  let failed m := is_ok (fst (score_member wl p m w)) = false in
  ((exists msg, r = Raise (WeightCalculationError msg)) <->
   members = [] \/ Forall failed members)
  /\ (is_ok r = false <-> members = [] \/ Forall failed members)
  /\ (is_ok r = true ->
      r = Ok (sort_stable by_weight_desc (scored_members wl p w members)))
  /\ (forall l, r = Ok l ->
      Permutation (scored_members wl p w members) l
      /\ StronglySorted (fun a b => (final_weight b <= final_weight a)%Q) l).
Proof.
  intros r failed. subst r. rewrite calculate_member_weights_run.
  assert (Hnil : scored_members wl p w members = [] <->
                 members = [] \/ Forall failed members).
  { rewrite scored_members_nil. split; [now right|].
    intros [->|HF]; [constructor | exact HF]. }
  destruct (scored_members wl p w members) as [|mw l] eqn:E.
  - split; [split; [intros _; now apply Hnil | intros _; eauto]|].
    split; [split; [intros _; now apply Hnil | reflexivity]|].
    split; [discriminate|]. intros l Hl. discriminate.
  - split.
    { split; [intros [msg Hx]; discriminate|].
      intros Hx. apply Hnil in Hx. discriminate. }
    split.
    { split; [discriminate|]. intros Hx. apply Hnil in Hx. discriminate. }
    split; [reflexivity|].
    intros l' Hl. inversion Hl; subst. split.
    + apply (sort_stable_perm by_weight_desc (mw :: l)).
    + apply (sort_by_weight_sorted (mw :: l)).
Qed.

End BatchProperties.

(** ** The queue worker: which protocol requests an attempt issues *)

Section Quiet.
Import Processor.

Lemma quiet_ret {A} (a : A) : quiet (ret a).
Proof. intros w. split; reflexivity. Qed.

Lemma quiet_raise {A} e : quiet (@raise World A e).
Proof. intros w. split; reflexivity. Qed.

Lemma quiet_get_world : quiet (@get_world World).
Proof. intros w. split; reflexivity. Qed.

Lemma quiet_logger lvl msg : quiet (logger lvl msg).
Proof. intros w. split; reflexivity. Qed.

Lemma quiet_bind {A B} (c : Eff World A) (k : A -> Eff World B) :
  quiet c -> (forall a, quiet (k a)) -> quiet (bind c k).
Proof.
  intros Hc Hk w. unfold bind. specialize (Hc w).
  destruct (c w) as [[a|e] w1]; simpl in *; [|exact Hc].
  destruct (Hk a w1) as [H1 H2]. destruct Hc as [H3 H4].
  split; congruence.
Qed.

Lemma quiet_request c accepts failure :
  (forall table b, protocol_call (c table, b) = false) ->
  quiet (request c accepts failure).
Proof.
  intros Hc w. unfold request.
  destruct (match turns w with [] => (Serve, []) | t :: rest => (t, rest) end)
    as [t rest].
  match goal with
  | |- context [if ?b then _ else _] => destruct b
  end; unfold protocol_events; simpl; rewrite Hc; split; reflexivity.
Qed.

Lemma quiet_random_uniform a b : quiet (random_uniform a b).
Proof.
  intros w. unfold random_uniform. destruct (randoms w); split; reflexivity.
Qed.

Lemma quiet_fetch_group_members g :
  quiet (fetch_group_members_from_servicenow g).
Proof.
  unfold fetch_group_members_from_servicenow.
  apply quiet_bind; [now apply quiet_request|]. intros _.
  apply quiet_bind; [apply quiet_get_world|]. intros w. apply quiet_ret.
Qed.

Lemma quiet_fetch_member_rows ids g dt :
  quiet (fetch_member_rows_from_db ids g dt).
Proof.
  unfold fetch_member_rows_from_db. destruct ids; [apply quiet_ret|].
  apply quiet_bind; [now apply quiet_request|]. intros _.
  apply quiet_bind; [apply quiet_get_world|]. intros w. apply quiet_ret.
Qed.

Lemma quiet_score_candidates candidates now_dt :
  forall scores, quiet (score_candidates candidates now_dt scores).
Proof.
  induction candidates as [|c rest IH]; intros scores; simpl.
  - apply quiet_ret.
  - apply quiet_bind.
    { unfold fetch_assigned_incidents_for_member.
      apply quiet_bind; [now apply quiet_request|]. intros _.
      apply quiet_bind; [apply quiet_get_world|]. intros w. apply quiet_ret. }
    intros assigned. apply quiet_bind.
    { unfold get_recent_assignment_count.
      apply quiet_bind; [now apply quiet_request|]. intros _.
      apply quiet_bind; [apply quiet_get_world|]. intros w. apply quiet_ret. }
    intros recent. apply quiet_bind; [apply quiet_random_uniform|].
    intros jitter. apply IH.
Qed.

Lemma quiet_select_best_member candidates body :
  quiet (select_best_member candidates body).
Proof.
  unfold select_best_member.
  apply quiet_bind; [apply quiet_get_world|]. intros w.
  apply quiet_bind; [apply quiet_score_candidates|]. intros scores.
  destruct (sort_stable by_weight_asc scores); apply quiet_ret.
Qed.

(** The holder check records what it fetched. *)
Lemma confirm_incident_unassigned_run id w :
  exists r (served : bool) w',
    confirm_incident_unassigned id w
    = ((if served then Ok r else Raise (HTTPError "incident")), w')
    /\ protocol_events w' = (GetIncident id r, served) :: protocol_events w
    /\ r = find_incident id (incident_table w')
    /\ history w' = history w.
Proof.
  unfold confirm_incident_unassigned, bind, request, get_world, ret, always.
  destruct (turns w) as [|[| |rid rholder] rest]; simpl.
  - eexists; exists true; eexists. repeat split; reflexivity.
  - eexists; exists true; eexists. repeat split; reflexivity.
  - eexists; exists false; eexists. repeat split; reflexivity.
  - eexists; exists true; eexists. repeat split; reflexivity.
Qed.

End Quiet.

Section AttemptEvents.
Import Processor.

Lemma quiet_run {A} (c : Eff World A) w r w1 :
  quiet c -> c w = (r, w1) ->
  protocol_events w1 = protocol_events w /\ history w1 = history w.
Proof. intros Hc E. specialize (Hc w). now rewrite E in Hc. Qed.

Lemma find_incident_set_holder id id' h table :
  find_incident id (set_holder id' h table) =
  match find_incident id table with
  | None => None
  | Some i =>
      Some (if String.eqb (sys_id i) id'
            then {| sys_id := sys_id i; number := number i;
                    assigned_to := h; active := active i;
                    priority := priority i; severity := severity i;
                    opened_at := opened_at i |}
            else i)
  end.
Proof.
  unfold find_incident, set_holder.
  induction table as [|x table IH]; simpl; [reflexivity|].
  destruct (String.eqb (sys_id x) id') eqn:E; simpl;
    destruct (String.eqb (sys_id x) id); rewrite ?E;
    first [reflexivity | exact IH].
Qed.

Lemma held_set_holder id id' h table :
  truthy h = true ->
  held (find_incident id table) = true ->
  held (find_incident id (set_holder id' h table)) = true.
Proof.
  intros Hh. rewrite find_incident_set_holder.
  destruct (find_incident id table) as [i|]; [|discriminate].
  destruct (String.eqb (sys_id i) id'); simpl; [intros _; exact Hh | tauto].
Qed.

Lemma held_interfere id t table :
  held (find_incident id table) = true ->
  held (find_incident id (interfere t table)) = true.
Proof.
  destruct t as [| |rid rholder]; simpl; try tauto.
  destruct (String.eqb rholder "") eqn:E; [tauto|].
  apply held_set_holder. unfold truthy. now rewrite E.
Qed.

(** A request never clears a holder. *)
Lemma held_request id c accepts failure w :
  held (find_incident id (incident_table w)) = true ->
  held (find_incident id (incident_table (snd (request c accepts failure w))))
  = true.
Proof.
  intros Hh. unfold request.
  destruct (turns w) as [|t rest].
  - simpl. destruct (accepts (incident_table w)); exact Hh.
  - match goal with
    | |- context [if ?b then _ else _] => destruct b
    end; simpl; now apply held_interfere.
Qed.

Lemma assign_incident_to_member_run id member w :
  exists (served : bool) w',
    assign_incident_to_member id member w
    = ((if served then Ok tt else Raise (HTTPError "incident")), w')
    /\ protocol_events w'
       = (PatchIncident id member, served) :: protocol_events w
    /\ (served = true ->
        held (find_incident id (incident_table w')) = truthy member)
    /\ history w' = history w.
Proof.
  unfold assign_incident_to_member, bind, request, modify.
  set (t := match turns w with [] => (Serve, []) | t :: rest => (t, rest) end).
  destruct t as [t rest].
  set (table := interfere t (incident_table w)).
  destruct (match t with
            | Fail => false
            | _ => match find_incident id table with
                   | Some _ => true
                   | None => false
                   end
            end) eqn:Hs.
  - exists true. eexists. split; [reflexivity|]. split; [reflexivity|].
    split; [|reflexivity].
    intros _. simpl. rewrite find_incident_set_holder.
    destruct (find_incident id table) as [i|] eqn:Hi.
    + unfold find_incident in Hi. apply find_some in Hi as [_ Hi].
      rewrite Hi. reflexivity.
    + destruct t; discriminate.
  - exists false. eexists. split; [reflexivity|]. split; [reflexivity|].
    split; [discriminate | reflexivity].
Qed.

Lemma record_assignment_history_run id num member snapshot w :
  exists row (served : bool) w',
    record_assignment_history id num member snapshot w
    = ((if served then Ok tt
        else Raise (OperationalError "ASSIGNMENT_HISTORY")), w')
    /\ protocol_events w' = (InsertHistory row, served) :: protocol_events w
    /\ (held (find_incident id (incident_table w)) = true ->
        held (find_incident id (incident_table w')) = true)
    /\ history w' = (if served then row :: history w else history w)
    /\ h_algorithm_snapshot row = snapshot.
Proof.
  unfold record_assignment_history, bind, get_world, modify.
  match goal with
  | |- context [request ?c ?a ?f w] =>
      pose proof (held_request id c a f w) as Hheld;
      unfold request in *
  end.
  destruct (turns w) as [|[| |rid rholder] rest]; simpl in *.
  - eexists; exists true; eexists.
    repeat split; first [reflexivity | exact Hheld].
  - eexists; exists true; eexists.
    repeat split; first [reflexivity | exact Hheld].
  - eexists; exists false; eexists.
    repeat split; first [reflexivity | exact Hheld].
  - eexists; exists true; eexists.
    repeat split; first [reflexivity | exact Hheld].
Qed.

(** The end of an attempt: its protocol requests, the holder it leaves when
    the commit was served, and the history table. *)
Lemma confirm_and_assign_events body member snapshot w res w' :
  truthy member = true ->
  confirm_and_assign body member snapshot w = (res, w') ->
  exists added,
    protocol_events w' = added ++ protocol_events w
    /\ commit_shape (m_sys_id body) member snapshot added
    /\ (forall m, In (PatchIncident (m_sys_id body) m, true) added ->
        held (find_incident (m_sys_id body) (incident_table w')) = true)
    /\ (forall row, In (InsertHistory row, true) added ->
        history w' = row :: history w)
    /\ ((forall row, ~ In (InsertHistory row, true) added) ->
        history w' = history w).
Proof.
  intros Hm Hrun. unfold confirm_and_assign, bind in Hrun.
  destruct (confirm_incident_unassigned_run (m_sys_id body) w)
    as (r2 & s2 & w2 & Hrun2 & Hev2 & Hr2 & Hh2).
  rewrite Hrun2 in Hrun. clear Hr2. destruct s2.
  2:{ inversion Hrun; subst.
      exists [(GetIncident (m_sys_id body) r2, false)]. simpl.
      split; [exact Hev2|]. split; [constructor|].
      split; [intros m [Hx|[]]; discriminate|].
      split; [intros row [Hx|[]]; discriminate | intros _; exact Hh2]. }
  destruct (held r2) eqn:Hheld2.
  { inversion Hrun; subst.
    exists [(GetIncident (m_sys_id body) r2, true)]. simpl.
    split; [exact Hev2|]. split; [now constructor|].
    split; [intros m [Hx|[]]; discriminate|].
    split; [intros row [Hx|[]]; discriminate | intros _; exact Hh2]. }
  destruct (assign_incident_to_member_run (m_sys_id body) member w2)
    as (s3 & w3 & Hrun3 & Hev3 & Hheld3 & Hh3).
  rewrite Hrun3 in Hrun. destruct s3.
  2:{ inversion Hrun; subst.
      exists [(PatchIncident (m_sys_id body) member, false);
              (GetIncident (m_sys_id body) r2, true)].
      simpl. rewrite Hev3, Hev2.
      split; [reflexivity|]. split; [now constructor|].
      split; [intros m [Hx|[Hx|[]]]; discriminate|].
      split; [intros row [Hx|[Hx|[]]]; discriminate|].
      intros _. congruence. }
  specialize (Hheld3 eq_refl). rewrite Hm in Hheld3.
  destruct (record_assignment_history_run
              (m_sys_id body) (m_number body) member
              {| scores := snapshot; chosen := member |} w3)
    as (row & s4 & w4 & Hrun4 & Hev4 & Hheld4 & Hh4 & Hsnap4).
  rewrite Hrun4 in Hrun. specialize (Hheld4 Hheld3).
  exists [(InsertHistory row, s4); (PatchIncident (m_sys_id body) member, true);
          (GetIncident (m_sys_id body) r2, true)].
  destruct s4.
  - unfold logger in Hrun. injection Hrun as _ <-.
    change (protocol_events (set_log ?l w4)) with (protocol_events w4).
    change (incident_table (set_log ?l w4)) with (incident_table w4).
    change (history (set_log ?l w4)) with (history w4).
    rewrite Hev4, Hev3, Hev2.
    split; [reflexivity|]. split; [now constructor|].
    split; [intros _ _; exact Hheld4|]. split.
    + intros row' [Hx|[Hx|[Hx|[]]]]; try discriminate.
      inversion Hx; subst. congruence.
    + intros Hno. exfalso. apply (Hno row). now left.
  - injection Hrun as _ <-.
    rewrite Hev4, Hev3, Hev2.
    split; [reflexivity|]. split; [now constructor|].
    split; [intros _ _; exact Hheld4|]. split.
    + intros row' [Hx|[Hx|[Hx|[]]]]; discriminate.
    + intros _. congruence.
Qed.

End AttemptEvents.

Section AttemptAnalysis.
Import Processor.

Ltac stop_at wk :=
  match goal with
  | Hstop : (forall w1 : Processor.World,
               protocol_events w1 = protocol_events ?w -> _) |- _ =>
      apply Hstop;
      [ change (protocol_events wk = protocol_events w)
      | change (Processor.history wk = Processor.history w) ];
      congruence
  end.

Lemma gather_and_select_events body w res w' :
  gather_and_select body w = (res, w') ->
  exists added,
    protocol_events w' = added ++ protocol_events w
    /\ (added = []
        \/ exists member snapshot candidates w0,
             fst (select_best_member candidates body w0)
             = Ok (Some member, snapshot)
             /\ commit_shape (m_sys_id body) member snapshot added)
    /\ (forall m, In (PatchIncident (m_sys_id body) m, true) added ->
        held (find_incident (m_sys_id body) (incident_table w')) = true)
    /\ (forall row, In (InsertHistory row, true) added ->
        history w' = row :: history w)
    /\ ((forall row, ~ In (InsertHistory row, true) added) ->
        history w' = history w).
Proof.
  intros Hrun.
  assert (Hstop : forall w1,
             protocol_events w1 = protocol_events w ->
             history w1 = history w ->
             exists added,
               protocol_events w1 = added ++ protocol_events w
               /\ (added = []
                   \/ exists member snapshot candidates w0,
                        fst (select_best_member candidates body w0)
                        = Ok (Some member, snapshot)
                        /\ commit_shape (m_sys_id body) member snapshot
                                        added)
               /\ (forall m,
                     In (PatchIncident (m_sys_id body) m, true) added ->
                     held (find_incident (m_sys_id body) (incident_table w1))
                     = true)
               /\ (forall row, In (InsertHistory row, true) added ->
                   history w1 = row :: history w)
               /\ ((forall row, ~ In (InsertHistory row, true) added) ->
                   history w1 = history w)).
  { intros w1 He Hh. exists []. split; [exact He|]. split; [now left|].
    split; [intros m []|]. split; [intros row [] | intros _; exact Hh]. }
  unfold gather_and_select in Hrun. unfold bind at 1 in Hrun.
  destruct (fetch_group_members_from_servicenow
              (m_assignment_group_sys_id body) w) as [[gm|e] w1] eqn:E1;
    apply (quiet_run _ _ _ _ (quiet_fetch_group_members _)) in E1
      as [He1 Hh1].
  2:{ injection Hrun as _ <-. stop_at w1. }
  destruct gm as [|g gm].
  { unfold logger in Hrun. injection Hrun as _ <-. stop_at w1. }
  unfold bind at 1 in Hrun.
  match type of Hrun with
  | context [match ?c w1 with _ => _ end] =>
      assert (Hq : quiet c)
        by (destruct (m_opened_at body) as [[dt|]|];
            [apply quiet_ret | apply quiet_raise
            | apply quiet_bind; [apply quiet_get_world
                                | intros; apply quiet_ret]]);
      destruct (c w1) as [[dt|e] w2] eqn:E2;
      apply (quiet_run _ _ _ _ Hq) in E2 as [He2 Hh2]
  end.
  2:{ injection Hrun as _ <-. stop_at w2. }
  unfold bind at 1 in Hrun.
  destruct (fetch_member_rows_from_db (g :: gm)
              (m_assignment_group_sys_id body) dt w2) as [[rows|e] w3] eqn:E3;
    apply (quiet_run _ _ _ _ (quiet_fetch_member_rows _ _ _)) in E3
      as [He3 Hh3].
  2:{ injection Hrun as _ <-. stop_at w3. }
  destruct rows as [|row rows].
  { unfold logger in Hrun. injection Hrun as _ <-. stop_at w3. }
  unfold bind at 1 in Hrun. unfold get_world at 1 in Hrun.
  unfold bind at 1 in Hrun.
  destruct (select_best_member
              (firstn (MAX_CANDIDATES w3) (row :: rows)) body w3)
    as [[[sel snapshot]|e] w4] eqn:E4;
    pose proof (f_equal fst E4) as Esel;
    apply (quiet_run _ _ _ _ (quiet_select_best_member _ _)) in E4
      as [He4 Hh4].
  2:{ injection Hrun as _ <-. stop_at w4. }
  destruct sel as [sel|].
  2:{ unfold logger in Hrun. injection Hrun as _ <-. stop_at w4. }
  destruct (truthy sel) eqn:Hsel.
  2:{ unfold logger in Hrun. injection Hrun as _ <-. stop_at w4. }
  destruct (confirm_and_assign_events body sel snapshot w4 res w' Hsel Hrun)
    as (added & Hev & Hshape & Hheld & Hrow & Hnorow).
  exists added. split; [rewrite Hev; congruence|].
  split; [right; eauto 6|].
  split; [exact Hheld|].
  split; [intros r Hr; rewrite (Hrow r Hr); congruence|].
  intros Hno. rewrite (Hnorow Hno). congruence.
Qed.

(** The protocol requests of one processing attempt. *)
Lemma process_record_events body w :
  exists added,
    let w' := snd (process_record body w) in
    protocol_events w' = added ++ protocol_events w
    /\ attempt_shape body added
    /\ (forall m, In (PatchIncident (m_sys_id body) m, true) added ->
        held (find_incident (m_sys_id body) (incident_table w')) = true)
    /\ (forall row, In (InsertHistory row, true) added ->
        history w' = row :: history w)
    /\ ((forall row, ~ In (InsertHistory row, true) added) ->
        history w' = history w).
Proof.
  destruct (process_record body w) as [res w'] eqn:Hrun. cbn [snd].
  unfold process_record, catch in Hrun. unfold bind at 1 in Hrun.
  destruct (confirm_incident_unassigned_run (m_sys_id body) w)
    as (r1 & s1 & w1 & Hrun1 & Hev1 & Hr1 & Hh1).
  rewrite Hrun1 in Hrun. clear Hr1.
  assert (Hstop : forall (s : bool) w2,
             protocol_events w2
             = (GetIncident (m_sys_id body) r1, s) :: protocol_events w ->
             history w2 = history w ->
             exists added,
               protocol_events w2 = added ++ protocol_events w
               /\ attempt_shape body added
               /\ (forall m,
                     In (PatchIncident (m_sys_id body) m, true) added ->
                     held (find_incident (m_sys_id body) (incident_table w2))
                     = true)
               /\ (forall row, In (InsertHistory row, true) added ->
                   history w2 = row :: history w)
               /\ ((forall row, ~ In (InsertHistory row, true) added) ->
                   history w2 = history w)).
  { intros s w2 He Hh. exists [(GetIncident (m_sys_id body) r1, s)].
    split; [exact He|]. split; [destruct s; constructor|].
    split; [intros m [Hx|[]]; discriminate|].
    split; [intros row [Hx|[]]; discriminate | intros _; exact Hh]. }
  destruct s1.
  2:{ unfold logger in Hrun. injection Hrun as _ <-.
      now apply (Hstop false). }
  destruct r1 as [i1|].
  2:{ unfold logger in Hrun. injection Hrun as _ <-. now apply (Hstop true). }
  destruct (held (Some i1)) eqn:Hheld1.
  { unfold logger in Hrun. injection Hrun as _ <-. now apply (Hstop true). }
  destruct (gather_and_select body w1) as [res2 w2] eqn:Hrun2.
  destruct (gather_and_select_events body w1 res2 w2 Hrun2)
    as (added & Hev & Hshape & Hheld & Hrow & Hnorow).
  assert (Hw' : protocol_events w' = protocol_events w2
                /\ incident_table w' = incident_table w2
                /\ history w' = history w2).
  { destruct res2; unfold logger in Hrun; injection Hrun as _ <-;
      repeat split; reflexivity. }
  destruct Hw' as (-> & -> & ->).
  destruct Hshape as [->|(member & snapshot & cands & w0 & Hsel & Hshape)].
  { apply (Hstop true); [exact (eq_trans Hev Hev1)|].
    rewrite Hnorow by (intros row []). exact Hh1. }
  exists (added ++ [(GetIncident (m_sys_id body) (Some i1), true)]).
  split; [rewrite Hev, Hev1, <- app_assoc; reflexivity|].
  split; [econstructor; eassumption|].
  split.
  { intros m Hin. apply in_app_or in Hin as [Hin|[Hx|[]]];
      [now apply (Hheld m) | discriminate]. }
  split.
  { intros row Hin. apply in_app_or in Hin as [Hin|[Hx|[]]];
      [|discriminate]. rewrite (Hrow row Hin). congruence. }
  intros Hno. rewrite Hnorow; [exact Hh1|].
  intros row Hin. apply (Hno row). apply in_or_app. now left.
Qed.

End AttemptAnalysis.

(** ** The commit protocol of the queue worker *)

(** C1. In one processing of a work item, when a holder check (the pre-check
    or the post-check) fetched a non-empty [assigned_to], no commit call is
    among the requests of that processing. *)
Theorem no_commit_when_holder_seen
  (body : Processor.Message) (w : Processor.World) :
  exists added,
    protocol_events (snd (Processor.process_record body w))
    = added ++ protocol_events w
    /\ forall r,
         In (Processor.GetIncident (Processor.m_sys_id body) r, true) added ->
         Processor.held r = true ->
         commit_requests added = 0%nat
         /\ forall id member served,
              ~ In (Processor.PatchIncident id member, served) added.
Proof.
  destruct (process_record_events body w) as (added & Hev & Hshape & _).
  exists added. split; [exact Hev|]. intros r Hin Hheld.
  destruct Hshape as [r1|r1|r1 tail m snapshot cands w0 Hr1 Hsel Htail].
  - destruct Hin as [Hx|[]]. discriminate.
  - split; [reflexivity|]. intros id member served [Hx|[]]. discriminate.
  - destruct Htail as [r2|r2 Hr2|r2 Hr2|r2 row s Hr2 Hsnap]; simpl in Hin.
    + split; [reflexivity|].
      intros id member served [Hx|[Hx|[]]]; discriminate.
    + split; [reflexivity|].
      intros id member served [Hx|[Hx|[]]]; discriminate.
    + exfalso. destruct Hin as [Hx|[Hx|[Hx|[]]]]; try discriminate;
        inversion Hx; subst; congruence.
    + exfalso. destruct Hin as [Hx|[Hx|[Hx|[Hx|[]]]]]; try discriminate;
        inversion Hx; subst; congruence.
Qed.

(** A holder, once set, stays through a redelivery: the second processing
    of a work item whose holder is set stops at the pre-check, logs the
    skip when the check was served, and issues neither a commit nor a
    history row. *)
Lemma queue_worker_skips_held_item
  (body : Processor.Message) (w : Processor.World) :
  Processor.held
    (Processor.find_incident (Processor.m_sys_id body)
                             (Processor.incident_table w)) = true ->
  let w' := snd (Processor.process_record body w) in
  exists r (served : bool),
    protocol_events w'
    = (Processor.GetIncident (Processor.m_sys_id body) r, served)
        :: protocol_events w
    /\ Processor.history w' = Processor.history w
    /\ (served = true ->
        Processor.log w'
        = (INFO, "Incident " +:+ Processor.m_number body
                 +:+ " already assigned, skipping") :: Processor.log w).
Proof.
  intros Hheld w'. subst w'.
  unfold Processor.process_record, catch, bind.
  unfold Processor.confirm_incident_unassigned, bind, get_world, ret.
  pose proof (held_request (Processor.m_sys_id body)
                (fun table =>
                   Processor.GetIncident
                     (Processor.m_sys_id body)
                     (Processor.find_incident (Processor.m_sys_id body) table))
                Processor.always (HTTPError "incident") w Hheld) as Hafter.
  unfold Processor.request, Processor.always in *.
  destruct (Processor.turns w) as [|[| |rid rholder] rest]; simpl in *.
  - rewrite Hafter.
    destruct (Processor.find_incident (Processor.m_sys_id body)
                                      (Processor.incident_table w))
      as [i|] eqn:Hi; [|discriminate].
    simpl. do 2 eexists. repeat split; try reflexivity.
  - rewrite Hafter.
    destruct (Processor.find_incident (Processor.m_sys_id body)
                                      (Processor.incident_table w))
      as [i|] eqn:Hi; [|discriminate].
    simpl. do 2 eexists. repeat split; try reflexivity.
  - do 2 eexists. split; [reflexivity|]. split; [reflexivity|].
    intros Hx. discriminate Hx.
  - rewrite Hafter.
    match goal with
    | |- context [match ?f with Some _ => _ | None => _ end] =>
        destruct f as [i|] eqn:Hi; [|discriminate]
    end.
    simpl. do 2 eexists. repeat split; try reflexivity.
Qed.

(** The first attempt leaves the holder set when its commit was served, so
    the lemma above applies to the world it leaves. *)
Lemma queue_worker_commit_sets_holder
  (body : Processor.Message) (w : Processor.World) :
  let w' := snd (Processor.process_record body w) in
  (exists added member,
      protocol_events w' = added ++ protocol_events w
      /\ In (Processor.PatchIncident (Processor.m_sys_id body) member, true)
            added) ->
  Processor.held
    (Processor.find_incident (Processor.m_sys_id body)
                             (Processor.incident_table w')) = true.
Proof.
  intros w' (added & member & Hev & Hin).
  destruct (process_record_events body w)
    as (added' & Hev' & _ & Hheld & _).
  subst w'. simpl in Hev', Hheld.
  assert (E : added = added').
  { apply (app_inv_tail (protocol_events w)). now rewrite <- Hev, <- Hev'. }
  subst added'. exact (Hheld member Hin).
Qed.

(** ** The SaaS variant: which protocol requests a run issues *)

Lemma calm_ret {A} (a : A) : calm (ret a).
Proof. intros w. split; reflexivity. Qed.

Lemma calm_raise {A} e : calm (@raise World A e).
Proof. intros w. split; reflexivity. Qed.

Lemma calm_lift {A} (r : result A) : calm (lift r).
Proof. intros w. split; reflexivity. Qed.

Lemma calm_get_world : calm (@get_world World).
Proof. intros w. split; reflexivity. Qed.

Lemma calm_datetime_now : calm datetime_now.
Proof. intros w. split; reflexivity. Qed.

Lemma calm_logger lvl msg : calm (logger lvl msg).
Proof. intros w. split; reflexivity. Qed.

Lemma calm_set_processing f :
  calm (modify (fun w => set_processing (f w) w)).
Proof. intros w. split; reflexivity. Qed.

Lemma calm_bind {A B} (c : Eff World A) (k : A -> Eff World B) :
  calm c -> (forall a, calm (k a)) -> calm (bind c k).
Proof.
  intros Hc Hk w. unfold bind. specialize (Hc w).
  destruct (c w) as [[a|e] w1]; simpl in *; [|exact Hc].
  destruct (Hk a w1) as [H1 H2]. destruct Hc as [H3 H4].
  split; congruence.
Qed.

Lemma calm_catch {A} (c : Eff World A) h :
  calm c -> (forall e k, h e = Some k -> calm k) -> calm (catch c h).
Proof.
  intros Hc Hh w. unfold catch. specialize (Hc w).
  destruct (c w) as [[a|e] w1]; simpl in *; [exact Hc|].
  destruct (h e) as [k|] eqn:E; simpl; [|exact Hc].
  destruct (Hh e k E w1) as [H1 H2]. destruct Hc as [H3 H4].
  split; congruence.
Qed.

Lemma calm_request c failure :
  (forall b, saas_protocol_call (c, b) = false) ->
  calm (request c failure).
Proof.
  intros Hc w. unfold request.
  destruct (w_faults w) as [|[|] rest]; unfold saas_protocol_events; simpl;
    rewrite Hc; split; reflexivity.
Qed.

Lemma calm_make_request c :
  (forall b, saas_protocol_call (c, b) = false) -> calm (_make_request c).
Proof.
  intros Hc. unfold _make_request. apply calm_catch.
  - now apply calm_request.
  - intros e k [= <-]. apply calm_bind; [apply calm_logger|].
    intros _. apply calm_raise.
Qed.

Lemma calm_db_request c :
  (forall b, saas_protocol_call (c, b) = false) -> calm (db_request c).
Proof.
  intros Hc. unfold db_request. apply calm_catch.
  - now apply calm_request.
  - intros e k [= <-]. apply calm_bind; [apply calm_logger|].
    intros _. apply calm_raise.
Qed.

Create HintDb calm discriminated.
#[local] Hint Resolve calm_ret calm_raise calm_lift calm_get_world
  calm_datetime_now calm_logger calm_set_processing : calm.

Ltac calm_step :=
  first
    [ apply calm_make_request; reflexivity
    | apply calm_db_request; reflexivity
    | solve [auto with calm]
    | solve [intros ?; split; reflexivity]
    | apply calm_bind; [|intros ?] ].

Lemma calm_log_processing n g stage level message :
  calm (log_processing n g stage level message).
Proof. unfold log_processing. repeat calm_step. Qed.

Lemma calm_get_group_members g : calm (get_group_members g).
Proof.
  unfold get_group_members. repeat calm_step.
  destruct (sn_groups _ !! g); repeat calm_step.
Qed.

Lemma calm_get_group_members_from_servicenow g :
  calm (get_group_members_from_servicenow g).
Proof.
  unfold get_group_members_from_servicenow. apply calm_catch.
  - apply calm_get_group_members.
  - intros e k Hk. destruct e; inversion Hk; subst. repeat calm_step.
Qed.

Lemma calm_get_member_incidents m : calm (get_member_incidents m).
Proof. unfold get_member_incidents. repeat calm_step. Qed.

Lemma calm_get_user_by_username u : calm (get_user_by_username u).
Proof. unfold get_user_by_username. repeat calm_step. Qed.

Lemma calm_get_members_by_group g : calm (get_members_by_group g).
Proof. unfold get_members_by_group. repeat calm_step. Qed.

Lemma calm_get_member_workloads members :
  forall acc, calm (get_member_workloads members acc).
Proof.
  induction members as [|m members IH]; intros acc; simpl.
  - apply calm_ret.
  - apply calm_bind; [|intros a; apply IH].
    apply calm_catch.
    + apply calm_bind; [apply calm_get_user_by_username|].
      intros [u|]; repeat calm_step.
    + intros e k Hk. destruct e; inversion Hk; subst. repeat calm_step.
Qed.

Section CalmScoring.
Context `{Runtime} `{Config}.

Lemma calm_availability_score member :
  calm (_calculate_availability_score member).
Proof.
  intros w. rewrite availability_score_run.
  destruct (weekend_excluded (w_now w) member); [split; reflexivity|].
  destruct (parsed_shift member) as [[s e]|]; split; reflexivity.
Qed.

Lemma calm_is_member_currently_available member current_time :
  calm (is_member_currently_available member current_time).
Proof.
  intros w. rewrite is_member_currently_available_run.
  destruct (weekend_excluded current_time member); [split; reflexivity|].
  destruct (parsed_shift member) as [[s e]|]; [|split; reflexivity].
  destruct (_is_time_in_shift (time_of current_time) s e);
    [split; reflexivity|].
  pose proof (calm_availability_score member w) as Hc.
  destruct (_calculate_availability_score member w) as [[a|x] w'];
    exact Hc.
Qed.

Lemma calm_filter_currently_available members current_time :
  calm (filter_currently_available members current_time).
Proof.
  induction members as [|m members IH]; simpl; [apply calm_ret|].
  apply calm_bind; [apply calm_is_member_currently_available|].
  intros b. apply calm_bind; [exact IH|]. intros l. apply calm_ret.
Qed.

Lemma calm_get_available_members g sn :
  calm (get_available_members g sn).
Proof.
  unfold get_available_members. apply calm_catch.
  - apply calm_bind; [apply calm_get_members_by_group|].
    intros [|m ms]; repeat calm_step.
    try apply calm_filter_currently_available.
  - intros e k Hk. destruct e; inversion Hk; subst. repeat calm_step.
Qed.

Lemma calm_score_member wl p member : calm (score_member wl p member).
Proof.
  unfold score_member. apply calm_bind; [apply calm_lift|]. intros r.
  apply calm_bind; [apply calm_availability_score|]. intros a.
  apply calm_ret.
Qed.

Lemma calm_score_members wl p members :
  forall acc, calm (score_members wl p members acc).
Proof.
  induction members as [|m members IH]; intros acc; simpl.
  - apply calm_ret.
  - apply calm_bind; [|intros a; apply IH].
    apply calm_catch.
    + apply calm_bind; [apply calm_score_member|]. intros mw.
      apply calm_ret.
    + intros e k [= <-]. repeat calm_step.
Qed.

Lemma calm_calculate_member_weights members wl p :
  calm (calculate_member_weights members wl p).
Proof.
  unfold calculate_member_weights. destruct members; [apply calm_raise|].
  apply calm_bind; [apply calm_score_members|].
  intros [|mw l]; [apply calm_raise | apply calm_ret].
Qed.

Lemma calm_select_best_member l : calm (select_best_member l).
Proof.
  unfold select_best_member. destruct l; [apply calm_raise | apply calm_ret].
Qed.

Lemma calm_get_weights_summary l : calm (get_weights_summary l).
Proof. unfold get_weights_summary. repeat calm_step. Qed.

End CalmScoring.

Lemma make_request_run c w :
  exists (served : bool) w',
    _make_request c w
    = ((if served then Ok tt
        else Raise (ServiceNowError "API request failed")), w')
    /\ w_calls w' = (c, served) :: w_calls w
    /\ db_history w' = db_history w.
Proof.
  unfold _make_request, catch, request, bind, logger, raise.
  destruct (w_faults w) as [|[|] rest].
  - exists true. eexists. repeat split; reflexivity.
  - exists false. eexists. repeat split; reflexivity.
  - exists true. eexists. repeat split; reflexivity.
Qed.

Lemma db_request_run c w :
  exists (served : bool) w',
    db_request c w
    = ((if served then Ok tt
        else Raise (DatabaseError "Database operation failed")), w')
    /\ w_calls w' = (c, served) :: w_calls w
    /\ db_history w' = db_history w.
Proof.
  unfold db_request, catch, request, bind, logger, raise.
  destruct (w_faults w) as [|[|] rest].
  - exists true. eexists. repeat split; reflexivity.
  - exists false. eexists. repeat split; reflexivity.
  - exists true. eexists. repeat split; reflexivity.
Qed.

Lemma saas_assign_incident_to_member_run n m w :
  exists (res : bool) w' added,
    assign_incident_to_member n m w = (Ok res, w')
    /\ saas_protocol_events w' = added ++ saas_protocol_events w
    /\ db_history w' = db_history w
    /\ ((res = true /\ exists id, added = [(SnPutIncident id m, true)])
        \/ (res = false
            /\ (added = [] \/ exists id, added = [(SnPutIncident id m, false)]))).
Proof.
  unfold assign_incident_to_member, assign_incident.
  unfold catch at 1. unfold bind at 1.
  destruct (make_request_run (SnFindIncident n) w)
    as (s1 & w1 & Hrun1 & Hc1 & Hh1).
  rewrite Hrun1.
  assert (He1 : saas_protocol_events w1 = saas_protocol_events w)
    by (unfold saas_protocol_events; rewrite Hc1; reflexivity).
  destruct s1.
  2:{ exists false. eexists. exists []. unfold bind, logger, ret.
      split; [reflexivity|]. split; [exact He1|]. split; [exact Hh1|].
      right. split; [reflexivity | now left]. }
  unfold bind at 1, get_world at 1.
  destruct (List.filter (fun i => String.eqb (number i) n) (sn_incidents w1))
    as [|incident others].
  { exists false. eexists. exists []. unfold bind, logger, ret.
    split; [reflexivity|]. split; [exact He1|]. split; [exact Hh1|].
    right. split; [reflexivity | now left]. }
  unfold catch at 1. unfold bind at 1.
  destruct (make_request_run (SnPutIncident (sys_id incident) m) w1)
    as (s2 & w2 & Hrun2 & Hc2 & Hh2).
  rewrite Hrun2.
  assert (He2 : saas_protocol_events w2
                = (SnPutIncident (sys_id incident) m, s2)
                    :: saas_protocol_events w)
    by (unfold saas_protocol_events; rewrite Hc2; simpl;
        fold (saas_protocol_events w1); now rewrite He1).
  destruct s2.
  - exists true. eexists.
    exists [(SnPutIncident (sys_id incident) m, true)].
    unfold bind, modify, logger, ret.
    split; [reflexivity|]. split; [exact He2|].
    split; [simpl; congruence|]. left. split; [reflexivity | eauto].
  - exists false. eexists.
    exists [(SnPutIncident (sys_id incident) m, false)].
    unfold bind, logger, ret.
    split; [reflexivity|]. split; [exact He2|].
    split; [simpl; congruence|]. right. split; [reflexivity | eauto].
Qed.

Lemma calm_run {A} (c : Eff World A) w r w1 :
  calm c -> c w = (r, w1) ->
  saas_protocol_events w1 = saas_protocol_events w
  /\ db_history w1 = db_history w.
Proof. intros Hc E. specialize (Hc w). now rewrite E in Hc. Qed.

Ltac saas_stop_at wk :=
  match goal with
  | Hstop : (forall w1 : World,
               saas_protocol_events w1 = saas_protocol_events ?w -> _) |- _ =>
      apply Hstop;
      [ change (saas_protocol_events wk = saas_protocol_events w)
      | change (db_history wk = db_history w) ];
      congruence
  end.

Section SaasAttempt.
Context `{Runtime} `{Config}.

Lemma log_assignment_decision_run incident_data sel mws reason w :
  exists row (served : bool) w',
    log_assignment_decision incident_data sel mws reason w = (Ok tt, w')
    /\ saas_protocol_events w'
       = (DbLogAssignment row, served) :: saas_protocol_events w
    /\ db_history w'
       = (if served then row :: db_history w else db_history w)
    /\ weight_distribution (al_calculated_weights row) = map weight_row mws
    /\ al_assigned_member_id row = mw_member_id sel
    /\ al_assignment_reason row = reason
    /\ al_incident_number row = id_incident_number incident_data.
Proof.
  unfold log_assignment_decision, get_weights_summary, log_assignment.
  unfold catch at 1. unfold bind at 1, bind at 1, datetime_now at 1.
  unfold ret at 1. unfold bind at 1, bind at 1.
  match goal with
  | |- context [db_request (DbLogAssignment ?row) w] =>
      destruct (db_request_run (DbLogAssignment row) w)
        as (s1 & w1 & Hrun1 & Hc1 & Hh1);
      rewrite Hrun1; exists row, s1
  end.
  assert (He1 : forall row,
             w_calls w1 = (DbLogAssignment row, s1) :: w_calls w ->
             saas_protocol_events w1
             = (DbLogAssignment row, s1) :: saas_protocol_events w)
    by (intros row E; unfold saas_protocol_events; now rewrite E).
  specialize (He1 _ Hc1).
  destruct s1.
  2:{ eexists. unfold logger. split; [reflexivity|].
      split; [exact He1|]. split; [exact Hh1|]. repeat split. }
  unfold modify at 1. unfold bind at 1. unfold log_processing.
  unfold bind at 1.
  match goal with
  | |- context [db_request ?c ?w2] =>
      destruct (db_request_run c w2) as (s2 & w3 & Hrun2 & Hc2 & Hh2);
      rewrite Hrun2
  end.
  assert (He2 : saas_protocol_events w3 = saas_protocol_events w1)
    by (unfold saas_protocol_events; rewrite Hc2; reflexivity).
  destruct s2; eexists; unfold modify, logger, bind;
    (split; [reflexivity|]); simpl.
  - split; [exact (eq_trans He2 He1)|].
    split; [simpl in Hh2; congruence | repeat split].
  - split; [exact (eq_trans He2 He1)|].
    split; [simpl in Hh2; congruence | repeat split].
Qed.

(** The protocol requests of one run of [process_incident_assignment], and
    the history table it leaves. *)
Lemma process_incident_assignment_events incident_data w :
  exists added,
    let w' := snd (process_incident_assignment incident_data w) in
    saas_protocol_events w' = added ++ saas_protocol_events w
    /\ saas_attempt_shape incident_data added
    /\ (forall row, In (DbLogAssignment row, true) added ->
        db_history w' = row :: db_history w)
    /\ ((forall row, ~ In (DbLogAssignment row, true) added) ->
        db_history w' = db_history w).
Proof.
  destruct (process_incident_assignment incident_data w) as [res w'] eqn:Hrun.
  cbn [snd].
  unfold process_incident_assignment in Hrun. unfold catch at 1 in Hrun.
  match type of Hrun with
  | (let (r, w1) := ?body w in _) = _ =>
      destruct (body w) as [r wb] eqn:Hbody
  end.
  (* the handlers are calm *)
  assert (Hhandler :
            saas_protocol_events w' = saas_protocol_events wb
            /\ db_history w' = db_history wb).
  { destruct r as [a|e]; [injection Hrun as _ <-; split; reflexivity|].
    match type of Hrun with
    | ?k wb = _ =>
        assert (Hk : calm k);
        [|destruct (Hk wb) as [H1 H2]; rewrite Hrun in H1, H2;
          split; assumption]
    end.
    apply calm_bind; [|intros; apply calm_ret].
    destruct e; (apply calm_bind;
                 [apply calm_logger | intros; apply calm_log_processing]). }
  destruct Hhandler as [-> ->]. clear Hrun res w'.
  assert (Hstop : forall w1,
             saas_protocol_events w1 = saas_protocol_events w ->
             db_history w1 = db_history w ->
             exists added,
               saas_protocol_events w1 = added ++ saas_protocol_events w
               /\ saas_attempt_shape incident_data added
               /\ (forall row, In (DbLogAssignment row, true) added ->
                   db_history w1 = row :: db_history w)
               /\ ((forall row, ~ In (DbLogAssignment row, true) added) ->
                   db_history w1 = db_history w)).
  { intros w1 He Hh. exists []. split; [exact He|]. split; [constructor|].
    split; [intros row [] | intros _; exact Hh]. }
  unfold bind at 1 in Hbody.
  match type of Hbody with
  | context [log_processing ?a ?b ?c ?d ?e w] =>
      destruct (log_processing a b c d e w) as [[u|x] w1] eqn:E1;
      apply (calm_run _ _ _ _ (calm_log_processing _ _ _ _ _)) in E1
        as [He1 Hh1]
  end.
  2:{ injection Hbody as _ <-. saas_stop_at w1. }
  unfold bind at 1 in Hbody.
  destruct (get_group_members_from_servicenow
              (id_assignment_group incident_data) w1)
    as [[sn|x] w2] eqn:E2;
    apply (calm_run _ _ _ _ (calm_get_group_members_from_servicenow _)) in E2
      as [He2 Hh2].
  2:{ injection Hbody as _ <-. saas_stop_at w2. }
  destruct sn as [|sn0 sn].
  { unfold bind, logger, ret in Hbody. injection Hbody as _ <-.
    saas_stop_at w2. }
  unfold bind at 1 in Hbody.
  destruct (get_available_members (id_assignment_group incident_data)
              (sn0 :: sn) w2) as [[am|x] w3] eqn:E3;
    apply (calm_run _ _ _ _ (calm_get_available_members _ _)) in E3
      as [He3 Hh3].
  2:{ injection Hbody as _ <-. saas_stop_at w3. }
  destruct am as [|am0 am].
  { unfold raise in Hbody. injection Hbody as _ <-. saas_stop_at w3. }
  unfold bind at 1 in Hbody.
  destruct (get_member_workloads (am0 :: am) ∅ w3) as [[wl|x] w4] eqn:E4;
    apply (calm_run _ _ _ _ (calm_get_member_workloads _ _)) in E4
      as [He4 Hh4].
  2:{ injection Hbody as _ <-. saas_stop_at w4. }
  unfold bind at 1 in Hbody.
  destruct (calculate_member_weights (am0 :: am) wl
              (default "4"%string (id_priority incident_data)) w4)
    as [[mws|x] w5] eqn:E5;
    pose proof (f_equal fst E5) as Eranked;
    apply (calm_run _ _ _ _ (calm_calculate_member_weights _ _ _)) in E5
      as [He5 Hh5].
  2:{ injection Hbody as _ <-. saas_stop_at w5. }
  unfold bind at 1 in Hbody.
  destruct (select_best_member mws w5) as [[[sel reason]|x] w6] eqn:E6;
    pose proof (f_equal fst E6) as Ebest;
    apply (calm_run _ _ _ _ (calm_select_best_member _)) in E6
      as [He6 Hh6].
  2:{ injection Hbody as _ <-. saas_stop_at w6. }
  destruct (find_servicenow_member (sn0 :: sn) (mw_member_id sel))
    as [snm|].
  2:{ unfold bind, logger, ret in Hbody. injection Hbody as _ <-.
      saas_stop_at w6. }
  unfold bind at 1 in Hbody.
  destruct (saas_assign_incident_to_member_run
              (id_incident_number incident_data) (user_sys_id snm) w6)
    as (ok & w7 & added7 & Hrun7 & He7 & Hh7 & Hcase).
  rewrite Hrun7 in Hbody.
  assert (He6' : saas_protocol_events w6 = saas_protocol_events w)
    by congruence.
  assert (Hh6' : db_history w6 = db_history w) by congruence.
  destruct Hcase as [(-> & id & ->) | (-> & Hadded)].
  - unfold bind at 1 in Hbody.
    destruct (log_assignment_decision_run incident_data sel mws reason w7)
      as (row & s8 & w8 & Hrun8 & He8 & Hh8 & Hrow1 & Hrow2 & Hrow3 & Hrow4).
    rewrite Hrun8 in Hbody.
    unfold bind, logger, ret in Hbody. injection Hbody as _ <-.
    change (saas_protocol_events (set_log ?l w8))
      with (saas_protocol_events w8).
    change (db_history (set_log ?l w8)) with (db_history w8).
    exists [(DbLogAssignment row, s8);
            (SnPutIncident id (user_sys_id snm), true)].
    split; [rewrite He8, He7, He6'; reflexivity|].
    split; [econstructor; eassumption|].
    destruct s8; split.
    + intros row' [Hx|[Hx|[]]]; [|discriminate].
      inversion Hx; subst. congruence.
    + intros Hno. exfalso. apply (Hno row). now left.
    + intros row' [Hx|[Hx|[]]]; discriminate.
    + intros _. congruence.
  - unfold bind, logger, ret in Hbody. injection Hbody as _ <-.
    change (saas_protocol_events (set_log ?l w7))
      with (saas_protocol_events w7).
    change (db_history (set_log ?l w7)) with (db_history w7).
    destruct Hadded as [-> | (id & ->)].
    + exists []. split; [rewrite He7, He6'; reflexivity|].
      split; [constructor|].
      split; [intros row [] | intros _; congruence].
    + exists [(SnPutIncident id (user_sys_id snm), false)].
      split; [rewrite He7, He6'; reflexivity|].
      split; [constructor|].
      split; [intros row [Hx|[]]; discriminate | intros _; congruence].
Qed.

End SaasAttempt.

(** ** The decision record *)

Lemma commit_shape_counts id member snapshot tail :
  commit_shape id member snapshot tail ->
  history_requests tail = (if commit_served tail then 1 else 0)%nat
  /\ (commit_served tail = false ->
      forall row, ~ In (Processor.InsertHistory row, true) tail).
Proof.
  intros [r2|r2 Hr2|r2 Hr2|r2 row s Hr2 Hsnap]; (split; [reflexivity|]);
    simpl; intros Hs row'; try discriminate;
    intros Hin; repeat (destruct Hin as [Hx|Hin]; [discriminate|]);
    exact Hin.
Qed.

Lemma attempt_shape_counts body added :
  attempt_shape body added ->
  history_requests added = (if commit_served added then 1 else 0)%nat
  /\ (commit_served added = false ->
      forall row, ~ In (Processor.InsertHistory row, true) added).
Proof.
  intros [r1|r1|r1 tail m snapshot cands w0 Hr1 Hsel Htail].
  - split; [reflexivity|]. intros _ row [Hx|[]]. discriminate.
  - split; [reflexivity|]. intros _ row [Hx|[]]. discriminate.
  - destruct (commit_shape_counts _ _ _ tail Htail) as [Hn Hno].
    unfold history_requests, commit_served in *.
    rewrite List.filter_app, length_app, existsb_app. simpl.
    rewrite Nat.add_0_r, orb_false_r. split; [exact Hn|].
    intros Hs row Hin. apply in_app_or in Hin as [Hin|[Hx|[]]];
      [exact (Hno Hs row Hin) | discriminate].
Qed.

Lemma saas_attempt_shape_counts `{Runtime} `{Config} incident_data added :
  saas_attempt_shape incident_data added ->
  decision_requests added = (if saas_commit_served added then 1 else 0)%nat
  /\ (saas_commit_served added = false ->
      forall row, ~ In (DbLogAssignment row, true) added).
Proof.
  intros [|id m|id m row s ? ? ? ? ? ? ? ? ? ? ? ? ? ?];
    (split; [reflexivity|]); simpl;
    intros Hs row'; try discriminate;
    intros Hin; repeat (destruct Hin as [Hx|Hin]; [discriminate|]);
    exact Hin.
Qed.

Lemma classic_insert (added : list (Processor.Call * bool)) :
  (exists row, In (Processor.InsertHistory row, true) added)
  \/ (forall row, ~ In (Processor.InsertHistory row, true) added).
Proof.
  induction added as [|[c b] added [(row & Hin)|Hnone]].
  - right. intros row [].
  - left. exists row. now right.
  - destruct c as [| | | | | |row]; destruct b;
      try (right; intros row' [Hx|Hin];
           [discriminate | exact (Hnone row' Hin)]).
    left. exists row. now left.
Qed.

Lemma classic_decision (added : list (Call * bool)) :
  (exists row, In (DbLogAssignment row, true) added)
  \/ (forall row, ~ In (DbLogAssignment row, true) added).
Proof.
  induction added as [|[c b] added [(row & Hin)|Hnone]].
  - right. intros row [].
  - left. exists row. now right.
  - destruct c as [| | | | | | |row|]; destruct b;
      try (right; intros row' [Hx|Hin];
           [discriminate | exact (Hnone row' Hin)]).
    left. exists row. now left.
Qed.

Lemma attempt_shape_snapshot body added row served :
  attempt_shape body added ->
  In (Processor.InsertHistory row, served) added ->
  exists member snapshot candidates w0,
    fst (Processor.select_best_member candidates body w0)
    = Ok (Some member, snapshot)
    /\ Processor.h_algorithm_snapshot row
       = {| Processor.scores := snapshot; Processor.chosen := member |}
    /\ In (Processor.PatchIncident (Processor.m_sys_id body) member, true)
          added.
Proof.
  intros [r1|r1|r1 tail m snapshot cands w0 Hr1 Hsel Htail] Hin.
  - destruct Hin as [Hx|[]]. discriminate.
  - destruct Hin as [Hx|[]]. discriminate.
  - apply in_app_or in Hin as [Hin|[Hx|[]]]; [|discriminate].
    exists m, snapshot, cands, w0. split; [exact Hsel|].
    destruct Htail as [r2|r2 Hr2|r2 Hr2|r2 row' s Hr2 Hsnap];
      repeat (destruct Hin as [Hx|Hin]; [try discriminate|]);
      try contradiction.
    inversion Hx; subst. split; [exact Hsnap|].
    apply in_or_app. left. right. now left.
Qed.

Lemma saas_attempt_shape_snapshot `{Runtime} `{Config}
  incident_data added row served :
  saas_attempt_shape incident_data added ->
  In (DbLogAssignment row, served) added ->
  exists members wl p w0 w1 ranked best reason,
    fst (calculate_member_weights members wl p w0) = Ok ranked
    /\ fst (select_best_member ranked w1) = Ok (best, reason)
    /\ weight_distribution (al_calculated_weights row) = map weight_row ranked
    /\ al_assigned_member_id row = mw_member_id best
    /\ al_assignment_reason row = reason
    /\ al_incident_number row = id_incident_number incident_data.
Proof.
  intros [|id m|id m row' s members wl p w0 w1 ranked best reason
                  Hr Hb H1 H2 H3 H4] Hin.
  - destruct Hin.
  - destruct Hin as [Hx|[]]. discriminate.
  - destruct Hin as [Hx|[Hx|[]]]; [|discriminate].
    injection Hx as Erow Es. subst row' s.
    exists members, wl, p, w0, w1, ranked, best, reason.
    repeat split; assumption.
Qed.



(** The post-check at work: another writer takes the incident while the
    candidates are scored (eighth request of the attempt); the attempt
    stops without a commit and without a history row. *)
Example lost_race_issues_no_commit :
  let script :=
    [Processor.Serve; Processor.Serve; Processor.Serve; Processor.Serve;
     Processor.Serve; Processor.Serve; Processor.Serve;
     Processor.Race "i1" "eve"] in
  let w' := snd (Processor.process_record
                   example_message (example_queue_world "" script [])) in
  commit_requests (protocol_events w') = 0%nat
  /\ history_requests (protocol_events w') = 0%nat
  /\ head (Processor.log w')
     = Some (INFO,
             "Incident INC0001 was assigned during processing, skipping"%string).
Proof. vm_compute. repeat split. Qed.

(** The queue worker commits an unheld incident once and then skips it. *)
Example queue_worker_twice :
  let w1 := snd (Processor.process_record
                   example_message (example_queue_world "" [] [])) in
  let w2 := snd (Processor.process_record example_message w1) in
  commit_requests (protocol_events w1) = 1%nat
  /\ commit_requests (protocol_events w2) = 1%nat
  /\ head (Processor.log w2)
     = Some (INFO, "Incident INC0001 already assigned, skipping"%string).
Proof. vm_compute. repeat split. Qed.

(** ** Redelivery in the SaaS variant *)


(** ** Ranking: ties and determinism *)

Section WinnerAmongTies.
Context {A : Type} (before : A -> A -> bool).
Hypothesis before_total : forall x y, before x y = true \/ before y x = true.
Hypothesis before_trans :
  forall x y z, before x y = true -> before y z = true -> before x z = true.

Lemma filter_head_split (p : A -> bool) l x t :
  List.filter p l = x :: t ->
  exists pre post,
    l = pre ++ x :: post /\ Forall (fun y => p y = false) pre.
Proof.
  induction l as [|y l IH]; simpl; [discriminate|].
  destruct (p y) eqn:Py.
  - intros [= -> <-]. exists [], l. split; [reflexivity | constructor].
  - intros E. destruct (IH E) as (pre & post & -> & Hpre).
    exists (y :: pre), post. split; [reflexivity | now constructor].
Qed.

(** The head of the sorted list is the first element of the input that no
    other element strictly precedes. *)
Lemma winner_first_among_ties l best rest :
  sort_stable before l = best :: rest ->
  exists pre post,
    l = pre ++ best :: post
    /\ Forall (fun y => before y best = false) pre
    /\ Forall (fun y => before best y = true) l.
Proof using before_total before_trans.
  intros Hsort.
  pose proof (sort_stable_sorted before before_total before_trans l) as Hs.
  rewrite Hsort in Hs. apply StronglySorted_inv in Hs as [_ Hrest].
  assert (Hself : before best best = true)
    by (destruct (before_total best best); assumption).
  assert (Hall : Forall (fun y => before best y = true) l).
  { eapply Permutation_Forall;
      [symmetry; apply (sort_stable_perm before)|].
    rewrite Hsort. now constructor. }
  pose (tied := fun y => before y best && before best y).
  assert (Hf : List.filter tied (sort_stable before l) = List.filter tied l).
  { apply sort_stable_filter. intros x y Hx Hy. unfold tied in *.
    apply andb_true_iff in Hx as [Hx _]. apply andb_true_iff in Hy as [_ Hy].
    exact (before_trans x best y Hx Hy). }
  rewrite Hsort in Hf. simpl in Hf. unfold tied at 1 in Hf.
  rewrite Hself in Hf. simpl in Hf. symmetry in Hf.
  destruct (filter_head_split tied l best _ Hf) as (pre & post & El & Hpre).
  exists pre, post. split; [exact El|]. split; [|exact Hall].
  rewrite List.Forall_forall in *. intros y Hy.
  specialize (Hpre y Hy). unfold tied in Hpre.
  assert (Hby : before best y = true)
    by (apply Hall; rewrite El; apply in_or_app; now left).
  rewrite Hby, andb_true_r in Hpre. exact Hpre.
Qed.

End WinnerAmongTies.

Lemma by_weight_asc_total x y :
  Processor.by_weight_asc x y = true \/ Processor.by_weight_asc y x = true.
Proof.
  unfold Processor.by_weight_asc. rewrite !Qle_bool_iff.
  destruct (Qlt_le_dec (Processor.final_weight x) (Processor.final_weight y));
    [left|right]; lra.
Qed.

Lemma by_weight_asc_trans x y z :
  Processor.by_weight_asc x y = true -> Processor.by_weight_asc y z = true ->
  Processor.by_weight_asc x z = true.
Proof. unfold Processor.by_weight_asc. rewrite !Qle_bool_iff. lra. Qed.

(** *** The queue worker's scoring loop *)

Section QueueScores.
Import Processor.

Lemma randoms_request c accepts failure w :
  randoms (snd (request c accepts failure w)) = randoms w.
Proof.
  unfold request.
  destruct (match turns w with [] => (Serve, []) | t :: rest => (t, rest) end)
    as [t rest].
  match goal with
  | |- context [if ?b then _ else _] => destruct b
  end; reflexivity.
Qed.

Lemma fetch_assigned_incidents_randoms member w r w1 :
  fetch_assigned_incidents_for_member member w = (r, w1) ->
  randoms w1 = randoms w.
Proof.
  unfold fetch_assigned_incidents_for_member, bind, get_world, ret.
  intros E.
  match type of E with
  | context [request ?c ?a ?f w] =>
      pose proof (randoms_request c a f w) as Hr;
      destruct (request c a f w) as [[u|x] w'] eqn:Er
  end; simpl in Hr; injection E as _ <-; exact Hr.
Qed.

Lemma get_recent_assignment_count_randoms member hours w r w1 :
  get_recent_assignment_count member hours w = (r, w1) ->
  randoms w1 = randoms w.
Proof.
  unfold get_recent_assignment_count, bind, get_world, ret.
  intros E.
  match type of E with
  | context [request ?c ?a ?f w] =>
      pose proof (randoms_request c a f w) as Hr;
      destruct (request c a f w) as [[u|x] w'] eqn:Er
  end; simpl in Hr; injection E as _ <-; exact Hr.
Qed.

Lemma random_uniform_run w :
  exists j w1,
    random_uniform 0 0.01 w = (Ok j, w1)
    /\ (unit_draws (randoms w) ->
        (0 <= j /\ j <= 0.01)%Q /\ unit_draws (randoms w1)).
Proof.
  unfold random_uniform. destruct (randoms w) as [|u rest] eqn:E.
  - do 2 eexists. split; [reflexivity|]. intros _. rewrite E.
    split; [lra | constructor].
  - do 2 eexists. split; [reflexivity|]. intros Hu.
    inversion Hu as [|? ? [H0 H1] Hrest]; subst. simpl.
    split; [lra | exact Hrest].
Qed.

(** The loop appends one score per candidate, in the order of the
    candidates, each with a jitter between 0 and 0.01. *)
Lemma score_candidates_run candidates now_dt :
  forall acc w scores w',
    score_candidates candidates now_dt acc w = (Ok scores, w') ->
    exists new,
      scores = acc ++ new
      /\ map s_member_sys_id new = map member_sys_id candidates
      /\ (unit_draws (randoms w) -> Forall bounded_jitter new).
Proof.
  induction candidates as [|c rest IH]; intros acc w scores w' Hrun.
  - injection Hrun as <- _. exists []. rewrite app_nil_r.
    split; [reflexivity|]. split; [reflexivity | constructor].
  - cbn [score_candidates] in Hrun. unfold bind at 1 in Hrun.
    destruct (fetch_assigned_incidents_for_member (member_sys_id c) w)
      as [[assigned|x] w1] eqn:E1; [|discriminate].
    apply fetch_assigned_incidents_randoms in E1.
    unfold bind at 1 in Hrun.
    destruct (get_recent_assignment_count (member_sys_id c) 24 w1)
      as [[recent|x] w2] eqn:E2; [|discriminate].
    apply get_recent_assignment_count_randoms in E2.
    unfold bind at 1 in Hrun.
    destruct (random_uniform_run w2) as (j & w3 & E3 & Hj).
    rewrite E3 in Hrun.
    destruct (IH _ _ _ _ Hrun) as (new & -> & Hids & Hjit).
    eexists (_ :: new). rewrite <- app_assoc.
    split; [reflexivity|]. split; [simpl; now rewrite Hids|].
    intros Hu. rewrite <- E1, <- E2 in Hu.
    destruct (Hj Hu) as [Hjb Hu3]. constructor; [|exact (Hjit Hu3)].
    unfold bounded_jitter, jitter_of, unjittered_weight. simpl.
    match goal with
    | |- context [(?a * ?b * ?d + ?r + j)%Q] =>
        generalize (a * b * d)%Q; intros q
    end.
    lra.
Qed.

Lemma queue_select_best_member_run candidates body w winner ranked :
  fst (select_best_member candidates body w) = Ok (winner, ranked) ->
  exists scores,
    fst (score_candidates candidates (utcnow_seconds w) [] w) = Ok scores
    /\ ranked = sort_stable by_weight_asc scores
    /\ winner = option_map s_member_sys_id (head ranked).
Proof.
  unfold select_best_member, bind, get_world, ret.
  destruct (score_candidates candidates (utcnow_seconds w) [] w)
    as [[scores|x] w1]; [|discriminate].
  destruct (sort_stable by_weight_asc scores) as [|best rest] eqn:Es;
    simpl; intros [= <- <-]; exists scores; rewrite Es;
    repeat split; reflexivity.
Qed.

End QueueScores.

Lemma weight_class_desc c x y :
  Qeq_bool (final_weight x) c = true -> Qeq_bool (final_weight y) c = true ->
  by_weight_desc x y = true.
Proof.
  unfold by_weight_desc. rewrite !Qeq_bool_iff, Qle_bool_iff.
  intros -> ->. lra.
Qed.

Lemma weight_class_asc c x y :
  Qeq_bool (Processor.final_weight x) c = true ->
  Qeq_bool (Processor.final_weight y) c = true ->
  Processor.by_weight_asc x y = true.
Proof.
  unfold Processor.by_weight_asc. rewrite !Qeq_bool_iff, Qle_bool_iff.
  intros -> ->. lra.
Qed.



(** ** Examples on the scoring batch *)

(** A batch of three: the first member has no experience level and is
    skipped with an error line; the other two are returned, the idle one
    first. *)
Example batch_with_a_failing_member :
  let members :=
    [ example_member "ann" None "09:00" "17:00" false;
      example_member "bo" (Some 2) "09:00" "17:00" false;
      example_member "cy" (Some 2) "09:00" "17:00" false ] in
  let busy := {| sys_id := "i9"; number := "INC0009";
                 priority := Some "1"%string; state := "2";
                 assigned_to := "bo" |} in
  let wl : gmap string (list Incident) := {["bo"%string := [busy]]} in
  let run := @calculate_member_weights example_runtime default_config
               members wl "3"
               (example_world (DateTime 2 (Time 10 0 0 0))) in
  option_map (map mw_member_id)
             (match fst run with Ok l => Some l | Raise _ => None end)
  = Some ["cy"; "bo"]%string
  /\ map fst (w_log (snd run)) = [ERROR].
Proof. vm_compute. split; reflexivity. Qed.

(** Two candidates with equal final weight keep their input order, and the
    rationale names the first. *)
Example tie_goes_to_the_first_listed :
  let members :=
    [ example_member "bo" (Some 2) "09:00" "17:00" false;
      example_member "cy" (Some 2) "09:00" "17:00" false ] in
  let w := example_world (DateTime 2 (Time 10 0 0 0)) in
  match fst (@calculate_member_weights example_runtime default_config
               members ∅ "3" w) with
  | Ok ranked =>
      map mw_member_id ranked = ["bo"; "cy"]%string
      /\ option_map snd
           (match fst (@select_best_member example_runtime ranked w) with
            | Ok x => Some x
            | Raise _ => None
            end)
         = Some ("Selected bo due to: low current workload, "
                 +:+ "high experience level, currently available. "
                 +:+ "Final weight: 1.0744")%string
  | Raise _ => False
  end.
Proof. vm_compute. split; reflexivity. Qed.

(** An off-duty candidate two hours after the end of the shift is kept with
    the score 0.5; three hours after, the candidate is removed. *)
Example off_duty_threshold :
  let member := example_member "lee" (Some 2) "09:00" "17:00" true in
  fst (@is_member_currently_available example_runtime member
         (DateTime 2 (Time 19 0 0 0))
         (example_world (DateTime 2 (Time 19 0 0 0)))) = Ok true
  /\ fst (@_calculate_availability_score example_runtime member
            (example_world (DateTime 2 (Time 19 0 0 0)))) = Ok (1.0 - 120 / 240)%Q
  /\ fst (@is_member_currently_available example_runtime member
            (DateTime 2 (Time 20 0 0 0))
            (example_world (DateTime 2 (Time 20 0 0 0)))) = Ok false.
Proof. vm_compute. repeat split. Qed.

(* ================================================================== *)
(** * Further properties *)
(* ================================================================== *)

(** ** The role scorer *)

Lemma role_multipliers_bounds :
  map_Forall (fun _ v => (0.8 <= v)%Q) ROLE_MULTIPLIERS.
Proof.
  apply map_Forall_to_list.
  let l := eval vm_compute in (map_to_list ROLE_MULTIPLIERS) in
  replace (map_to_list ROLE_MULTIPLIERS) with l by (vm_compute; reflexivity).
  repeat (constructor; [simpl; lra|]). constructor.
Qed.

Lemma role_base_pos role : (0.8 <= role_base role)%Q.
Proof.
  unfold role_base.
  destruct (ROLE_MULTIPLIERS !! upper role) as [v|] eqn:E; simpl.
  - exact (role_multipliers_bounds _ _ E).
  - lra.
Qed.

Lemma upper_ascii_idempotent c : upper_ascii (upper_ascii c) = upper_ascii c.
Proof. destruct c as [[] [] [] [] [] [] [] []]; reflexivity. Qed.

Lemma upper_idempotent s : upper (upper s) = upper s.
Proof.
  induction s as [|c s IH]; simpl; [reflexivity|].
  now rewrite upper_ascii_idempotent, IH.
Qed.

Lemma role_score_value role n :
  exists s,
    _calculate_role_score role (Some n) = Ok s
    /\ (n <= 10 -> (s == role_base role * (1 + 0.02 * inject_Z n))%Q)
    /\ (10 <= n -> (s == role_base role * 1.2)%Q).
Proof.
  unfold _calculate_role_score. fold (role_base role).
  eexists. split; [reflexivity|].
  unfold py_min.
  destruct (Qlt_bool 0.2 (inject_Z n * 0.02)) eqn:E.
  - apply Qlt_bool_iff in E. split.
    + intros Hn. rewrite Zle_Qle in Hn. change (inject_Z 10) with (10 # 1) in Hn.
      exfalso. lra.
    + intros _. apply Qmult_comp; [reflexivity | lra].
  - apply Qlt_bool_false_iff in E. split.
    + intros _. apply Qmult_comp; [reflexivity | lra].
    + intros Hn. rewrite Zle_Qle in Hn. change (inject_Z 10) with (10 # 1) in Hn.
      apply Qmult_comp; [reflexivity | lra].
Qed.


(** ** The availability scorer *)


(** ** The distance to an overnight shift *)

(** X3. For a shift that crosses midnight and a time of day between its end and
    its start, [_calculate_shift_proximity] measures the distance to the
    start the long way round, as 1440 minutes minus the minutes still to go,
    and the distance to the end as the minutes since the end.  So from 216
    minutes after the end until the start the score is the 0.1 floor,
    however close the start is. *)
Theorem overnight_start_distance_long_way (c s e : time)
  (He : 0 <= minute_of_day e)
  (Hs : minute_of_day s < 24 * 60)
  (Hec : minute_of_day e < minute_of_day c)
  (Hcs : minute_of_day c < minute_of_day s) :
  shift_distances c s e
  = (24 * 60 - (minute_of_day s - minute_of_day c),
     minute_of_day c - minute_of_day e)
  /\ (216 <= minute_of_day c - minute_of_day e ->
      _calculate_shift_proximity c s e = 0.1%Q).
Proof.
  unfold minute_of_day in *.
  assert (Ed : shift_distances c s e
               = (24 * 60 - (hour s * 60 + minute s
                             - (hour c * 60 + minute c)),
                  hour c * 60 + minute c - (hour e * 60 + minute e))).
  { unfold shift_distances.
    destruct (hour s * 60 + minute s >? hour e * 60 + minute e) eqn:E1;
      [|lia].
    destruct (hour c * 60 + minute c <? hour s * 60 + minute s) eqn:E2;
      [|lia].
    f_equal; lia. }
  split; [exact Ed|].
  intros Hfar. unfold _calculate_shift_proximity. rewrite Ed.
  set (d := Z.min _ _).
  assert (Hd : 216 <= d) by (unfold d; lia).
  rewrite Zle_Qle in Hd. change (inject_Z 216) with (216 # 1) in Hd.
  change (inject_Z (4 * 60)) with (240 # 1).
  revert Hd. generalize (inject_Z d). intros q Hq.
  unfold py_max.
  destruct (Qlt_bool 0.1 (1.0 - q / (240 # 1))) eqn:F; [|reflexivity].
  apply Qlt_bool_iff in F. exfalso.
  unfold Qdiv in F. change (/ (240 # 1))%Q with (1 # 240) in F. lra.
Qed.

(** One minute before a 22:00-06:00 shift starts. *)
Lemma overnight_start_distance_long_way_witness :
  shift_distances (Time 21 59 0 0) (Time 22 0 0 0) (Time 6 0 0 0)
  = (24 * 60 - (minute_of_day (Time 22 0 0 0)
                - minute_of_day (Time 21 59 0 0)),
     minute_of_day (Time 21 59 0 0) - minute_of_day (Time 6 0 0 0))
  /\ (216 <= minute_of_day (Time 21 59 0 0) - minute_of_day (Time 6 0 0 0) ->
      _calculate_shift_proximity (Time 21 59 0 0) (Time 22 0 0 0)
                                 (Time 6 0 0 0) = 0.1%Q).
Proof.
  apply (overnight_start_distance_long_way
           (Time 21 59 0 0) (Time 22 0 0 0) (Time 6 0 0 0));
    unfold minute_of_day; simpl; lia.
Defined.

(** ** More about the workload scorer *)

Lemma priority_weights_upper :
  map_Forall (fun _ v => (v <= 5)%Q) PRIORITY_WEIGHTS.
Proof.
  apply map_Forall_to_list.
  let l := eval vm_compute in (map_to_list PRIORITY_WEIGHTS) in
  replace (map_to_list PRIORITY_WEIGHTS) with l by (vm_compute; reflexivity).
  repeat (constructor; [simpl; lra|]). constructor.
Qed.

Lemma priority_weight_le incident : (priority_weight incident <= 5)%Q.
Proof.
  unfold priority_weight.
  destruct (PRIORITY_WEIGHTS !! default "4"%string (priority incident))
    as [v|] eqn:E; simpl.
  - exact (priority_weights_upper _ _ E).
  - lra.
Qed.

Lemma priority_sum_perm l1 l2 :
  Permutation l1 l2 -> (priority_sum l1 == priority_sum l2)%Q.
Proof.
  induction 1; simpl; try lra.
Qed.

Lemma priority_sum_app l1 l2 :
  (priority_sum (l1 ++ l2) == priority_sum l1 + priority_sum l2)%Q.
Proof. induction l1 as [|i l1 IH]; simpl; lra. Qed.

Lemma priority_sum_length l :
  (0.5 * inject_Z (Z.of_nat (length l)) <= priority_sum l
   /\ priority_sum l <= 5 * inject_Z (Z.of_nat (length l)))%Q.
Proof.
  induction l as [|i l IH].
  - split; vm_compute; discriminate.
  - cbn [length priority_sum fold_right].
    rewrite Nat2Z.inj_succ. unfold Z.succ. rewrite inject_Z_plus.
    change (inject_Z 1) with 1%Q.
    pose proof (priority_weight_pos i). pose proof (priority_weight_le i).
    fold (priority_sum l). lra.
Qed.

Lemma Qinv_le_antitone a b : (0 < a)%Q -> (a <= b)%Q -> (/ b <= / a)%Q.
Proof.
  intros Ha Hab.
  apply Qle_shift_inv_r; [lra|]. rewrite Qmult_comm.
  apply Qle_shift_div_l; lra.
Qed.

(** X4. The workload score depends on the open items only as a multiset; every
    further open item, whatever its priority, strictly lowers the score; and
    with [n] open items the score lies between 1 / (1 + 2.5 n) and
    1 / (1 + 0.25 n). *)
Theorem workload_score_by_count :
  (forall l1 l2, Permutation l1 l2 ->
     (_calculate_workload_score l1 == _calculate_workload_score l2)%Q)
  /\ (forall l l' incident,
        (_calculate_workload_score (l ++ incident :: l')
         < _calculate_workload_score (l ++ l'))%Q)
  /\ (forall l,
        let n := inject_Z (Z.of_nat (length l)) in
        (1 / (1 + 2.5 * n) <= _calculate_workload_score l
         /\ _calculate_workload_score l <= 1 / (1 + 0.25 * n))%Q).
Proof.
  split; [|split].
  - intros l1 l2 Hp. rewrite !workload_score_eq, !weighted_count_sum.
    now rewrite (priority_sum_perm _ _ Hp).
  - intros l l' i. rewrite !workload_score_eq, !weighted_count_sum.
    rewrite !priority_sum_app. cbn [priority_sum fold_right].
    fold (priority_sum l').
    pose proof (priority_sum_nonneg l). pose proof (priority_sum_nonneg l').
    pose proof (priority_weight_pos i).
    unfold Qdiv. rewrite !Qmult_1_l.
    apply -> Qinv_lt_contravar; lra.
  - intros l n. subst n.
    destruct (priority_sum_length l) as [Hlo Hhi].
    assert (Hn : (0 <= inject_Z (Z.of_nat (length l)))%Q).
    { change 0%Q with (inject_Z 0). rewrite <- Zle_Qle. lia. }
    rewrite workload_score_eq, weighted_count_sum.
    pose proof (priority_sum_nonneg l).
    unfold Qdiv. rewrite !Qmult_1_l.
    split; apply Qinv_le_antitone; lra.
Qed.

(** ** Computations that only read the tables *)

Lemma observer_ret {A} (a : A) : observer (ret a).
Proof. intros w. reflexivity. Qed.

Lemma observer_raise {A} e : observer (@raise World A e).
Proof. intros w. reflexivity. Qed.

Lemma observer_lift {A} (r : result A) : observer (lift r).
Proof. intros w. destruct r; reflexivity. Qed.

Lemma observer_get_world : observer (@get_world World).
Proof. intros w. reflexivity. Qed.

Lemma observer_datetime_now : observer datetime_now.
Proof. intros w. reflexivity. Qed.

Lemma observer_logger lvl msg : observer (logger lvl msg).
Proof. intros w. reflexivity. Qed.

Lemma observer_set_processing f :
  observer (modify (fun w => set_processing (f w) w)).
Proof. intros w. reflexivity. Qed.

Lemma observer_set_history f :
  observer (modify (fun w => set_history (f w) w)).
Proof. intros w. reflexivity. Qed.

Lemma observer_bind {A B} (c : Eff World A) (k : A -> Eff World B) :
  observer c -> (forall a, observer (k a)) -> observer (bind c k).
Proof.
  intros Hc Hk w. unfold bind. specialize (Hc w).
  destruct (c w) as [[a|e] w1]; simpl in *; [|exact Hc].
  rewrite (Hk a w1). exact Hc.
Qed.

Lemma observer_catch {A} (c : Eff World A) h :
  observer c -> (forall e k, h e = Some k -> observer k) ->
  observer (catch c h).
Proof.
  intros Hc Hh w. unfold catch. specialize (Hc w).
  destruct (c w) as [[a|e] w1]; simpl in *; [exact Hc|].
  destruct (h e) as [k|] eqn:E; simpl; [|exact Hc].
  rewrite (Hh e k E w1). exact Hc.
Qed.

Lemma observer_request c failure : observer (request c failure).
Proof.
  intros w. unfold request. destruct (w_faults w) as [|[|] rest]; reflexivity.
Qed.

Lemma observer_make_request c : observer (_make_request c).
Proof.
  unfold _make_request. apply observer_catch; [apply observer_request|].
  intros e k [= <-]. apply observer_bind; [apply observer_logger|].
  intros _. apply observer_raise.
Qed.

Lemma observer_db_request c : observer (db_request c).
Proof.
  unfold db_request. apply observer_catch; [apply observer_request|].
  intros e k [= <-]. apply observer_bind; [apply observer_logger|].
  intros _. apply observer_raise.
Qed.

Create HintDb observer discriminated.
#[local] Hint Resolve observer_ret observer_raise observer_lift
  observer_get_world observer_datetime_now observer_logger
  observer_set_processing observer_set_history observer_make_request
  observer_db_request : observer.

Ltac observer_step :=
  first
    [ solve [auto with observer]
    | solve [intros ?; reflexivity]
    | apply observer_bind; [|intros ?] ].

Lemma observer_run {A} (c : Eff World A) w r w1 :
  observer c -> c w = (r, w1) -> tables w1 = tables w.
Proof. intros Hc E. specialize (Hc w). now rewrite E in Hc. Qed.

Lemma observer_log_processing n g stage level message :
  observer (log_processing n g stage level message).
Proof. unfold log_processing. repeat observer_step. Qed.

Lemma observer_log_assignment row : observer (log_assignment row).
Proof. unfold log_assignment. repeat observer_step. Qed.

Lemma observer_get_group_members g : observer (get_group_members g).
Proof.
  unfold get_group_members. repeat observer_step.
  destruct (sn_groups _ !! g); repeat observer_step.
Qed.

Lemma observer_get_group_members_from_servicenow g :
  observer (get_group_members_from_servicenow g).
Proof.
  unfold get_group_members_from_servicenow. apply observer_catch.
  - apply observer_get_group_members.
  - intros e k Hk. destruct e; inversion Hk; subst. repeat observer_step.
Qed.

Lemma observer_get_member_incidents m : observer (get_member_incidents m).
Proof. unfold get_member_incidents. repeat observer_step. Qed.

Lemma observer_get_user_by_username u : observer (get_user_by_username u).
Proof. unfold get_user_by_username. repeat observer_step. Qed.

Lemma observer_get_members_by_group g : observer (get_members_by_group g).
Proof. unfold get_members_by_group. repeat observer_step. Qed.

Lemma observer_get_member_workloads members :
  forall acc, observer (get_member_workloads members acc).
Proof.
  induction members as [|m members IH]; intros acc; simpl.
  - apply observer_ret.
  - apply observer_bind; [|intros a; apply IH].
    apply observer_catch.
    + apply observer_bind; [apply observer_get_user_by_username|].
      intros [u|]; repeat observer_step.
    + intros e k Hk. destruct e; inversion Hk; subst. repeat observer_step.
Qed.

Section ObserverScoring.
Context `{Runtime} `{Config}.

Lemma observer_availability_score member :
  observer (_calculate_availability_score member).
Proof.
  intros w. rewrite availability_score_run.
  destruct (weekend_excluded (w_now w) member); [reflexivity|].
  destruct (parsed_shift member) as [[s e]|]; reflexivity.
Qed.

Lemma observer_is_member_currently_available member current_time :
  observer (is_member_currently_available member current_time).
Proof.
  intros w. rewrite is_member_currently_available_run.
  destruct (weekend_excluded current_time member); [reflexivity|].
  destruct (parsed_shift member) as [[s e]|]; [|reflexivity].
  destruct (_is_time_in_shift (time_of current_time) s e); [reflexivity|].
  pose proof (observer_availability_score member w) as Hc.
  destruct (_calculate_availability_score member w) as [[a|x] w'];
    exact Hc.
Qed.

Lemma observer_filter_currently_available members current_time :
  observer (filter_currently_available members current_time).
Proof.
  induction members as [|m members IH]; simpl; [apply observer_ret|].
  apply observer_bind; [apply observer_is_member_currently_available|].
  intros b. apply observer_bind; [exact IH|]. intros l. apply observer_ret.
Qed.

Lemma observer_get_available_members g sn :
  observer (get_available_members g sn).
Proof.
  unfold get_available_members. apply observer_catch.
  - apply observer_bind; [apply observer_get_members_by_group|].
    intros [|m ms]; repeat observer_step.
    apply observer_filter_currently_available.
  - intros e k Hk. destruct e; inversion Hk; subst. repeat observer_step.
Qed.

Lemma observer_score_member wl p member :
  observer (score_member wl p member).
Proof.
  unfold score_member. apply observer_bind; [apply observer_lift|].
  intros r. apply observer_bind; [apply observer_availability_score|].
  intros a. apply observer_ret.
Qed.

Lemma observer_score_members wl p members :
  forall acc, observer (score_members wl p members acc).
Proof.
  induction members as [|m members IH]; intros acc; simpl.
  - apply observer_ret.
  - apply observer_bind; [|intros a; apply IH].
    apply observer_catch.
    + apply observer_bind; [apply observer_score_member|]. intros mw.
      apply observer_ret.
    + intros e k [= <-]. repeat observer_step.
Qed.

Lemma observer_calculate_member_weights members wl p :
  observer (calculate_member_weights members wl p).
Proof.
  unfold calculate_member_weights.
  destruct members; [apply observer_raise|].
  apply observer_bind; [apply observer_score_members|].
  intros [|mw l]; [apply observer_raise | apply observer_ret].
Qed.

Lemma observer_select_best_member l : observer (select_best_member l).
Proof.
  unfold select_best_member.
  destruct l; [apply observer_raise | apply observer_ret].
Qed.

Lemma observer_get_weights_summary l : observer (get_weights_summary l).
Proof. unfold get_weights_summary. repeat observer_step. Qed.

Lemma observer_log_assignment_decision incident_data sel mws reason :
  observer (log_assignment_decision incident_data sel mws reason).
Proof.
  unfold log_assignment_decision. apply observer_catch.
  - apply observer_bind; [apply observer_get_weights_summary|]. intros s.
    apply observer_bind; [apply observer_log_assignment|]. intros _.
    apply observer_bind; [apply observer_log_processing|]. intros _.
    apply observer_logger.
  - intros e k Hk. destruct e; inversion Hk; subst. apply observer_logger.
Qed.

End ObserverScoring.

Lemma make_request_tables c w :
  exists (served : bool) w',
    _make_request c w
    = ((if served then Ok tt
        else Raise (ServiceNowError "API request failed")), w')
    /\ w_calls w' = (c, served) :: w_calls w
    /\ tables w' = tables w.
Proof.
  unfold _make_request, catch, request, bind, logger, raise.
  destruct (w_faults w) as [|[|] rest].
  - exists true. eexists. repeat split; reflexivity.
  - exists false. eexists. repeat split; reflexivity.
  - exists true. eexists. repeat split; reflexivity.
Qed.

Lemma db_request_tables c w :
  exists (served : bool) w',
    db_request c w
    = ((if served then Ok tt
        else Raise (DatabaseError "Database operation failed")), w')
    /\ w_calls w' = (c, served) :: w_calls w
    /\ tables w' = tables w.
Proof.
  unfold db_request, catch, request, bind, logger, raise.
  destruct (w_faults w) as [|[|] rest].
  - exists true. eexists. repeat split; reflexivity.
  - exists false. eexists. repeat split; reflexivity.
  - exists true. eexists. repeat split; reflexivity.
Qed.

Lemma tables_now w1 w2 : tables w1 = tables w2 -> w_now w1 = w_now w2.
Proof. unfold tables. congruence. Qed.

Lemma tables_members w1 w2 :
  tables w1 = tables w2 -> db_members w1 = db_members w2.
Proof. unfold tables. congruence. Qed.

Lemma tables_incidents w1 w2 :
  tables w1 = tables w2 -> sn_incidents w1 = sn_incidents w2.
Proof. unfold tables. congruence. Qed.

Lemma tables_users w1 w2 : tables w1 = tables w2 -> sn_users w1 = sn_users w2.
Proof. unfold tables. congruence. Qed.

Lemma tables_groups w1 w2 :
  tables w1 = tables w2 ->
  sn_groups w1 = sn_groups w2 /\ sn_grmembers w1 = sn_grmembers w2.
Proof. unfold tables. intros E. split; congruence. Qed.

(** ** The candidates of an assignment *)

Section AvailableMembers.
Context `{Runtime} `{Config}.

Lemma is_member_currently_available_total member current_time w :
  exists (b : bool) w',
    is_member_currently_available member current_time w = (Ok b, w')
    /\ tables w' = tables w.
Proof.
  pose proof (observer_is_member_currently_available member current_time w)
    as Ht.
  rewrite is_member_currently_available_run in *.
  destruct (weekend_excluded current_time member); [eauto|].
  destruct (parsed_shift member) as [[s e]|]; [|eauto].
  destruct (_is_time_in_shift (time_of current_time) s e); [eauto|].
  rewrite availability_score_run in *.
  destruct (weekend_excluded (w_now w) member); [eauto|].
  destruct (parsed_shift member) as [[s' e']|]; eauto.
Qed.

Lemma is_member_currently_available_frame member current_time w1 w2 :
  w_now w1 = w_now w2 ->
  fst (is_member_currently_available member current_time w1)
  = fst (is_member_currently_available member current_time w2).
Proof.
  intros E. rewrite !is_member_currently_available_run.
  destruct (weekend_excluded current_time member); [reflexivity|].
  destruct (parsed_shift member) as [[s e]|]; [|reflexivity].
  destruct (_is_time_in_shift (time_of current_time) s e); [reflexivity|].
  pose proof (availability_score_frame member w1 w2 E) as F.
  destruct (_calculate_availability_score member w1) as [[a1|x1] w1'];
    destruct (_calculate_availability_score member w2) as [[a2|x2] w2'];
    simpl in F; inversion F; reflexivity.
Qed.

Lemma passes_availability_frame w1 w2 t m :
  w_now w1 = w_now w2 ->
  passes_availability w1 t m = passes_availability w2 t m.
Proof.
  intros E. unfold passes_availability.
  now rewrite (is_member_currently_available_frame m t w1 w2 E).
Qed.

(** The second loop of [get_available_members] is a filter. *)
Lemma filter_currently_available_run members t :
  forall w,
    exists w',
      filter_currently_available members t w
      = (Ok (List.filter (passes_availability w t) members), w')
      /\ tables w' = tables w.
Proof.
  induction members as [|m members IH]; intros w.
  - exists w. split; reflexivity.
  - cbn [filter_currently_available List.filter]. unfold bind at 1.
    destruct (is_member_currently_available_total m t w)
      as (b & w1 & Hrun1 & Ht1).
    assert (Hb : passes_availability w t m = b).
    { unfold passes_availability. rewrite Hrun1. destruct b; reflexivity. }
    rewrite Hrun1, Hb. unfold bind at 1.
    destruct (IH w1) as (w2 & Hrun2 & Ht2). rewrite Hrun2.
    exists w2. unfold ret.
    rewrite (List.filter_ext (passes_availability w1 t)
                             (passes_availability w t))
      by (intros a; apply passes_availability_frame, tables_now, Ht1).
    split; [destruct b; reflexivity | congruence].
Qed.

Lemma filter_filter {A} (p q : A -> bool) l :
  List.filter p (List.filter q l) = List.filter (fun x => q x && p x) l.
Proof.
  induction l as [|x l IH]; [reflexivity|]. simpl.
  destruct (q x); simpl; [destruct (p x)|]; now rewrite IH.
Qed.

Lemma get_members_by_group_run g w :
  exists w',
    tables w' = tables w
    /\ (get_members_by_group g w
        = (Ok (List.filter
                 (fun m => String.eqb (assignment_group_id m) g
                           && is_active m) (db_members w)), w')
        \/ get_members_by_group g w
           = (Raise (DatabaseError "Database operation failed"), w')).
Proof.
  unfold get_members_by_group, bind.
  destruct (db_request_tables (DbGetMembers g) w)
    as (served & w1 & Hrun1 & _ & Ht1).
  rewrite Hrun1. exists w1. split; [exact Ht1|].
  destruct served; [left | right; reflexivity].
  unfold get_world, ret. now rewrite (tables_members _ _ Ht1).
Qed.

Lemma get_available_members_run g sn w :
  exists w',
    tables w' = tables w
    /\ (get_available_members g sn w
        = (Ok (List.filter
                 (fun m => candidate_row g sn m
                           && passes_availability w (w_now w) m)
                 (db_members w)), w')
        \/ get_available_members g sn w
           = (Raise (DatabaseError "Database operation failed"), w')).
Proof.
  unfold get_available_members, catch, bind.
  destruct (get_members_by_group_run g w) as (w1 & Ht1 & [Hrun1|Hrun1]);
    rewrite Hrun1.
  2:{ unfold logger, raise. eexists. split; [|right; reflexivity].
      exact Ht1. }
  assert (Efilter :
            List.filter
              (fun m => candidate_row g sn m
                        && passes_availability w (w_now w) m)
              (db_members w)
            = List.filter (passes_availability w1 (w_now w1))
                (List.filter
                   (fun m => existsb (String.eqb (member_id m))
                                     (map user_user_name sn))
                   (List.filter
                      (fun m => String.eqb (assignment_group_id m) g
                                && is_active m) (db_members w)))).
  { rewrite !filter_filter, (tables_now _ _ Ht1).
    apply List.filter_ext. intros m. unfold candidate_row.
    rewrite (passes_availability_frame w1 w (w_now w) m
               (tables_now _ _ Ht1)).
    rewrite <- !andb_assoc. reflexivity. }
  destruct (List.filter
              (fun m => String.eqb (assignment_group_id m) g && is_active m)
              (db_members w)) as [|m0 ms] eqn:Edb.
  - simpl in Efilter. rewrite Efilter. unfold logger, ret.
    eexists. split; [|left; reflexivity]. exact Ht1.
  - unfold datetime_now.
    destruct (filter_currently_available_run
                (List.filter
                   (fun m => existsb (String.eqb (member_id m))
                                     (map user_user_name sn)) (m0 :: ms))
                (w_now w1) w1) as (w2 & Hrun2 & Ht2).
    rewrite Hrun2, Efilter. exists w2.
    split; [congruence | left; reflexivity].
Qed.


End AvailableMembers.

(** ** The workloads of the candidates *)

Lemma get_user_by_username_run u w :
  exists w',
    tables w' = tables w
    /\ (get_user_by_username u w = (Ok (sn_users w !! u), w')
        \/ get_user_by_username u w
           = (Raise (ServiceNowError "API request failed"), w')).
Proof.
  unfold get_user_by_username, bind.
  destruct (make_request_tables (SnGetUser u) w)
    as (served & w1 & Hrun1 & _ & Ht1).
  rewrite Hrun1. exists w1. split; [exact Ht1|].
  destruct served; [left | right; reflexivity].
  unfold get_world, ret. now rewrite (tables_users _ _ Ht1).
Qed.

Lemma get_member_incidents_run m w :
  exists w',
    tables w' = tables w
    /\ (get_member_incidents m w
        = (Ok (List.filter
                 (fun i => String.eqb (assigned_to i) m && open_state i)
                 (sn_incidents w)), w')
        \/ get_member_incidents m w
           = (Raise (ServiceNowError "API request failed"), w')).
Proof.
  unfold get_member_incidents, bind.
  destruct (make_request_tables (SnGetMemberIncidents m) w)
    as (served & w1 & Hrun1 & _ & Ht1).
  rewrite Hrun1. exists w1. split; [exact Ht1|].
  destruct served; [left | right; reflexivity].
  unfold get_world, ret. now rewrite (tables_incidents _ _ Ht1).
Qed.

(** The open items of a ServiceNow user, as [get_member_incidents] selects
    them. *)
Lemma get_member_workloads_run members :
  forall acc w,
    exists wl w',
      get_member_workloads members acc w = (Ok wl, w')
      /\ tables w' = tables w
      /\ (forall id, is_Some (wl !! id) <->
                     is_Some (acc !! id) \/ In id (map member_id members))
      /\ (forall id l, wl !! id = Some l ->
            acc !! id = Some l
            \/ (In id (map member_id members)
                /\ (l = []
                    \/ exists u,
                         sn_users w !! id = Some u
                         /\ l = List.filter
                                  (fun i => String.eqb (assigned_to i) u
                                            && open_state i)
                                  (sn_incidents w)))).
Proof.
  induction members as [|m members IH]; intros acc w.
  - exists acc, w. split; [reflexivity|]. split; [reflexivity|].
    split; [intros id; simpl; tauto | intros id l E; now left].
  - cbn [get_member_workloads]. unfold bind at 1.
    assert (Hstep :
              exists l w1,
                catch
                  (user <- get_user_by_username (member_id m) ;;
                   match user with
                   | None =>
                       logger WARNING
                         ("Could not find ServiceNow user for "
                          +:+ member_id m) ;;;
                       ret (<[member_id m := []]> acc)
                   | Some user_sys_id =>
                       incidents <- get_member_incidents user_sys_id ;;
                       ret (<[member_id m := incidents]> acc)
                   end)%eff
                  (fun e =>
                     match e with
                     | ServiceNowError _ =>
                         Some (logger ERROR
                                 ("Failed to get workload for member "
                                  +:+ member_id m) ;;;
                               ret (<[member_id m := []]> acc))%eff
                     | _ => None
                     end) w
                = (Ok (<[member_id m := l]> acc), w1)
                /\ tables w1 = tables w
                /\ (l = []
                    \/ exists u,
                         sn_users w !! member_id m = Some u
                         /\ l = List.filter
                                  (fun i => String.eqb (assigned_to i) u
                                            && open_state i)
                                  (sn_incidents w))).
    { unfold catch, bind.
      destruct (get_user_by_username_run (member_id m) w)
        as (w1 & Ht1 & [E1|E1]); rewrite E1.
      2:{ unfold logger, ret. exists [].
          eexists. split; [reflexivity|]. split; [exact Ht1 | now left]. }
      destruct (sn_users w !! member_id m) as [u|] eqn:Eu.
      2:{ unfold logger, ret. exists [].
          eexists. split; [reflexivity|]. split; [exact Ht1 | now left]. }
      destruct (get_member_incidents_run u w1) as (w2 & Ht2 & [E2|E2]);
        rewrite E2.
      - unfold ret. eexists. exists w2. split; [reflexivity|].
        split; [congruence|]. right. exists u. split; [reflexivity|].
        now rewrite (tables_incidents _ _ Ht1).
      - unfold logger, ret. exists [].
        eexists. split; [reflexivity|]. split; [|now left].
        change (tables w2 = tables w). congruence. }
    destruct Hstep as (l & w1 & Hrun1 & Ht1 & Hl). rewrite Hrun1.
    destruct (IH (<[member_id m := l]> acc) w1)
      as (wl & w2 & Hrun2 & Ht2 & Hdom & Hval).
    exists wl, w2. split; [exact Hrun2|]. split; [congruence|]. split.
    + intros id. rewrite Hdom. cbn [map In].
      destruct (decide (member_id m = id)) as [<-|Hne].
      * rewrite lookup_insert_eq. split; [intros _; right; now left|].
        intros _. left. eauto.
      * rewrite lookup_insert_ne by exact Hne. tauto.
    + intros id l' E. cbn [map In].
      rewrite <- (tables_users _ _ Ht1), <- (tables_incidents _ _ Ht1).
      destruct (Hval id l' E) as [Hacc | [Hin Hl']].
      * destruct (decide (member_id m = id)) as [<-|Hne].
        -- rewrite lookup_insert_eq in Hacc. injection Hacc as <-.
           right. split; [now left|].
           rewrite (tables_users _ _ Ht1), (tables_incidents _ _ Ht1).
           exact Hl.
        -- rewrite lookup_insert_ne in Hacc by exact Hne. now left.
      * right. split; [now right | exact Hl'].
Qed.

(** X6. [get_member_workloads] never raises and only reads.  Its dictionary has
    an entry for exactly the [member_id]s it was given; an entry is either
    the full list of the open items (state not 6, 7 or 8) assigned to the
    ServiceNow user of that name, or the empty list: a member whose user is
    unknown, or whose lookup failed, counts as having no work at all. *)
Theorem get_member_workloads_entries (members : list MemberData)
  (w : World) :
  exists wl,
    fst (get_member_workloads members ∅ w) = Ok wl
    /\ tables (snd (get_member_workloads members ∅ w)) = tables w
    /\ (forall id, is_Some (wl !! id) <-> In id (map member_id members))
    /\ (forall id l, wl !! id = Some l ->
          l = []
          \/ exists u,
               sn_users w !! id = Some u
               /\ l = List.filter
                        (fun i => String.eqb (assigned_to i) u
                                  && open_state i)
                        (sn_incidents w))
    /\ (forall id, In id (map member_id members) ->
          sn_users w !! id = None -> wl !! id = Some []).
Proof.
  destruct (get_member_workloads_run members ∅ w)
    as (wl & w' & Hrun & Ht & Hdom & Hval).
  exists wl. rewrite Hrun. split; [reflexivity|]. split; [exact Ht|].
  split; [|split].
  - intros id. rewrite Hdom, lookup_empty. split; [|tauto].
    intros [[x Hx]|Hin]; [discriminate | exact Hin].
  - intros id l E. destruct (Hval id l E) as [Hacc | [_ Hl]]; [|exact Hl].
    rewrite lookup_empty in Hacc. discriminate.
  - intros id Hin Hnone.
    assert (Hsome : is_Some (wl !! id)) by (apply Hdom; now right).
    destruct Hsome as [l E]. rewrite E. f_equal.
    destruct (Hval id l E) as [Hacc | [_ [Hl | (u & Hu & _)]]];
      [rewrite lookup_empty in Hacc; discriminate | exact Hl | congruence].
Qed.

(** ** From the candidates to the selected member *)

Section CandidatePipeline.
Context `{Runtime} `{Config}.

Lemma scored_members_in wl p w members mw :
  In mw (scored_members wl p w members) ->
  exists m, In m members /\ fst (score_member wl p m w) = Ok mw.
Proof.
  induction members as [|m members IH]; [intros []|].
  rewrite scored_members_cons.
  destruct (fst (score_member wl p m w)) as [mw'|x] eqn:E.
  - intros [<-|Hin].
    + exists m. split; [now left | exact E].
    + destruct (IH Hin) as (m' & Hm' & E'). exists m'. split; [now right|].
      exact E'.
  - intros Hin. destruct (IH Hin) as (m' & Hm' & E'). exists m'.
    split; [now right | exact E'].
Qed.

Lemma score_member_fields wl p m w mw :
  fst (score_member wl p m w) = Ok mw ->
  mw_member_id mw = member_id m
  /\ fst (_calculate_availability_score m w) = Ok (availability_score mw).
Proof.
  rewrite score_member_run.
  destruct (_calculate_role_score (role m) (experience_level m)) as [r|x];
    [|discriminate].
  destruct (_calculate_availability_score m w) as [[a|x] w']; [|discriminate].
  simpl. intros [= <-]. split; reflexivity.
Qed.

(** A member the availability check lets through is scored at 0.3 or more
    as long as the clock has not moved. *)
Lemma passes_availability_score w w2 m a :
  w_now w2 = w_now w ->
  passes_availability w (w_now w) m = true ->
  fst (_calculate_availability_score m w2) = Ok a ->
  (0.3 <= a)%Q.
Proof.
  intros Hnow. unfold passes_availability.
  rewrite is_member_currently_available_run, !availability_score_run, Hnow.
  destruct (weekend_excluded (w_now w) m); [discriminate|].
  destruct (parsed_shift m) as [[s e]|].
  - destruct (_is_time_in_shift (time_of (w_now w)) s e).
    + intros _ [= <-]. lra.
    + simpl. destruct (Qlt_bool _ 0.3) eqn:E; [discriminate|].
      intros _ [= <-]. now apply Qlt_bool_false_iff.
  - intros _ [= <-]. lra.
Qed.

Lemma find_servicenow_member_found sn id :
  existsb (String.eqb id) (map user_user_name sn) = true ->
  exists m, find_servicenow_member sn id = Some m /\ user_user_name m = id.
Proof.
  unfold find_servicenow_member.
  induction sn as [|m sn IH]; [discriminate|]. simpl.
  rewrite (String.eqb_sym id).
  destruct (String.eqb (user_user_name m) id) eqn:E.
  - intros _. exists m. split; [reflexivity|]. now apply String.eqb_eq.
  - exact IH.
Qed.


End CandidatePipeline.

(** ** The commit of the SaaS variant *)

Lemma saas_assign_run_tables n m w :
  exists (b : bool) w',
    assign_incident_to_member n m w = (Ok b, w')
    /\ if b then
         exists i rest,
           List.filter (fun i => String.eqb (number i) n) (sn_incidents w)
           = i :: rest
           /\ saas_protocol_events w'
              = (SnPutIncident (sys_id i) m, true) :: saas_protocol_events w
           /\ tables w'
              = tables (set_incidents
                          (put_assignment (sys_id i) m (sn_incidents w)) w)
       else
         tables w' = tables w
         /\ (saas_protocol_events w' = saas_protocol_events w
             \/ exists id,
                  saas_protocol_events w'
                  = (SnPutIncident id m, false) :: saas_protocol_events w).
Proof.
  unfold assign_incident_to_member, assign_incident.
  unfold catch at 1. unfold bind at 1.
  destruct (make_request_tables (SnFindIncident n) w)
    as (s1 & w1 & Hrun1 & Hc1 & Ht1).
  rewrite Hrun1.
  assert (He1 : saas_protocol_events w1 = saas_protocol_events w)
    by (unfold saas_protocol_events; rewrite Hc1; reflexivity).
  destruct s1.
  2:{ exists false. eexists. unfold bind, logger, ret.
      split; [reflexivity|]. split; [exact Ht1 | left; exact He1]. }
  unfold bind at 1, get_world at 1.
  rewrite (tables_incidents _ _ Ht1).
  destruct (List.filter (fun i => String.eqb (number i) n) (sn_incidents w))
    as [|incident others].
  { exists false. eexists. unfold bind, logger, ret.
    split; [reflexivity|]. split; [exact Ht1 | left; exact He1]. }
  unfold catch at 1. unfold bind at 1.
  destruct (make_request_tables (SnPutIncident (sys_id incident) m) w1)
    as (s2 & w2 & Hrun2 & Hc2 & Ht2).
  rewrite Hrun2.
  assert (He2 : saas_protocol_events w2
                = (SnPutIncident (sys_id incident) m, s2)
                    :: saas_protocol_events w)
    by (unfold saas_protocol_events; rewrite Hc2; simpl;
        fold (saas_protocol_events w1); now rewrite He1).
  destruct s2.
  - exists true. eexists. unfold bind, modify, logger, ret.
    split; [reflexivity|]. exists incident, others.
    split; [reflexivity|]. split; [exact He2|].
    rewrite Ht1 in Ht2. unfold tables in *. simpl. congruence.
  - exists false. eexists. unfold bind, logger, ret.
    split; [reflexivity|]. split; [|right; exists (sys_id incident); exact He2].
    change (tables w2 = tables w). congruence.
Qed.

(** X8. [assign_incident_to_member] of the SaaS variant never raises.  It
    answers [True] only when the incident was found by its number and the
    PUT was served; the incident table is then the old one with the holder
    and the state "2" written to that row, and a later
    [get_member_incidents] for the new holder lists the incident.  When it
    answers [False], no table has changed. *)
Theorem saas_assignment_effect (n m : string) (w : World) :
  exists b : bool,
    fst (assign_incident_to_member n m w) = Ok b
    /\ let w' := snd (assign_incident_to_member n m w) in
       if b then
         exists i,
           head (List.filter (fun i => String.eqb (number i) n)
                             (sn_incidents w)) = Some i
           /\ tables w'
              = tables (set_incidents
                          (put_assignment (sys_id i) m (sn_incidents w)) w)
           /\ (forall l,
                 fst (get_member_incidents m w') = Ok l ->
                 exists i', In i' l /\ number i' = n /\ state i' = "2"%string)
       else tables w' = tables w.
Proof.
  destruct (saas_assign_run_tables n m w) as (b & w' & Hrun & Hb).
  exists b. rewrite Hrun. cbn [fst snd]. split; [reflexivity|].
  destruct b; [|exact (proj1 Hb)].
  destruct Hb as (i & rest & Hfilter & _ & Ht).
  exists i. rewrite Hfilter. split; [reflexivity|]. split; [exact Ht|].
  intros l Hl.
  destruct (get_member_incidents_run m w') as (w2 & _ & [E|E]);
    rewrite E in Hl; [|discriminate].
  injection Hl as <-.
  assert (Hi : In i (sn_incidents w) /\ String.eqb (number i) n = true).
  { apply (proj1 (List.filter_In
                     (fun i => String.eqb (number i) n) i (sn_incidents w))).
    rewrite Hfilter. now left. }
  destruct Hi as [Hi Hn]. apply String.eqb_eq in Hn.
  exists {| sys_id := sys_id i; number := number i; priority := priority i;
            state := "2"; assigned_to := m |}.
  split; [|split; [exact Hn | reflexivity]].
  apply List.filter_In. split.
  - rewrite (tables_incidents _ _ Ht). cbn [sn_incidents set_incidents].
    unfold put_assignment. apply in_map_iff. exists i.
    now rewrite String.eqb_refl.
  - cbn [assigned_to]. rewrite String.eqb_refl. reflexivity.
Qed.

(** ** What one run of the SaaS variant returns *)

Ltac outcome_stop Hstop wk w :=
  apply Hstop;
  [ change (saas_protocol_events wk = saas_protocol_events w); congruence
  | change (tables wk = tables w); congruence
  | discriminate ].

Section SaasOutcome.
Context `{Runtime} `{Config}.

Lemma log_processing_result n g stage level message w :
  fst (log_processing n g stage level message w) = Ok tt
  \/ fst (log_processing n g stage level message w)
     = Raise (DatabaseError "Database operation failed").
Proof.
  unfold log_processing, bind.
  match goal with
  | |- context [db_request ?c w] =>
      destruct (db_request_tables c w) as (served & w1 & Hrun & _ & _)
  end.
  rewrite Hrun. destruct served; [left | right]; reflexivity.
Qed.

Lemma reader_run {A} (c : Eff World A) w r w1 :
  calm c -> observer c -> c w = (r, w1) ->
  saas_protocol_events w1 = saas_protocol_events w /\ tables w1 = tables w.
Proof.
  intros Hc Ho E. split.
  - exact (proj1 (calm_run c w r w1 Hc E)).
  - exact (observer_run c w r w1 Ho E).
Qed.

(** The handlers of [process_incident_assignment]: each logs, writes a
    processing row and answers [False]; only the write can fail. *)
Lemma process_handler_run (k : Eff World unit) w :
  (exists lvl msg n g stage level message,
     k = bind (logger lvl msg)
              (fun _ => log_processing n g stage level message)) ->
  let r := bind k (fun _ => ret false) w in
  saas_protocol_events (snd r) = saas_protocol_events w
  /\ tables (snd r) = tables w
  /\ (fst r = Ok false
      \/ fst r = Raise (DatabaseError "Database operation failed")).
Proof.
  intros (lvl & msg & n & g & stage & level & message & ->). cbv zeta.
  assert (Hc : calm (bind (bind (logger lvl msg)
                             (fun _ => log_processing n g stage level message))
                          (fun _ => ret false))).
  { apply calm_bind; [|intros; apply calm_ret].
    apply calm_bind; [apply calm_logger|].
    intros; apply calm_log_processing. }
  assert (Ho : observer (bind (bind (logger lvl msg)
                                 (fun _ => log_processing n g stage level
                                                          message))
                              (fun _ => ret false))).
  { apply observer_bind; [|intros; apply observer_ret].
    apply observer_bind; [apply observer_logger|].
    intros; apply observer_log_processing. }
  split; [exact (proj1 (Hc w))|]. split; [exact (Ho w)|].
  unfold bind, logger.
  match goal with
  | |- context [log_processing n g stage level message ?w0] =>
      pose proof (log_processing_result n g stage level message w0) as Hr;
      destruct (log_processing n g stage level message w0) as [[u|x] wz]
  end; simpl in Hr |- *.
  - now left.
  - right. destruct Hr as [Hr|Hr]; [discriminate|].
    injection Hr as ->. reflexivity.
Qed.

(** The outcome of one run, with the requests it added. *)
Lemma process_incident_assignment_outcome (incident_data : IncidentData)
  (w : World) :
  let res := fst (process_incident_assignment incident_data w) in
  let w' := snd (process_incident_assignment incident_data w) in
  exists added,
    saas_protocol_events w' = added ++ saas_protocol_events w
    /\ (res = Ok true <-> saas_commit_served added = true)
    /\ saas_served_commits added
       = (if saas_commit_served added then 1 else 0)%nat
    /\ (res = Ok true \/ res = Ok false
        \/ res = Raise (DatabaseError "Database operation failed"))
    /\ (saas_commit_served added = false -> tables w' = tables w)
    /\ (forall id m, In (SnPutIncident id m, true) added ->
          tables w'
          = tables (set_incidents (put_assignment id m (sn_incidents w)) w)).
Proof.
  cbv zeta.
  destruct (process_incident_assignment incident_data w) as [res w'] eqn:Hrun.
  cbn [fst snd].
  unfold process_incident_assignment in Hrun. unfold catch at 1 in Hrun.
  match type of Hrun with
  | (let (r, w1) := ?body w in _) = _ =>
      destruct (body w) as [r wb] eqn:Hbody
  end.
  assert (Hhandler :
            saas_protocol_events w' = saas_protocol_events wb
            /\ tables w' = tables wb
            /\ match r with
               | Ok a => res = Ok a
               | Raise _ =>
                   res = Ok false
                   \/ res = Raise (DatabaseError "Database operation failed")
               end).
  { destruct r as [a|e]; [injection Hrun as <- <-; repeat split|].
    match type of Hrun with
    | bind ?k _ wb = _ =>
        assert (Hk : exists lvl msg n g stage level message,
                  k = bind (logger lvl msg)
                           (fun _ => log_processing n g stage level message))
          by (destruct e; do 7 eexists; reflexivity);
        pose proof (process_handler_run k wb Hk) as Hh
    end.
    cbv zeta in Hh. rewrite Hrun in Hh. exact Hh. }
  clear Hrun.
  assert (Hbody' :
            exists added,
              saas_protocol_events wb = added ++ saas_protocol_events w
              /\ (r = Ok true <-> saas_commit_served added = true)
    /\ saas_served_commits added
       = (if saas_commit_served added then 1 else 0)%nat
              /\ (saas_commit_served added = false -> tables wb = tables w)
              /\ (forall id m, In (SnPutIncident id m, true) added ->
                    tables wb
                    = tables (set_incidents
                                (put_assignment id m (sn_incidents w)) w))).
  { assert (Hstop : forall w1 r1,
               saas_protocol_events w1 = saas_protocol_events w ->
               tables w1 = tables w ->
               r1 <> Ok true ->
               exists added,
                 saas_protocol_events w1 = added ++ saas_protocol_events w
                 /\ (r1 = Ok true <-> saas_commit_served added = true)
    /\ saas_served_commits added
       = (if saas_commit_served added then 1 else 0)%nat
                 /\ (saas_commit_served added = false ->
                     tables w1 = tables w)
                 /\ (forall id m, In (SnPutIncident id m, true) added ->
                       tables w1
                       = tables (set_incidents
                                   (put_assignment id m (sn_incidents w)) w))).
    { intros w1 r1 He Ht Hr. exists []. split; [exact He|].
      split; [split; [intros E; now destruct Hr | discriminate]|].
      split; [reflexivity|].
      split; [intros _; exact Ht | intros id m []]. }
    clear Hhandler res w'.
    unfold bind at 1 in Hbody.
    match type of Hbody with
    | context [log_processing ?a ?b ?c ?d ?e w] =>
        destruct (log_processing a b c d e w) as [[u|x] w1] eqn:E1;
        apply (reader_run _ _ _ _ (calm_log_processing _ _ _ _ _)
                 (observer_log_processing _ _ _ _ _)) in E1 as [He1 Ht1]
    end.
    2:{ injection Hbody as <- <-. outcome_stop Hstop w1 w. }
    unfold bind at 1 in Hbody.
    destruct (get_group_members_from_servicenow
                (id_assignment_group incident_data) w1)
      as [[sn|x] w2] eqn:E2;
      apply (reader_run _ _ _ _ (calm_get_group_members_from_servicenow _)
               (observer_get_group_members_from_servicenow _)) in E2
        as [He2 Ht2].
    2:{ injection Hbody as <- <-. outcome_stop Hstop w2 w. }
    destruct sn as [|sn0 sn].
    { unfold bind, logger, ret in Hbody. injection Hbody as <- <-.
      outcome_stop Hstop w2 w. }
    unfold bind at 1 in Hbody.
    destruct (get_available_members (id_assignment_group incident_data)
                (sn0 :: sn) w2) as [[am|x] w3] eqn:E3;
      apply (reader_run _ _ _ _ (calm_get_available_members _ _)
               (observer_get_available_members _ _)) in E3 as [He3 Ht3].
    2:{ injection Hbody as <- <-. outcome_stop Hstop w3 w. }
    destruct am as [|am0 am].
    { unfold raise in Hbody. injection Hbody as <- <-.
      outcome_stop Hstop w3 w. }
    unfold bind at 1 in Hbody.
    destruct (get_member_workloads (am0 :: am) ∅ w3) as [[wl|x] w4] eqn:E4;
      apply (reader_run _ _ _ _ (calm_get_member_workloads _ _)
               (observer_get_member_workloads _ _)) in E4 as [He4 Ht4].
    2:{ injection Hbody as <- <-. outcome_stop Hstop w4 w. }
    unfold bind at 1 in Hbody.
    destruct (calculate_member_weights (am0 :: am) wl
                (default "4"%string (id_priority incident_data)) w4)
      as [[mws|x] w5] eqn:E5;
      apply (reader_run _ _ _ _ (calm_calculate_member_weights _ _ _)
               (observer_calculate_member_weights _ _ _)) in E5
        as [He5 Ht5].
    2:{ injection Hbody as <- <-. outcome_stop Hstop w5 w. }
    unfold bind at 1 in Hbody.
    destruct (select_best_member mws w5) as [[[sel reason]|x] w6] eqn:E6;
      apply (reader_run _ _ _ _ (calm_select_best_member _)
               (observer_select_best_member _)) in E6 as [He6 Ht6].
    2:{ injection Hbody as <- <-. outcome_stop Hstop w6 w. }
    destruct (find_servicenow_member (sn0 :: sn) (mw_member_id sel))
      as [snm|].
    2:{ unfold bind, logger, ret in Hbody. injection Hbody as <- <-.
        outcome_stop Hstop w6 w. }
    unfold bind at 1 in Hbody.
    destruct (saas_assign_run_tables
                (id_incident_number incident_data) (user_sys_id snm) w6)
      as (ok & w7 & Hrun7 & Hcase).
    rewrite Hrun7 in Hbody.
    assert (He6' : saas_protocol_events w6 = saas_protocol_events w)
      by congruence.
    assert (Ht6' : tables w6 = tables w) by congruence.
    destruct ok.
    - destruct Hcase as (i & rest & _ & He7 & Ht7).
      unfold bind at 1 in Hbody.
      destruct (log_assignment_decision_run incident_data sel mws reason w7)
        as (row & s8 & w8 & Hrun8 & He8 & _).
      pose proof (observer_run _ _ _ _
                    (observer_log_assignment_decision _ _ _ _) Hrun8) as Ht8.
      rewrite Hrun8 in Hbody.
      unfold bind, logger, ret in Hbody. injection Hbody as <- <-.
      change (saas_protocol_events (set_log ?l w8))
        with (saas_protocol_events w8).
      change (tables (set_log ?l w8)) with (tables w8).
      exists [(DbLogAssignment row, s8);
              (SnPutIncident (sys_id i) (user_sys_id snm), true)].
      split; [rewrite He8, He7, He6'; reflexivity|].
      split; [split; reflexivity|].
      split; [reflexivity|].
      split; [discriminate|].
      intros id m [Hx|[Hx|[]]]; [discriminate|].
      injection Hx as <- <-. rewrite Ht8, Ht7.
      unfold tables in *. simpl. congruence.
    - destruct Hcase as [Ht7 He7].
      unfold bind, logger, ret in Hbody. injection Hbody as <- <-.
      change (saas_protocol_events (set_log ?l w7))
        with (saas_protocol_events w7).
      change (tables (set_log ?l w7)) with (tables w7).
      destruct He7 as [He7 | (id & He7)].
      + exists []. split; [rewrite He7, He6'; reflexivity|].
        split; [split; discriminate|].
        split; [reflexivity|].
        split; [intros _; congruence | intros id m []].
      + exists [(SnPutIncident id (user_sys_id snm), false)].
        split; [rewrite He7, He6'; reflexivity|].
        split; [split; discriminate|].
        split; [reflexivity|].
        split; [intros _; congruence|].
        intros id' m [Hx|[]]. discriminate. }
  destruct Hhandler as (-> & -> & Hres).
  destruct Hbody' as (added & He & Hiff & Hcount & Hno & Hput).
  exists added. split; [exact He|].
  split; [|split; [exact Hcount|split; [|split; assumption]]].
  - destruct r as [a|e]; [now subst res|].
    split.
    + intros E. destruct Hres as [Hres|Hres]; congruence.
    + intros E. apply Hiff in E. discriminate.
  - destruct r as [[|]|e]; subst; auto.
Qed.


End SaasOutcome.

(** ** Redelivery to the queue worker *)

(** X10. The queue worker is idempotent under redelivery: when the processing of
    a message had its commit served, a second processing of the same message
    in the world the first one left issues the pre-check and nothing else:
    no commit, no history row, and the history table is as it was. *)
Theorem queue_worker_redelivery_skipped
  (body : Processor.Message) (w : Processor.World) :
  let w1 := snd (Processor.process_record body w) in
  let w2 := snd (Processor.process_record body w1) in
  (exists added member,
      protocol_events w1 = added ++ protocol_events w
      /\ In (Processor.PatchIncident (Processor.m_sys_id body) member, true)
            added) ->
  exists r (served : bool),
    protocol_events w2
    = (Processor.GetIncident (Processor.m_sys_id body) r, served)
        :: protocol_events w1
    /\ Processor.history w2 = Processor.history w1.
Proof.
  intros w1 w2 Hcommit.
  apply queue_worker_commit_sets_holder in Hcommit.
  destruct (queue_worker_skips_held_item body w1 Hcommit)
    as (r & served & Hev & Hh & _).
  exists r, served. split; [exact Hev | exact Hh].
Qed.

(** The unassigned incident INC0001, delivered twice. *)
Lemma queue_worker_redelivery_skipped_witness :
  let w := example_queue_world "" [] [] in
  let w1 := snd (Processor.process_record example_message w) in
  let w2 := snd (Processor.process_record example_message w1) in
  exists r (served : bool),
    protocol_events w2
    = (Processor.GetIncident (Processor.m_sys_id example_message) r, served)
        :: protocol_events w1
    /\ Processor.history w2 = Processor.history w1.
Proof.
  apply (queue_worker_redelivery_skipped
           example_message (example_queue_world "" [] [])).
  exists (protocol_events
            (snd (Processor.process_record
                    example_message (example_queue_world "" [] [])))).
  exists "u1"%string. split.
  - vm_compute. reflexivity.
  - vm_compute. right. left. reflexivity.
Defined.

(** ** A batch of the queue worker *)

Section QueueBatch.
Import Processor.

Lemma process_record_total body w : fst (process_record body w) = Ok tt.
Proof.
  unfold process_record, catch.
  match goal with
  | |- fst (let (r, w') := ?c w in _) = _ => destruct (c w) as [[[]|e] w1]
  end; reflexivity.
Qed.

Lemma commit_shape_checks id member snapshot tail :
  commit_shape id member snapshot tail ->
  holder_checks tail = 1%nat
  /\ (commit_requests tail <= 1)%nat
  /\ history_requests tail = served_commits tail
  /\ (served_commits tail <= commit_requests tail)%nat.
Proof.
  intros [r2|r2 Hr2|r2 Hr2|r2 row s Hr2 Hsnap]; cbn; repeat split; lia.
Qed.

Lemma attempt_shape_checks body added :
  attempt_shape body added ->
  (1 <= holder_checks added <= 2)%nat
  /\ (commit_requests added <= 1)%nat
  /\ history_requests added = served_commits added
  /\ (served_commits added <= commit_requests added)%nat.
Proof.
  intros [r1|r1|r1 tail m snapshot cands w0 Hr1 Hsel Htail].
  - cbn. repeat split; lia.
  - cbn. repeat split; lia.
  - destruct (commit_shape_checks _ _ _ tail Htail) as (H1 & H2 & H3 & H4).
    unfold holder_checks, commit_requests, history_requests, served_commits
      in *.
    rewrite !List.filter_app, !length_app. cbn. repeat split; lia.
Qed.


End QueueBatch.

(** ** The candidates of the queue worker *)

Section QueueCandidates.
Import Processor.

Lemma existsb_eqb_In x l : existsb (String.eqb x) l = true <-> In x l.
Proof.
  rewrite existsb_exists. split.
  - intros (y & Hy & E). apply String.eqb_eq in E. now subst.
  - intros Hx. exists x. split; [exact Hx | apply String.eqb_refl].
Qed.

Lemma dedupe_In x l : In x (dedupe l) <-> In x l.
Proof.
  induction l as [|y l IH]; [reflexivity|]. cbn [dedupe].
  destruct (existsb (String.eqb y) l) eqn:E.
  - rewrite IH. apply existsb_eqb_In in E. split; [now right|].
    intros [<-|Hx]; assumption.
  - cbn [In]. now rewrite IH.
Qed.

Lemma dedupe_NoDup l : List.NoDup (dedupe l).
Proof.
  induction l as [|y l IH]; [constructor|]. cbn [dedupe].
  destruct (existsb (String.eqb y) l) eqn:E; [exact IH|].
  apply List.NoDup_cons; [|exact IH].
  rewrite dedupe_In, <- existsb_eqb_In, E. discriminate.
Qed.

Lemma In_omap {A B} (f : A -> option B) l y :
  In y (omap f l) <-> exists x, In x l /\ f x = Some y.
Proof.
  induction l as [|x l IH].
  - split; [intros [] | intros (x & [] & _)].
  - change (omap f (x :: l))
      with (match f x with Some b => b :: omap f l | None => omap f l end).
    destruct (f x) as [b|] eqn:E.
    + cbn [In]. rewrite IH. split.
      * intros [<-|(x' & Hin & Hx')]; [exists x; split; [now left | exact E]|].
        exists x'. split; [now right | exact Hx'].
      * intros (x' & [<-|Hin] & Hx'); [left; congruence|].
        right. now exists x'.
    + rewrite IH. split.
      * intros (x' & Hin & Hx'). exists x'. split; [now right | exact Hx'].
      * intros (x' & [<-|Hin] & Hx'); [congruence|]. now exists x'.
Qed.

Lemma request_always_run c failure w :
  exists (served : bool) w',
    request c always failure w
    = ((if served then Ok tt else Raise failure), w')
    /\ worker_frame w' = worker_frame w.
Proof.
  unfold request, always.
  destruct (turns w) as [|[| |rid rholder] rest].
  - exists true. eexists. split; reflexivity.
  - exists true. eexists. split; reflexivity.
  - exists false. eexists. split; reflexivity.
  - exists true. eexists. split; reflexivity.
Qed.

Lemma frame_grmembers w1 w2 :
  worker_frame w1 = worker_frame w2 -> grmember_table w1 = grmember_table w2.
Proof. unfold worker_frame. congruence. Qed.

Lemma frame_member_data w1 w2 :
  worker_frame w1 = worker_frame w2 -> member_data w1 = member_data w2.
Proof. unfold worker_frame. congruence. Qed.

(** X12. [fetch_group_members_from_servicenow] returns the users of the group's
    membership rows without repetition and without empty entries: a user is
    listed iff it is non-empty and some row of the group names it.  The only
    exception is the [HTTPError] of a failed request. *)
Theorem group_members_distinct_and_nonempty (g : string) (w : World) :
  match fst (fetch_group_members_from_servicenow g w) with
  | Ok members =>
      List.NoDup members
      /\ forall u, In u members <->
                   u <> ""%string /\ In (g, Some u) (grmember_table w)
  | Raise e => e = HTTPError "sys_user_grmember"
  end.
Proof.
  unfold fetch_group_members_from_servicenow, bind.
  destruct (request_always_run (fun _ => GetGroupMembers g)
              (HTTPError "sys_user_grmember") w)
    as (served & w1 & Hrun & Hframe).
  rewrite Hrun. destruct served; [|reflexivity].
  unfold get_world, ret. cbn [fst].
  rewrite (frame_grmembers _ _ Hframe).
  split; [apply dedupe_NoDup|].
  intros u. rewrite dedupe_In, In_omap. split.
  - intros ([u'|] & Hin & Hu); [|discriminate].
    destruct (truthy u') eqn:Et; [|discriminate]. injection Hu as ->.
    apply in_map_iff in Hin as ([g' m] & Em & Hin). cbn in Em. subst m.
    apply List.filter_In in Hin as [Hin Hg]. cbn in Hg.
    apply String.eqb_eq in Hg. subst g'. split; [|exact Hin].
    intros ->. discriminate.
  - intros [Hne Hin]. exists (Some u). split.
    + apply in_map_iff. exists (g, Some u). split; [reflexivity|].
      apply List.filter_In. split; [exact Hin | apply String.eqb_refl].
    + unfold truthy. destruct (String.eqb u "") eqn:E; [|reflexivity].
      apply String.eqb_eq in E. contradiction.
Qed.

End QueueCandidates.

Section QueueRows.
Import Processor.

(** The shift test of the queue worker is the window rule of
    [_is_time_in_shift], on the days the row lists. *)
Lemma row_in_shift_window dt r :
  row_in_shift dt r
  = contains (weekday_name (weekday dt)) (default ""%string (shift_days r))
    && match shift_start_time r, shift_end_time r with
       | Some s, Some e => _is_time_in_shift (time_of dt) s e
       | _, _ => false
       end.
Proof.
  unfold row_in_shift, _is_time_in_shift.
  destruct (contains (weekday_name (weekday dt))
                     (default ""%string (shift_days r))); [|reflexivity].
  cbn [negb andb].
  destruct (shift_start_time r) as [s|]; [|reflexivity].
  destruct (shift_end_time r) as [e|]; [|reflexivity].
  destruct (time_leb s (time_of dt)) eqn:E1;
    destruct (time_leb (time_of dt) e) eqn:E2;
    destruct (time_leb s e) eqn:E3; cbn; try reflexivity.
  - now rewrite orb_true_r.
Qed.

Lemma filter_none {A} (p : A -> bool) l :
  (forall x, p x = false) -> List.filter p l = [].
Proof.
  intros Hp. induction l as [|x l IH]; [reflexivity|]. simpl.
  now rewrite Hp.
Qed.


End QueueRows.

(** ** The base workload of the queue worker *)

Section BaseWorkload.
Import Processor.

Lemma priority_weight_table_bounds :
  map_Forall (fun _ v => (0.5 <= v)%Q) PRIORITY_WEIGHT.
Proof.
  apply map_Forall_to_list.
  let l := eval vm_compute in (map_to_list PRIORITY_WEIGHT) in
  replace (map_to_list PRIORITY_WEIGHT) with l by (vm_compute; reflexivity).
  repeat (constructor; [simpl; lra|]). constructor.
Qed.

Lemma severity_mult_table_bounds :
  map_Forall (fun _ v => (1 <= v)%Q) SEVERITY_MULT.
Proof.
  apply map_Forall_to_list.
  let l := eval vm_compute in (map_to_list SEVERITY_MULT) in
  replace (map_to_list SEVERITY_MULT) with l by (vm_compute; reflexivity).
  repeat (constructor; [simpl; lra|]). constructor.
Qed.

Lemma py_max_lub a b c : (a <= c)%Q -> (b <= c)%Q -> (py_max a b <= c)%Q.
Proof. intros Ha Hb. unfold py_max. destruct (Qlt_bool a b); assumption. Qed.

Lemma py_max_mono a b c : (b <= c)%Q -> (py_max a b <= py_max a c)%Q.
Proof.
  intros Hbc. destruct (py_max_spec a c) as [H1 H2].
  apply py_max_lub; lra.
Qed.

(** The factors of one contribution. *)
Lemma incident_load_factors inc :
  exists p s,
    (0.5 <= p)%Q /\ (1 <= s)%Q
    /\ forall now',
         incident_load now' inc
         = (p * s
            * (1.0 + py_max 0.0 (inject_Z (now' - default now'
                                                     (opened_at inc))
                                 / 3600.0) / 24.0))%Q.
Proof.
  exists (default 1.0%Q (PRIORITY_WEIGHT !! str_or (priority inc) "3")),
         (default 1.0%Q (SEVERITY_MULT !! str_or (severity inc) "3")).
  split; [|split; [|reflexivity]].
  - destruct (PRIORITY_WEIGHT !! str_or (priority inc) "3")
      as [v|] eqn:E; simpl; [exact (priority_weight_table_bounds _ _ E) | lra].
  - destruct (SEVERITY_MULT !! str_or (severity inc) "3")
      as [v|] eqn:E; simpl; [exact (severity_mult_table_bounds _ _ E) | lra].
Qed.

Lemma incident_load_min now_dt inc : (0.5 <= incident_load now_dt inc)%Q.
Proof.
  destruct (incident_load_factors inc) as (p & s & Hp & Hs & E).
  rewrite E.
  match goal with |- context [py_max ?x ?y] =>
    destruct (py_max_spec x y) as [Ha _]; revert Ha;
    generalize (py_max x y)
  end.
  intros a Ha.
  assert (H1 : (0.5 <= p * s)%Q) by nra.
  assert (H2 : (1 <= 1.0 + a / 24.0)%Q).
  { unfold Qdiv. change (/ 24.0)%Q with (10 # 240). lra. }
  nra.
Qed.

Lemma incident_load_ages now1 now2 inc :
  now1 <= now2 -> (incident_load now1 inc <= incident_load now2 inc)%Q.
Proof.
  intros Hnow.
  destruct (incident_load_factors inc) as (p & s & Hp & Hs & E).
  rewrite !E.
  assert (Ha : (py_max 0.0 (inject_Z (now1 - default now1 (opened_at inc))
                            / 3600.0)
                <= py_max 0.0 (inject_Z (now2 - default now2 (opened_at inc))
                               / 3600.0))%Q).
  { apply py_max_mono.
    unfold Qdiv. apply Qmult_le_compat_r; [|vm_compute; discriminate].
    rewrite <- Zle_Qle.
    destruct (opened_at inc) as [o|]; simpl; lia. }
  revert Ha.
  generalize (py_max 0.0 (inject_Z (now1 - default now1 (opened_at inc))
                          / 3600.0))%Q.
  generalize (py_max 0.0 (inject_Z (now2 - default now2 (opened_at inc))
                          / 3600.0))%Q.
  intros a2 a1 Ha.
  assert (H1 : (0 <= p * s)%Q) by nra.
  assert (H2 : (1.0 + a1 / 24.0 <= 1.0 + a2 / 24.0)%Q).
  { unfold Qdiv. change (/ 24.0)%Q with (10 # 240). lra. }
  nra.
Qed.

Lemma compute_base_workload_sum l now_dt :
  (compute_base_workload l now_dt == load_sum now_dt l)%Q.
Proof.
  unfold compute_base_workload.
  change (fold_left _ l 0.0%Q)
    with (fold_left (fun base inc => (base + incident_load now_dt inc)%Q)
                    l 0.0%Q).
  assert (Hfold : forall acc,
             (fold_left (fun base inc => base + incident_load now_dt inc) l acc
              == acc + load_sum now_dt l)%Q).
  { induction l as [|i l IH]; intros acc; simpl; [lra|].
    rewrite IH. unfold load_sum. simpl. lra. }
  rewrite Hfold. lra.
Qed.

Lemma load_sum_app now_dt l1 l2 :
  (load_sum now_dt (l1 ++ l2) == load_sum now_dt l1 + load_sum now_dt l2)%Q.
Proof.
  unfold load_sum. induction l1 as [|i l1 IH]; simpl; [lra|].
  rewrite IH. lra.
Qed.

Lemma load_sum_perm now_dt l1 l2 :
  Permutation l1 l2 -> (load_sum now_dt l1 == load_sum now_dt l2)%Q.
Proof. unfold load_sum. induction 1; simpl; lra. Qed.


End BaseWorkload.

(** ** What a batch of the queue worker leaves alone *)

Section QueueFrame.
Import Processor.

Lemma steady_ret {A} (a : A) : steady (ret a).
Proof. intros w. reflexivity. Qed.

Lemma steady_raise {A} e : steady (@raise World A e).
Proof. intros w. reflexivity. Qed.

Lemma steady_get_world : steady (@get_world World).
Proof. intros w. reflexivity. Qed.

Lemma steady_logger lvl msg : steady (logger lvl msg).
Proof. intros w. reflexivity. Qed.

Lemma steady_bind {A B} (c : Eff World A) (k : A -> Eff World B) :
  steady c -> (forall a, steady (k a)) -> steady (bind c k).
Proof.
  intros Hc Hk w. unfold bind. specialize (Hc w).
  destruct (c w) as [[a|e] w1]; simpl in *; [|exact Hc].
  rewrite (Hk a w1). exact Hc.
Qed.

Lemma steady_catch {A} (c : Eff World A) h :
  steady c -> (forall e k, h e = Some k -> steady k) -> steady (catch c h).
Proof.
  intros Hc Hh w. unfold catch. specialize (Hc w).
  destruct (c w) as [[a|e] w1]; simpl in *; [exact Hc|].
  destruct (h e) as [k|] eqn:E; simpl; [|exact Hc].
  rewrite (Hh e k E w1). exact Hc.
Qed.

Lemma steady_request c accepts failure : steady (request c accepts failure).
Proof.
  intros w. unfold request.
  destruct (match turns w with [] => (Serve, []) | t :: rest => (t, rest) end)
    as [t rest].
  match goal with
  | |- context [if ?b then _ else _] => destruct b
  end; reflexivity.
Qed.

Lemma steady_random_uniform a b : steady (random_uniform a b).
Proof.
  intros w. unfold random_uniform. destruct (randoms w); reflexivity.
Qed.

Lemma steady_set_incident_table f :
  steady (modify (fun w => set_incident_table (f w) w)).
Proof. intros w. reflexivity. Qed.

Create HintDb steady discriminated.
#[local] Hint Resolve steady_ret steady_raise steady_get_world steady_logger
  steady_request steady_random_uniform steady_set_incident_table : steady.

Ltac steady_step :=
  first
    [ solve [auto with steady]
    | apply steady_bind; [|intros ?] ].

Lemma steady_fetch_group_members g :
  steady (fetch_group_members_from_servicenow g).
Proof. unfold fetch_group_members_from_servicenow. repeat steady_step. Qed.

Lemma steady_fetch_member_rows ids g dt :
  steady (fetch_member_rows_from_db ids g dt).
Proof.
  unfold fetch_member_rows_from_db. destruct ids; repeat steady_step.
Qed.

Lemma steady_score_candidates candidates now_dt :
  forall scores, steady (score_candidates candidates now_dt scores).
Proof.
  induction candidates as [|c rest IH]; intros scores; simpl.
  - apply steady_ret.
  - apply steady_bind.
    { unfold fetch_assigned_incidents_for_member. repeat steady_step. }
    intros assigned. apply steady_bind.
    { unfold get_recent_assignment_count. repeat steady_step. }
    intros recent. apply steady_bind; [apply steady_random_uniform|].
    intros j. apply IH.
Qed.

Lemma steady_select_best_member candidates body :
  steady (select_best_member candidates body).
Proof.
  unfold select_best_member.
  apply steady_bind; [apply steady_get_world|]. intros w.
  apply steady_bind; [apply steady_score_candidates|]. intros scores.
  destruct (sort_stable by_weight_asc scores); apply steady_ret.
Qed.

Lemma steady_confirm_incident_unassigned id :
  steady (confirm_incident_unassigned id).
Proof. unfold confirm_incident_unassigned. repeat steady_step. Qed.

Lemma steady_assign_incident_to_member id member :
  steady (assign_incident_to_member id member).
Proof. unfold assign_incident_to_member. repeat steady_step. Qed.

(** The row of [record_assignment_history] carries the time in its member
    column: it is not a countable row. *)
Lemma steady_record_assignment_history id num member snapshot :
  steady (record_assignment_history id num member snapshot).
Proof.
  unfold record_assignment_history.
  apply steady_bind; [apply steady_get_world|]. intros w0.
  apply steady_bind; [apply steady_request|]. intros _.
  intros w. reflexivity.
Qed.

Lemma steady_confirm_and_assign body member snapshot :
  steady (confirm_and_assign body member snapshot).
Proof.
  unfold confirm_and_assign.
  apply steady_bind; [apply steady_confirm_incident_unassigned|].
  intros inc. destruct (held inc); [apply steady_logger|].
  apply steady_bind; [apply steady_assign_incident_to_member|]. intros _.
  apply steady_bind; [apply steady_record_assignment_history|]. intros _.
  apply steady_logger.
Qed.

Lemma steady_gather_and_select body : steady (gather_and_select body).
Proof.
  unfold gather_and_select.
  apply steady_bind; [apply steady_fetch_group_members|].
  intros [|m ms]; [apply steady_logger|].
  apply steady_bind.
  { destruct (m_opened_at body) as [[dt|]|]; repeat steady_step. }
  intros dt. apply steady_bind; [apply steady_fetch_member_rows|].
  intros [|r rs]; [apply steady_logger|].
  apply steady_bind; [apply steady_get_world|]. intros w.
  apply steady_bind; [apply steady_select_best_member|].
  intros [[sel|] snapshot]; [|apply steady_logger].
  destruct (truthy sel); [apply steady_confirm_and_assign|].
  apply steady_logger.
Qed.

Lemma steady_process_record body : steady (process_record body).
Proof.
  unfold process_record. apply steady_catch.
  - apply steady_bind; [apply steady_confirm_incident_unassigned|].
    intros [i|]; [|apply steady_logger].
    destruct (held (Some i)); [apply steady_logger|].
    apply steady_gather_and_select.
  - intros e k [= <-]. apply steady_logger.
Qed.

Lemma steady_lambda_handler records : steady (lambda_handler records).
Proof.
  induction records as [|rec rest IH]; simpl; [apply steady_ret|].
  apply steady_bind; [apply steady_process_record|]. intros _. exact IH.
Qed.

Lemma recent_row_countable member cutoff h :
  List.filter (recent_row member cutoff) h
  = List.filter (recent_row member cutoff) (countable_rows h).
Proof.
  unfold countable_rows. rewrite filter_filter.
  apply List.filter_ext. intros r. unfold recent_row.
  destruct (h_assigned_to_member_sys_id r); reflexivity.
Qed.

(** X15. A batch of the queue worker changes neither the clock, nor the group
    and member tables, nor the rows of the history table that
    [get_recent_assignment_count] can match.  The rows the worker itself
    writes are not among them: [record_assignment_history] puts the time in
    the member column and the member in the time column, so the count of
    recent assignments of every member is after the batch what it was
    before. *)
Theorem queue_batch_frame (records : list Message) (w : World) :
  let w' := snd (lambda_handler records w) in
  worker_frame w' = worker_frame w
  /\ forall member cutoff,
       List.filter (recent_row member cutoff) (history w')
       = List.filter (recent_row member cutoff) (history w).
Proof.
  cbv zeta. pose proof (steady_lambda_handler records w) as Hframe.
  split; [exact Hframe|]. intros member cutoff.
  rewrite (recent_row_countable member cutoff (history w)),
          (recent_row_countable member cutoff
             (history (snd (lambda_handler records w)))).
  unfold worker_frame in Hframe. congruence.
Qed.

End QueueFrame.

(** ** The loop over the queue messages *)

Section SqsAccounting.
Context `{Runtime} `{Config}.

(** One message: what it adds to the counters, to the requests to SQS and
    to the protocol requests of the SaaS variant. *)
Lemma process_message_run m s :
  exists s' dp ds df new_sqs new_sn,
    process_message m s = (Ok tt, s')
    /\ messages_processed (iv_results s')
       = (dp + messages_processed (iv_results s))%nat
    /\ assignments_successful (iv_results s')
       = (ds + assignments_successful (iv_results s))%nat
    /\ assignments_failed (iv_results s')
       = (df + assignments_failed (iv_results s))%nat
    /\ dp = (ds + df)%nat /\ (dp <= 1)%nat
    /\ iv_calls s' = new_sqs ++ iv_calls s
    /\ saas_protocol_events (iv_world s')
       = new_sn ++ saas_protocol_events (iv_world s)
    /\ delete_requests new_sqs = ds
    /\ saas_served_commits new_sn = ds
    /\ incl (iv_queue s') (iv_queue s).
Proof.
  unfold process_message, catch, parse_sqs_message.
  destruct (sm_body m) as [| |d].
  - eexists _, 0%nat, 0%nat, 0%nat, [], [].
    repeat split; try reflexivity; try lia. apply incl_refl.
  - eexists _, 0%nat, 0%nat, 0%nat, [], [].
    repeat split; try reflexivity; try lia. apply incl_refl.
  - unfold bind at 1, ret at 1. unfold bind at 1, update_results at 1.
    unfold modify at 1. unfold bind at 1, in_world at 1.
    cbn [iv_world set_results].
    pose proof (process_incident_assignment_outcome d (iv_world s)) as Ho.
    cbv zeta in Ho.
    destruct (process_incident_assignment d (iv_world s)) as [r w'] eqn:E.
    cbn [fst snd] in Ho.
    destruct Ho as (added & Hev & Hiff & Hcount & Hres & _).
    destruct Hres as [-> | [-> | ->]].
    + assert (Hs : saas_commit_served added = true) by now apply Hiff.
      rewrite Hs in Hcount.
      unfold delete_sqs_message, sqs_request, update_results, modify, bind.
      cbn [iv_faults set_world set_results iv_results].
      destruct (iv_faults s) as [|[|] rest].
      * eexists _, 1%nat, 1%nat, 0%nat,
          [(DeleteMessage (sm_receipt_handle m), true)], added.
        repeat split; try reflexivity; try lia; try assumption.
        cbn. apply incl_filter.
      * eexists _, 1%nat, 1%nat, 0%nat,
          [(DeleteMessage (sm_receipt_handle m), false)], added.
        repeat split; try reflexivity; try lia; try assumption.
        apply incl_refl.
      * eexists _, 1%nat, 1%nat, 0%nat,
          [(DeleteMessage (sm_receipt_handle m), true)], added.
        repeat split; try reflexivity; try lia; try assumption.
        cbn. apply incl_filter.
    + assert (Hs : saas_commit_served added = false).
      { destruct (saas_commit_served added); [|reflexivity].
        assert (Hx : @Ok bool false = Ok true) by now apply Hiff.
        discriminate. }
      rewrite Hs in Hcount.
      eexists _, 1%nat, 0%nat, 1%nat, [], added.
      repeat split; try reflexivity; try lia; try assumption.
      apply incl_refl.
    + assert (Hs : saas_commit_served added = false).
      { destruct (saas_commit_served added); [|reflexivity].
        assert (Hx : @Raise bool (DatabaseError "Database operation failed")
                     = Ok true) by now apply Hiff.
        discriminate. }
      rewrite Hs in Hcount.
      eexists _, 1%nat, 0%nat, 1%nat, [], added.
      repeat split; try reflexivity; try lia; try assumption.
      apply incl_refl.
Qed.

Lemma process_messages_run messages :
  forall s,
    exists s' dp ds df new_sqs new_sn,
      process_messages messages s = (Ok tt, s')
      /\ messages_processed (iv_results s')
         = (dp + messages_processed (iv_results s))%nat
      /\ assignments_successful (iv_results s')
         = (ds + assignments_successful (iv_results s))%nat
      /\ assignments_failed (iv_results s')
         = (df + assignments_failed (iv_results s))%nat
      /\ dp = (ds + df)%nat /\ (dp <= length messages)%nat
      /\ iv_calls s' = new_sqs ++ iv_calls s
      /\ saas_protocol_events (iv_world s')
         = new_sn ++ saas_protocol_events (iv_world s)
      /\ delete_requests new_sqs = ds
      /\ saas_served_commits new_sn = ds
      /\ incl (iv_queue s') (iv_queue s).
Proof.
  induction messages as [|m rest IH]; intros s.
  - exists s, 0%nat, 0%nat, 0%nat, [], [].
    repeat split; try reflexivity; try lia. apply incl_refl.
  - cbn [process_messages]. unfold bind.
    destruct (process_message_run m s)
      as (s1 & dp1 & ds1 & df1 & q1 & n1 & Hrun1 & Hp1 & Hs1 & Hf1 & Hsum1
          & Hle1 & Hq1 & Hn1 & Hd1 & Hc1 & Hi1).
    rewrite Hrun1.
    destruct (IH s1)
      as (s2 & dp2 & ds2 & df2 & q2 & n2 & Hrun2 & Hp2 & Hs2 & Hf2 & Hsum2
          & Hle2 & Hq2 & Hn2 & Hd2 & Hc2 & Hi2).
    exists s2, (dp2 + dp1)%nat, (ds2 + ds1)%nat, (df2 + df1)%nat,
      (q2 ++ q1), (n2 ++ n1).
    split; [exact Hrun2|].
    split; [lia|]. split; [lia|]. split; [lia|]. split; [lia|].
    split; [cbn [length]; lia|].
    split; [rewrite Hq2, Hq1; apply app_assoc|].
    split; [rewrite Hn2, Hn1; apply app_assoc|].
    unfold delete_requests, saas_served_commits in *.
    rewrite !List.filter_app, !length_app.
    split; [lia|]. split; [lia|].
    eapply incl_tran; eassumption.
Qed.

Lemma receive_from_sqs_run n s :
  exists msgs s1 (b : bool),
    receive_from_sqs n s = (Ok msgs, s1)
    /\ (length msgs <= n)%nat
    /\ iv_queue s1 = iv_queue s
    /\ iv_results s1 = iv_results s
    /\ iv_calls s1 = (ReceiveMessage n, b) :: iv_calls s
    /\ saas_protocol_events (iv_world s1) = saas_protocol_events (iv_world s).
Proof.
  unfold receive_from_sqs, sqs_request, bind.
  destruct (iv_faults s) as [|[|] rest].
  - eexists _, _, true. split; [reflexivity|].
    split; [apply firstn_le_length | repeat split].
  - eexists _, _, false. split; [reflexivity|].
    split; [cbn; lia | repeat split].
  - eexists _, _, true. split; [reflexivity|].
    split; [apply firstn_le_length | repeat split].
Qed.

Lemma process_sqs_messages_run s :
  exists res s' new_sqs new_sn,
    process_sqs_messages s = (Ok res, s')
    /\ messages_processed res
       = (assignments_successful res + assignments_failed res)%nat
    /\ (messages_processed res <= 10)%nat
    /\ iv_calls s' = new_sqs ++ iv_calls s
    /\ saas_protocol_events (iv_world s')
       = new_sn ++ saas_protocol_events (iv_world s)
    /\ delete_requests new_sqs = assignments_successful res
    /\ saas_served_commits new_sn = assignments_successful res
    /\ incl (iv_queue s') (iv_queue s).
Proof.
  unfold process_sqs_messages. unfold bind at 1, modify at 1.
  set (s0 := set_results _ s). unfold bind at 1.
  destruct (receive_from_sqs_run 10 s0)
    as (msgs & s1 & b & Hrun1 & Hlen & Hq1 & Hr1 & Hc1 & Hev1).
  rewrite Hrun1.
  destruct msgs as [|m0 ms].
  - unfold bind, in_world, logger, get_world, ret.
    eexists _, _, [(ReceiveMessage 10, b)], [].
    split; [reflexivity|].
    cbn [iv_calls iv_world iv_queue iv_results set_world set_results set_sqs
         set_queue].
    change (saas_protocol_events (set_log ?l ?w))
      with (saas_protocol_events w).
    rewrite Hr1, Hc1, Hq1. cbn.
    repeat split; try lia; try apply incl_refl. exact Hev1.
  - unfold bind at 1, in_world at 1, logger at 1. unfold bind at 1.
    match goal with
    | |- context [process_messages (m0 :: ms) ?s2] =>
        destruct (process_messages_run (m0 :: ms) s2)
          as (s3 & dp & ds & df & q & n & Hrun & Hp & Hs & Hf & Hsum & Hle
              & Hq & Hn & Hd & Hc & Hi)
    end.
    rewrite Hrun. cbn in Hp, Hs, Hf, Hq, Hn, Hi.
    rewrite Hr1 in Hp, Hs, Hf. cbn in Hp, Hs, Hf.
    rewrite Hc1 in Hq. rewrite Hq1 in Hi.
    eexists _, _, (q ++ [(ReceiveMessage 10, b)]), n.
    unfold bind, in_world, logger, get_world, ret.
    split; [reflexivity|].
    cbn [iv_calls iv_world iv_queue iv_results set_world set_results set_sqs
         set_queue].
    change (saas_protocol_events (set_log ?l ?w))
      with (saas_protocol_events w).
    split; [lia|]. split; [lia|].
    split; [rewrite Hq, <- app_assoc; reflexivity|].
    split; [rewrite Hn; f_equal; exact Hev1|].
    split; [|split; [lia | exact Hi]].
    unfold delete_requests in *. rewrite List.filter_app, length_app.
    cbn. lia.
Qed.


End SqsAccounting.

(** ** The queue worker commits only after every lookup was served *)

Section QueueFailClosed.
Import Processor.

Lemma strict_ret {A} (a : A) : strict (ret a).
Proof.
  intros w. exists []. split; [reflexivity|].
  split; [constructor | intros id m s []].
Qed.

Lemma strict_raise {A} e : strict (@raise World A e).
Proof.
  intros w. exists []. split; [reflexivity|].
  split; [constructor | intros id m s []].
Qed.

Lemma strict_get_world : strict (@get_world World).
Proof.
  intros w. exists []. split; [reflexivity|].
  split; [constructor | intros id m s []].
Qed.

Lemma strict_logger lvl msg : strict (logger lvl msg).
Proof.
  intros w. exists []. split; [reflexivity|].
  split; [constructor | intros id m s []].
Qed.

Lemma strict_random_uniform a b : strict (random_uniform a b).
Proof.
  intros w. exists []. unfold random_uniform.
  destruct (randoms w); (split; [reflexivity|]);
    (split; [constructor | intros id m s []]).
Qed.

Lemma strict_bind {A B} (c : Eff World A) (k : A -> Eff World B) :
  strict c -> (forall a, strict (k a)) -> strict (bind c k).
Proof.
  intros Hc Hk w. unfold bind.
  destruct (Hc w) as (a1 & Hcalls1 & Hok1 & Hno1).
  destruct (c w) as [[a|e] w1]; cbn [fst snd] in *.
  - destruct (Hk a w1) as (a2 & Hcalls2 & Hok2 & Hno2).
    exists (a2 ++ a1). split; [rewrite Hcalls2, Hcalls1; apply app_assoc|].
    split.
    + intros Hok. apply Forall_app. split; [exact (Hok2 Hok)|].
      apply Hok1. reflexivity.
    + intros id m s Hin. apply in_app_or in Hin as [Hin|Hin];
        [exact (Hno2 id m s Hin) | exact (Hno1 id m s Hin)].
  - exists a1. split; [exact Hcalls1|]. split; [discriminate | exact Hno1].
Qed.

Lemma strict_request c accepts failure :
  (forall table id m, c table <> PatchIncident id m) ->
  strict (request c accepts failure).
Proof.
  intros Hc w. unfold request.
  destruct (match turns w with [] => (Serve, []) | t :: rest => (t, rest) end)
    as [t rest].
  match goal with
  | |- context [if ?b then _ else _] => destruct b
  end; eexists [_]; (split; [reflexivity|]); cbn [fst snd is_ok].
  - split; [intros _; repeat constructor|].
    intros id m s [Hx|[]]. injection Hx as Hx _. exact (Hc _ _ _ Hx).
  - split; [discriminate|].
    intros id m s [Hx|[]]. injection Hx as Hx _. exact (Hc _ _ _ Hx).
Qed.

Ltac strict_step :=
  first
    [ apply strict_ret | apply strict_raise | apply strict_get_world
    | apply strict_logger | apply strict_random_uniform
    | apply strict_request; discriminate
    | apply strict_bind; [|intros ?] ].

Lemma strict_fetch_group_members g :
  strict (fetch_group_members_from_servicenow g).
Proof. unfold fetch_group_members_from_servicenow. repeat strict_step. Qed.

Lemma strict_fetch_member_rows ids g dt :
  strict (fetch_member_rows_from_db ids g dt).
Proof.
  unfold fetch_member_rows_from_db. destruct ids; repeat strict_step.
Qed.

Lemma strict_score_candidates candidates now_dt :
  forall scores, strict (score_candidates candidates now_dt scores).
Proof.
  induction candidates as [|c rest IH]; intros scores; simpl.
  - apply strict_ret.
  - apply strict_bind.
    { unfold fetch_assigned_incidents_for_member. repeat strict_step. }
    intros assigned. apply strict_bind.
    { unfold get_recent_assignment_count. repeat strict_step. }
    intros recent. apply strict_bind; [apply strict_random_uniform|].
    intros j. apply IH.
Qed.

Lemma strict_select_best_member candidates body :
  strict (select_best_member candidates body).
Proof.
  unfold select_best_member.
  apply strict_bind; [apply strict_get_world|]. intros w.
  apply strict_bind; [apply strict_score_candidates|]. intros scores.
  destruct (sort_stable by_weight_asc scores); apply strict_ret.
Qed.

Lemma strict_confirm_incident_unassigned id :
  strict (confirm_incident_unassigned id).
Proof. unfold confirm_incident_unassigned. repeat strict_step. Qed.

Lemma strict_guarded {A} (c : Eff World A) : strict c -> guarded c.
Proof.
  intros Hc w. destruct (Hc w) as (added & Hcalls & _ & Hno).
  exists added. split; [exact Hcalls|].
  intros id m s Hin. destruct (Hno id m s Hin).
Qed.

Lemma guarded_bind {A B} (c : Eff World A) (k : A -> Eff World B) :
  strict c -> (forall a, guarded (k a)) -> guarded (bind c k).
Proof.
  intros Hc Hk w. unfold bind.
  destruct (Hc w) as (a1 & Hcalls1 & Hok1 & Hno1).
  destruct (c w) as [[a|e] w1]; cbn [fst snd] in *.
  - destruct (Hk a w1) as (a2 & Hcalls2 & Hg2).
    exists (a2 ++ a1). split; [rewrite Hcalls2, Hcalls1; apply app_assoc|].
    intros id m s Hin c0 Hfail.
    apply in_app_or in Hin as [Hin|Hin]; [|destruct (Hno1 id m s Hin)].
    apply in_app_or in Hfail as [Hfail|Hfail];
      [exact (Hg2 id m s Hin c0 Hfail)|].
    specialize (Hok1 eq_refl).
    rewrite List.Forall_forall in Hok1.
    specialize (Hok1 _ Hfail). discriminate.
  - exists a1. split; [exact Hcalls1|].
    intros id m s Hin. destruct (Hno1 id m s Hin).
Qed.

Lemma request_calls c accepts failure w :
  exists (s : bool) w' table,
    request c accepts failure w = ((if s then Ok tt else Raise failure), w')
    /\ calls w' = (c table, s) :: calls w.
Proof.
  unfold request.
  destruct (match turns w with [] => (Serve, []) | t :: rest => (t, rest) end)
    as [t rest].
  match goal with
  | |- context [if ?b then _ else _] => destruct b
  end; [exists true | exists false]; do 2 eexists; split; reflexivity.
Qed.

(** The commit and what follows it. *)
Lemma guarded_commit id num member snapshot msg :
  guarded (bind (assign_incident_to_member id member)
             (fun _ =>
                bind (record_assignment_history id num member snapshot)
                     (fun _ => logger INFO msg))).
Proof.
  intros w. unfold assign_incident_to_member, record_assignment_history.
  unfold bind at 1. unfold bind at 1.
  match goal with
  | |- context [request ?c ?a ?f w] =>
      destruct (request_calls c a f w) as (s1 & w1 & t1 & Hrun1 & Hc1)
  end.
  rewrite Hrun1. destruct s1.
  - unfold modify at 1. unfold bind at 1. unfold bind at 1, get_world at 1.
    unfold bind at 1.
    match goal with
    | |- context [request ?c ?a ?f ?w2] =>
        destruct (request_calls c a f w2) as (s2 & w3 & t2 & Hrun2 & Hc2)
    end.
    rewrite Hrun2. cbn [calls set_incident_table] in Hc2.
    destruct s2.
    + unfold modify, logger. cbn [fst snd calls set_log set_history].
      eexists [_; _]. split; [rewrite Hc2, Hc1; reflexivity|].
      intros id' m' s Hin c0 [Hx|[Hx|[]]]; discriminate.
    + cbn [snd]. eexists [_; _]. split; [rewrite Hc2, Hc1; reflexivity|].
      intros id' m' s Hin c0 [Hx|[Hx|[]]]; [|discriminate].
      injection Hx as <-. right. eexists. reflexivity.
  - cbn [snd]. exists [(PatchIncident id member, false)].
    split; [exact Hc1|].
    intros id' m' s [Hx|[]] c0 [Hy|[]].
    injection Hx as <- <- _. injection Hy as <-. now left.
Qed.

Lemma guarded_confirm_and_assign body member snapshot :
  guarded (confirm_and_assign body member snapshot).
Proof.
  unfold confirm_and_assign.
  apply guarded_bind; [apply strict_confirm_incident_unassigned|].
  intros inc. destruct (held inc); [apply strict_guarded, strict_logger|].
  apply guarded_commit.
Qed.

Lemma guarded_gather_and_select body : guarded (gather_and_select body).
Proof.
  unfold gather_and_select.
  apply guarded_bind; [apply strict_fetch_group_members|].
  intros [|m ms]; [apply strict_guarded, strict_logger|].
  apply guarded_bind.
  { destruct (m_opened_at body) as [[dt|]|]; repeat strict_step. }
  intros dt. apply guarded_bind; [apply strict_fetch_member_rows|].
  intros [|r rs]; [apply strict_guarded, strict_logger|].
  apply guarded_bind; [apply strict_get_world|]. intros w.
  apply guarded_bind; [apply strict_select_best_member|].
  intros [[sel|] snapshot]; [|apply strict_guarded, strict_logger].
  destruct (truthy sel); [apply guarded_confirm_and_assign|].
  apply strict_guarded, strict_logger.
Qed.

(** X17. The queue worker fails closed.  When the processing of a record asks
    for a commit, every request it made before was served: the pre-check, the
    group lookup, the member rows, the workload and recent-assignment lookups
    of every candidate, and the post-check.  Of all the requests of the
    record, only the commit itself and the history row can have failed. *)
Theorem queue_worker_commits_after_served_lookups
  (body : Message) (w : World) :
  exists added,
    calls (snd (process_record body w)) = added ++ calls w
    /\ forall id m s,
         In (PatchIncident id m, s) added ->
         forall c0, In (c0, false) added ->
                    c0 = PatchIncident id m
                    \/ exists row, c0 = InsertHistory row.
Proof.
  unfold process_record, catch.
  match goal with
  | |- context [let (r, w') := ?c w in _] =>
      assert (Hc : guarded c)
  end.
  { apply guarded_bind; [apply strict_confirm_incident_unassigned|].
    intros [i|]; [|apply strict_guarded, strict_logger].
    destruct (held (Some i)); [apply strict_guarded, strict_logger|].
    apply guarded_gather_and_select. }
  destruct (Hc w) as (added & Hcalls & Hg).
  match goal with
  | |- context [let (r, w') := ?c w in _] => destruct (c w) as [[a|e] w1]
  end; exists added; (split; [exact Hcalls | exact Hg]).
Qed.

End QueueFailClosed.
